(** * studip-sync: the content synchronisation engine

    A shallow embedding of [studip_sync/studip_rsync.py] (strategy A, the
    per-file walk) and [studip_sync/studip_sync.py] (strategy B, the archive
    mirror), and the properties of the engine checked against it.

    Conventions of the embedding.
    - A Python [str] is a Rocq [string]; a character is a code point in
      U+0000..U+00FF, so the umlauts the course-name pattern names are single
      characters (they are written with [ascii_of_nat], not as literals).
      The sanitiser is embedded a second time on sequences of code points
      of any plane ([Unicode]), and the first embedding is shown to be its
      restriction.
    - The local disk is a store of regular files under the path texts the
      calls are given. Directories, and two texts that lead to one file, are
      not in the store: the properties of the store are stated for names
      that are entries of their own, and where a path leads is computed from
      its components ([locate]).
    - A Python [int] is a [Z].
    - A mapping-shaped record (a listing entry) is a [gmap string value].
    - A call that can raise returns a [result]; [try]/[except] is a match on
      the exception.
    - The remote [Session], the clock and the regular expressions of the
      ignore list are collaborators: they enter as oracles. *)

From Stdlib Require Import ZArith Lia Bool Ascii String DecimalString DecimalNat.
From stdpp Require Import base option list gmap strings.

Local Open Scope Z_scope.
Set Warnings "-register-all".

(** ** The Python fragment the engine is written in *)

Module Py.

(** Dynamically typed values, as far as listings and course records hold
    them. *)
Inductive value :=
| VNone
| VBool (b : bool)
| VInt (n : Z)
| VStr (s : string).

#[global] Instance value_eq_dec : EqDecision value.
Proof. solve_decision. Defined.

Inductive exn :=
| KeyError (key : string)
| TypeError
| ValueError
| AttributeError
| OSError
| ShutilError
| ReError
| BadZipFile
| LoginError
| ParserError (msg : string)
| DownloadError (msg : string)
| ExtractionError (msg : string)
| MissingFeatureError
| MissingPermissionFolderError
| RecursionError.

Inductive result (A : Type) :=
| Ok (a : A)
| Raise (e : exn).
Arguments Ok {A} a.
Arguments Raise {A} e.

Definition bind {A B} (r : result A) (k : A -> result B) : result B :=
  match r with
  | Ok a => k a
  | Raise e => Raise e
  end.

Definition is_ok {A} (r : result A) : bool :=
  match r with Ok _ => true | Raise _ => false end.

(** [bool(v)]. *)
Definition truthy (v : value) : bool :=
  match v with
  | VNone => false
  | VBool b => b
  | VInt n => negb (n =? 0)
  | VStr s => negb (String.eqb s "")
  end.

(** [d[k]]. *)
Definition getitem (d : gmap string value) (k : string) : result value :=
  match d !! k with
  | Some v => Ok v
  | None => Raise (KeyError k)
  end.

(** [k in d]. *)
Definition contains (d : gmap string value) (k : string) : bool :=
  bool_decide (is_Some (d !! k)).

(** [a == b] on values; [True == 1] and [False == 0] as in Python. *)
Definition as_int (v : value) : option Z :=
  match v with
  | VInt n => Some n
  | VBool b => Some (if b then 1 else 0)
  | _ => None
  end.

Definition py_eq (a b : value) : bool :=
  match a, b with
  | VNone, VNone => true
  | VStr s, VStr t => String.eqb s t
  | _, _ =>
      match as_int a, as_int b with
      | Some x, Some y => x =? y
      | _, _ => false
      end
  end.

(** [a > b]: defined between numbers and between strings. *)
Definition py_gt (a b : value) : result bool :=
  match as_int a, as_int b with
  | Some x, Some y => Ok (y <? x)
  | _, _ =>
      match a, b with
      | VStr s, VStr t => Ok (String.ltb t s)
      | _, _ => Raise TypeError
      end
  end.

(** *** Characters and strings *)

Definition code (c : ascii) : nat := nat_of_ascii c.

Definition in_range (lo hi : nat) (c : ascii) : bool :=
  ((lo <=? code c) && (code c <=? hi))%nat.

Fixpoint mem_char (c : ascii) (s : string) : bool :=
  match s with
  | EmptyString => false
  | String d s' => Ascii.eqb c d || mem_char c s'
  end.

(** [str.isspace] on one character; the set [str.strip] and the pattern
    class [\s] use. *)
Definition isspace (c : ascii) : bool :=
  in_range 9 13 c || in_range 28 32 c
  || (code c =? 133)%nat || (code c =? 160)%nat.

(** The pattern class [\d]. *)
Definition isdecimal (c : ascii) : bool := in_range 48 57 c.

(** [s.replace(old, new)] for a one-character [old]. *)
Fixpoint replace (old : ascii) (new : string) (s : string) : string :=
  match s with
  | EmptyString => EmptyString
  | String c s' =>
      if Ascii.eqb c old then new +:+ replace old new s'
      else String c (replace old new s')
  end.

(** [re.sub('[...]', '', s)]: every character of the class is dropped. *)
Fixpoint sub_class (cls : ascii -> bool) (s : string) : string :=
  match s with
  | EmptyString => EmptyString
  | String c s' =>
      if cls c then sub_class cls s' else String c (sub_class cls s')
  end.

Fixpoint lstrip_by (p : ascii -> bool) (s : string) : string :=
  match s with
  | EmptyString => EmptyString
  | String c s' => if p c then lstrip_by p s' else s
  end.

Fixpoint rstrip_by (p : ascii -> bool) (s : string) : string :=
  match s with
  | EmptyString => EmptyString
  | String c s' =>
      match rstrip_by p s' with
      | EmptyString => if p c then EmptyString else String c EmptyString
      | r => String c r
      end
  end.

(** [s.strip()]. *)
Definition strip (s : string) : string :=
  rstrip_by isspace (lstrip_by isspace s).

Fixpoint all_chars (p : ascii -> bool) (s : string) : bool :=
  match s with
  | EmptyString => true
  | String c s' => p c && all_chars p s'
  end.

Definition first_char (s : string) : option ascii :=
  match s with
  | EmptyString => None
  | String c _ => Some c
  end.

Fixpoint last_char (s : string) : option ascii :=
  match s with
  | EmptyString => None
  | String c EmptyString => Some c
  | String _ s' => last_char s'
  end.

Definition digit_val (c : ascii) : Z := Z.of_nat (code c - 48).

(** *** [int(x)] *)

(** The digits of a base-10 literal: a digit first, single underscores
    only between digits. *)
Fixpoint int_digits (s : string) (acc : Z) (started : bool) : option Z :=
  match s with
  | EmptyString => if started then Some acc else None
  | String c s' =>
      if isdecimal c then int_digits s' (10 * acc + digit_val c) true
      else if Ascii.eqb c "_" && started then
        match s' with
        | String d _ => if isdecimal d then int_digits s' acc true else None
        | EmptyString => None
        end
      else None
  end.

(** White space [int] skips around a literal: no separators U+001C..1F. *)
Definition int_space (c : ascii) : bool :=
  in_range 9 13 c || (code c =? 32)%nat
  || (code c =? 133)%nat || (code c =? 160)%nat.

Definition int_of_str (s : string) : option Z :=
  match rstrip_by int_space (lstrip_by int_space s) with
  | String "-" ds => Z.opp <$> int_digits ds 0 false
  | String "+" ds => int_digits ds 0 false
  | ds => int_digits ds 0 false
  end.

Definition int (v : value) : result Z :=
  match v with
  | VInt n => Ok n
  | VBool b => Ok (if b then 1 else 0)
  | VStr s =>
      match int_of_str s with
      | Some n => Ok n
      | None => Raise ValueError
      end
  | VNone => Raise TypeError
  end.

(** [string.hexdigits]. *)
Definition hexdigits : string := "0123456789abcdefABCDEF".

(** *** The fragment of [re] the course-name pattern is written in *)

Module re.

Inductive regex :=
| Class (cls : ascii -> bool)
| Star (cls : ascii -> bool)
| Plus (cls : ascii -> bool)
| Opt (cls : ascii -> bool)
| Seq (r1 r2 : regex)
| Group (n : nat) (r : regex)
| Rep12 (r : regex).

(** Captures, the latest binding of a group first. *)
Definition captures := list (nat * string).

Fixpoint take (n : nat) (s : string) : string :=
  match n, s with
  | S n', String c s' => String c (take n' s')
  | _, _ => EmptyString
  end.

(** The text consumed between the input [s] and its suffix [rest]. *)
Definition consumed (s rest : string) : string :=
  take (String.length s - String.length rest) s.

Definition or_else {R} (a b : option R) : option R :=
  match a with
  | Some x => Some x
  | None => b
  end.

(** Greedy repetition of a class: the longest run first, then shorter
    ones while the continuation fails. *)
Fixpoint star {R} (cls : ascii -> bool) (s : string)
    (k : string -> option R) : option R :=
  match s with
  | String c s' => if cls c then or_else (star cls s' k) (k s) else k s
  | EmptyString => k s
  end.

Fixpoint run {R} (r : regex) (s : string) (caps : captures)
    (k : string -> captures -> option R) : option R :=
  match r with
  | Class cls =>
      match s with
      | String c s' => if cls c then k s' caps else None
      | EmptyString => None
      end
  | Star cls => star cls s (fun s' => k s' caps)
  | Plus cls =>
      match s with
      | String c s' =>
          if cls c then star cls s' (fun s'' => k s'' caps) else None
      | EmptyString => None
      end
  | Opt cls =>
      match s with
      | String c s' =>
          if cls c then or_else (k s' caps) (k s caps) else k s caps
      | EmptyString => k s caps
      end
  | Seq r1 r2 => run r1 s caps (fun s1 caps1 => run r2 s1 caps1 k)
  | Group n r1 =>
      run r1 s caps (fun s1 caps1 => k s1 ((n, consumed s s1) :: caps1))
  | Rep12 r1 =>
      run r1 s caps
        (fun s1 caps1 => or_else (run r1 s1 caps1 k) (k s1 caps1))
  end.

(** [pattern.match(s)]: anchored at the start, free at the end. *)
Definition match_ (r : regex) (s : string) : option captures :=
  run r s [] (fun _ caps => Some caps).

(** [m.group(n)]. *)
Fixpoint group (caps : captures) (n : nat) : option string :=
  match caps with
  | [] => None
  | (i, g) :: caps' => if (i =? n)%nat then Some g else group caps' n
  end.

(** A group inside an f-string: a group that took no part prints as
    [None]. *)
Definition fmt (g : option string) : string :=
  match g with
  | Some s => s
  | None => "None"
  end.

End re.

(** *** [os.path] on POSIX *)

Definition sep : ascii := "/".

Definition is_sep (c : ascii) : bool := Ascii.eqb c sep.

(** [(p[:i], p[i:])] for [i = p.rfind(sep) + 1]. *)
Fixpoint rsplit_sep (p : string) : string * string :=
  match p with
  | EmptyString => (EmptyString, EmptyString)
  | String c p' =>
      let (h, t) := rsplit_sep p' in
      if is_sep c then (String c h, t)
      else
        match h with
        | EmptyString => (EmptyString, String c t)
        | _ => (String c h, t)
        end
  end.

(** [os.path.split]: a head that is not only separators loses its trailing
    ones. *)
Definition path_split (p : string) : string * string :=
  let (head, tail) := rsplit_sep p in
  (if all_chars is_sep head then head else rstrip_by is_sep head, tail).

(** [os.path.join(a, b)]. *)
Definition path_join (a b : string) : string :=
  if bool_decide (first_char b = Some sep) then b
  else if String.eqb a EmptyString || bool_decide (last_char a = Some sep)
       then a +:+ b
       else a +:+ String sep b.

(** [os.path.join(a, b)] when [b] is any value. *)
Definition path_join_value (a : string) (b : value) : result string :=
  match b with
  | VStr s => Ok (path_join a s)
  | _ => Raise TypeError
  end.

(** *** Regular files *)

(** What the engine reads of a file: its bytes and [int(getmtime)]. *)
Record file := { data : string; mtime : Z }.

Definition getsize (f : file) : Z := Z.of_nat (String.length (data f)).

(** [os.path.exists]. *)
Definition path_exists (fs : gmap string file) (p : string) : bool :=
  bool_decide (is_Some (fs !! p)).

(** [os.rename]: an existing file at [dst] is replaced without a word. *)
Definition rename (fs : gmap string file) (src dst : string) :
    result (gmap string file) :=
  match fs !! src with
  | Some f => Ok (<[dst := f]> (delete src fs))
  | None => Raise OSError
  end.

(** [shutil.copyfile], the copy stamped [now]. *)
Definition copyfile (fs : gmap string file) (src dst : string) (now : Z) :
    result (gmap string file) :=
  match fs !! src with
  | Some f =>
      if String.eqb src dst then Raise ShutilError
      else Ok (<[dst := {| data := data f; mtime := now |}]> fs)
  | None => Raise OSError
  end.

(** *** Directory trees (the staging area of strategy B) *)

Inductive node :=
| File (content : string)
| Dir (entries : list (string * node)).

Definition is_dir (n : node) : bool :=
  match n with Dir _ => true | File _ => false end.

Fixpoint lookup_entry (name : string) (es : list (string * node)) : option node :=
  match es with
  | [] => None
  | (n, x) :: es' => if String.eqb n name then Some x else lookup_entry name es'
  end.

Fixpoint remove_entry (name : string) (es : list (string * node)) :
    list (string * node) :=
  match es with
  | [] => []
  | (n, x) :: es' =>
      if String.eqb n name then remove_entry name es'
      else (n, x) :: remove_entry name es'
  end.

Fixpoint set_entry (name : string) (x : node) (es : list (string * node)) :
    list (string * node) :=
  match es with
  | [] => [(name, x)]
  | (n, y) :: es' =>
      if String.eqb n name then (n, x) :: es' else (n, y) :: set_entry name x es'
  end.

(** *** [datetime] *)

Record datetime := {
  year : nat; month : nat; day : nat;
  hour : nat; minute : nat; second : nat; microsecond : nat }.

Definition dec (n : nat) : string := NilEmpty.string_of_uint (Nat.to_uint n).

(** Two digits, zero padded. *)
Definition dec2 (n : nat) : string :=
  if (n <? 10)%nat then String "0" (dec n) else dec n.

(** [datetime.strftime(t, '%Y-%m-%d_%H+%M+%S')]. *)
Definition strftime (t : datetime) : string :=
  dec (year t) +:+ "-" +:+ dec2 (month t) +:+ "-" +:+ dec2 (day t) +:+ "_"
  +:+ dec2 (hour t) +:+ "+" +:+ dec2 (minute t) +:+ "+" +:+ dec2 (second t).

End Py.

Import Py.

(** ** The collaborators: configuration, session, clock, plugins *)

Module Env.

(** A course of the listing. Strategy B overwrites [save_as], so it holds a
    value. *)
Record course := {
  course_id : string;
  save_as : value;
  semester : string;
  semester_id : string;
  sync_only : value }.

Definition set_save_as (c : course) (v : value) : course :=
  {| course_id := course_id c; save_as := v; semester := semester c;
     semester_id := semester_id c; sync_only := sync_only c |}.

(** What the engine reads of [CONFIG]; the last-sync time stamp is part of
    the state. *)
Record config := {
  files_destination : option string;
  media_destination : option string;
  ignore_courses : list string;
  config_semester : option string;
  use_new_file_structure : bool }.

(** [if self.files_destination_dir:] holds for a non-empty string. *)
Definition configured (d : option string) : bool :=
  match d with
  | Some p => negb (String.eqb p EmptyString)
  | None => false
  end.

Definition dir_of (d : option string) : string := default EmptyString d.

(** One reading of the clock: local time and [time.time()]. *)
Record instant := { local : datetime; epoch : Z }.

(** The remote session, as the engine calls it. A download gives the bytes
    the session writes at the target. *)
Record session := {
  login : result unit;
  get_semester_id : string -> option string;
  get_courses : bool -> result (list course);
  check_course_new_files : string -> Z -> result bool;
  get_files_index :
    string -> value ->
    result (list (gmap string value) * list (gmap string value));
  get_files_index_from_api :
    string -> value ->
    result (list (gmap string value) * list (gmap string value));
  download_file : value -> result string;
  download_file_api : value -> result string;
  download : string -> string -> value -> result string;
  download_media : string -> string -> value -> result unit }.

(** Everything outside the two source files. *)
Record env := {
  CONFIG : config;
  the_session : session;
  clock : nat -> instant;
  workdir : string;
  (** [unicodedata.normalize('NFKC', _)] *)
  nfkc : string -> string;
  (** [re.match] with a pattern of the ignore list: [None] when the pattern
      does not compile. *)
  re_match : string -> option (string -> bool);
  (** [zipfile.ZipFile(a)] opens: [a] is an archive. *)
  is_zipfile : string -> bool;
  (** [archive.extractall(d)]: what the directory [d] holds afterwards
      ([None]: there is no such directory), from what it held. *)
  extractall :
    string -> option (list (string * node)) ->
    result (option (list (string * node)));
  (** [fnmatch.fnmatch(name, pattern)] *)
  fnmatch : string -> string -> bool }.

Inductive event :=
| EvRename (src dst : string)
| EvMakedirs (path : string)
| EvCopyfile (src dst : string)
| EvDownload (target : string)
| EvHook (name : string) (args : list value)
| EvSetSemester (selector : option string)
| EvUpdateLastSync (t : Z)
| EvSubprocess (argv : list string).

(** The state a run reads and writes. [fs] holds the regular files of the
    local disk, each under the path text it was written with; a directory
    is there when a file is written into it, and is not an entry. *)
Record world := {
  fs : gmap string file;
  staging : list (string * node);
  last_sync : Z;
  ticks : nat;
  events : list event }.

Definition set_fs (w : world) (fs' : gmap string file) : world :=
  {| fs := fs'; staging := staging w; last_sync := last_sync w;
     ticks := ticks w; events := events w |}.

Definition set_staging (w : world) (st : list (string * node)) : world :=
  {| fs := fs w; staging := st; last_sync := last_sync w;
     ticks := ticks w; events := events w |}.

Definition emit (e : event) (w : world) : world :=
  {| fs := fs w; staging := staging w; last_sync := last_sync w;
     ticks := ticks w; events := events w ++ [e] |}.

Definition tick (w : world) : world :=
  {| fs := fs w; staging := staging w; last_sync := last_sync w;
     ticks := S (ticks w); events := events w |}.

(** Modelled from the spec: [CONFIG.update_last_sync(t)] of [config.py],
    which is not among the sources. The persisted last-sync time stamp
    becomes [t]. *)
Definition update_last_sync (t : Z) (w : world) : world :=
  emit (EvUpdateLastSync t)
    {| fs := fs w; staging := staging w; last_sync := t;
       ticks := ticks w; events := events w |}.

(** Statements of the engine: a result and the state left behind, also
    when they raise. *)
Definition M (A : Type) : Type := world -> result A * world.

Definition ret {A} (a : A) : M A := fun w => (Ok a, w).

Definition raise {A} (e : exn) : M A := fun w => (Raise e, w).

Definition mbind {A B} (m : M A) (k : A -> M B) : M B :=
  fun w =>
    match m w with
    | (Ok a, w') => k a w'
    | (Raise e, w') => (Raise e, w')
    end.

Notation "'do' x <- m ; k" := (mbind m (fun x => k))
  (at level 10, x pattern, m at level 100, k at level 200).

(** A pure call that may raise. *)
Definition lift {A} (r : result A) : M A := fun w => (r, w).

Definition modify (f : world -> world) : M unit := fun w => (Ok tt, f w).

(** [datetime.now()] and [time.time()]: the clock is read and moves on. *)
Definition now (E : env) : M instant :=
  fun w => (Ok (clock E (ticks w)), tick w).

Definition get_fs : M (gmap string file) := fun w => (Ok (fs w), w).

(** [for x in l: f(x)]: the first exception ends the loop. *)
Fixpoint for_each {A} (l : list A) (f : A -> M unit) : M unit :=
  match l with
  | [] => ret tt
  | x :: l' => do _ <- f x; for_each l' f
  end.

Definition os_rename (src dst : string) : M unit :=
  fun w =>
    match rename (fs w) src dst with
    | Ok fs' => (Ok tt, emit (EvRename src dst) (set_fs w fs'))
    | Raise e => (Raise e, w)
    end.

(** [os.makedirs(p, exist_ok=True)]: the store holds regular files only, so
    this leaves it as it is. The call is taken to find no regular file in
    its way; a path whose last component is empty, a dot or two dots names
    the directory made here, not a file, and is outside what the store
    describes. *)
Definition os_makedirs (p : string) : M unit := modify (emit (EvMakedirs p)).

Definition shutil_copyfile (E : env) (src dst : string) : M unit :=
  fun w =>
    match copyfile (fs w) src dst (epoch (clock E (ticks w))) with
    | Ok fs' => (Ok tt, emit (EvCopyfile src dst) (tick (set_fs w fs')))
    | Raise e => (Raise e, w)
    end.

(** The session writes what it downloaded at [target]. *)
Definition write_download (E : env) (target : string) (content : string) :
    M unit :=
  fun w =>
    (Ok tt,
     emit (EvDownload target)
       (tick (set_fs w (<[target := {| data := content;
                                        mtime := epoch (clock E (ticks w)) |}]>
                          (fs w))))).

Definition plugins_hook (name : string) (args : list value) : M unit :=
  modify (emit (EvHook name args)).

Definition set_semester (selector : option string) : M unit :=
  modify (emit (EvSetSemester selector)).

Definition known_selectors : list string :=
  ["all"; "current"; "last"; "future"; "lastandnext"; "lastandbefore"].

(** The semester block of both [sync] methods; [false] stands for
    [return 1]. *)
Definition select_semester (E : env) : M bool :=
  match config_semester (CONFIG E) with
  | Some sem =>
      if bool_decide (sem ∈ known_selectors) then
        do _ <- set_semester (Some sem); ret true
      else
        match get_semester_id (the_session E) sem with
        | None => ret false
        | Some _ => do _ <- set_semester None; ret true
        end
  | None =>
      if use_new_file_structure (CONFIG E) then
        do _ <- set_semester (Some "all"); ret true
      else ret true
  end.

(** [any(re.match(ignore.replace('*', '.*'), save_as) for ignore in ...)]. *)
Fixpoint any_match (E : env) (ignores : list string) (v : value) :
    result bool :=
  match ignores with
  | [] => Ok false
  | ignore :: rest =>
      match re_match E (replace "*" ".*" ignore) with
      | None => Raise ReError
      | Some matches =>
          match v with
          | VStr s => if matches s then Ok true else any_match E rest v
          | _ => Raise TypeError
          end
      end
  end.

(** The test of the ignore list at the head of the course loop. *)
Definition ignored (E : env) (c : course) : result bool :=
  if bool_decide (course_id c ∈ ignore_courses (CONFIG E)) then Ok true
  else any_match E (ignore_courses (CONFIG E)) (save_as c).

End Env.

Import Env.

(** ** Strategy A: [studip_rsync.py] *)

Module studip_rsync.

Definition quote_char : ascii := ascii_of_nat 34.

(** The class of the substitution: backslash, colon, star, question mark,
    double quote, angle brackets and bar. *)
Definition disallowed (c : ascii) : bool :=
  mem_char c "\:*?<>|" || Ascii.eqb c quote_char.

Definition clean_name (name : string) : string :=
  strip (sub_class disallowed (replace "/" "--" name)).

(** The classes of the course-name pattern. *)
Definition upper (c : ascii) : bool := in_range 65 90 c.
Definition a_umlaut : ascii := ascii_of_nat 196.
Definition o_umlaut : ascii := ascii_of_nat 214.
Definition u_umlaut : ascii := ascii_of_nat 220.
Definition type_letter (c : ascii) : bool :=
  upper c || Ascii.eqb c a_umlaut || Ascii.eqb c o_umlaut
  || Ascii.eqb c u_umlaut.
Definition lower (c : ascii) : bool :=
  in_range 97 122 c || (code c =? 228)%nat || (code c =? 246)%nat
  || (code c =? 252)%nat || (code c =? 223)%nat.
Definition blank (c : ascii) : bool := Ascii.eqb c " ".
Definition non_space (c : ascii) : bool := negb (isspace c).
Definition non_digit (c : ascii) : bool := negb (isdecimal c).
Definition dot (c : ascii) : bool := negb (code c =? 10)%nat.

(** The pattern: number, white space, type letter and the rest of its
    word, white space, one or two capitalised name tokens, anything but
    digits, an optional digit, the rest of the line. *)
Definition pattern : re.regex :=
  re.Seq (re.Group 1 (re.Plus isdecimal))
 (re.Seq (re.Class isspace)
 (re.Seq (re.Group 2 (re.Class type_letter))
 (re.Seq (re.Star non_space)
 (re.Seq (re.Class isspace)
 (re.Seq (re.Group 3 (re.Rep12 (re.Group 4
            (re.Seq (re.Plus upper) (re.Seq (re.Star lower) (re.Opt blank))))))
 (re.Seq (re.Star non_digit)
 (re.Seq (re.Group 5 (re.Opt isdecimal))
         (re.Star dot)))))))).

(** The f-string of the match: groups 1, 2, 3 and 5. *)
Definition compact (m : re.captures) : string :=
  strip (re.fmt (re.group m 1) +:+ " " +:+ re.fmt (re.group m 2) +:+ " "
         +:+ re.fmt (re.group m 3) +:+ re.fmt (re.group m 5)).

Definition short_course_name (name : string) : string :=
  match re.match_ pattern (clean_name name) with
  | Some m => compact m
  | None => clean_name name
  end.

(** [log(...format(form_data["name"]))]: all that matters is that the name
    is looked up. *)
Definition log_name (form_data : gmap string value) : result unit :=
  bind (getitem form_data "name") (fun _ => Ok tt).

(** [all(c in string.hexdigits for c in form_id)]. *)
Definition all_hexdigits (form_id : value) : result bool :=
  match form_id with
  | VStr s => Ok (all_chars (fun c => mem_char c hexdigits) s)
  | _ => Raise TypeError
  end.

(** [k in d and d[k] == s]. *)
Definition key_is (d : gmap string value) (k s : string) : bool :=
  match d !! k with
  | Some v => py_eq v (VStr s)
  | None => false
  end.

(** The test for links and entries without a size. *)
Definition unsupported (form_data : gmap string value) : bool :=
  negb (contains form_data "size")
  || bool_decide (form_data !! "size" = Some VNone)
  || key_is form_data "storage" "url"
  || key_is form_data "icon" "link-extern".

(** The API marks the entry as not downloadable. *)
Definition not_downloadable (form_data : gmap string value) : bool :=
  match form_data !! "is_downloadable" with
  | Some v => negb (truthy v)
  | None => false
  end.

(** [clean_name(unicodedata.normalize(MODE, form_data["name"]))]. *)
Definition clean_form_name (nfkc : string -> string)
    (form_data : gmap string value) : result value :=
  bind (getitem form_data "name") (fun name =>
    match name with
    | VStr s => Ok (VStr (clean_name (nfkc s)))
    | _ => Raise TypeError
    end).

(** The body of the first loop, inside its [try]: [None] for [continue]. *)
Definition cleanup_file (nfkc : string -> string) (use_api : bool)
    (form_data : gmap string value) : result (option (gmap string value)) :=
  if negb (contains form_data "id") then
    bind (log_name form_data) (fun _ => Ok None)
  else
    bind (getitem form_data "id") (fun form_id =>
    bind (all_hexdigits form_id) (fun hex =>
    if negb hex then Raise (ParserError "id is not hexadecimal")
    else if unsupported form_data then
      bind (log_name form_data) (fun _ => Ok None)
    else if use_api && not_downloadable form_data then
      bind (log_name form_data) (fun _ => Ok None)
    else
      bind (clean_form_name nfkc form_data) (fun name =>
      bind (bind (getitem form_data "size") int) (fun size =>
      bind (bind (getitem form_data "chdate") int) (fun chdate =>
      let new_file_data : gmap string value :=
        <["chdate" := VInt chdate]> (<["size" := VInt size]>
          (<["id" := form_id]> (<["name" := name]> ∅))) in
      if negb use_api then
        bind (getitem form_data "download_url") (fun url =>
          Ok (Some (<["download_url" := url]> new_file_data)))
      else Ok (Some new_file_data)))))).

(** The body of the second loop, inside its [try]. *)
Definition cleanup_folder (nfkc : string -> string)
    (form_data : gmap string value) : result (option (gmap string value)) :=
  if negb (contains form_data "id") then Ok None
  else
    bind (getitem form_data "id") (fun form_id =>
    bind (all_hexdigits form_id) (fun hex =>
    if negb hex then Raise ValueError
    else
      bind (clean_form_name nfkc form_data) (fun name =>
        Ok (Some (<["id" := form_id]> (<["name" := name]> ∅)))))).

(** [except Exception as e: raise ParserError(...)]. *)
Definition reraise_as {A} (msg : string) (r : result A) : result A :=
  match r with
  | Ok a => Ok a
  | Raise _ => Raise (ParserError msg)
  end.

Fixpoint cleanup_loop (msg : string)
    (body : gmap string value -> result (option (gmap string value)))
    (entries : list (gmap string value)) : result (list (gmap string value)) :=
  match entries with
  | [] => Ok []
  | form_data :: rest =>
      bind (reraise_as msg (body form_data)) (fun kept =>
      bind (cleanup_loop msg body rest) (fun new =>
        Ok (match kept with Some d => d :: new | None => new end)))
  end.

Definition check_and_cleanup_form_data (nfkc : string -> string)
    (form_data_files form_data_folders : list (gmap string value))
    (use_api : bool) :
    result (list (gmap string value) * list (gmap string value)) :=
  bind (cleanup_loop "File attributes are invalid"
          (cleanup_file nfkc use_api) form_data_files)
    (fun form_data_files_new =>
  bind (cleanup_loop "Folder attributes are invalid"
          (cleanup_folder nfkc) form_data_folders)
    (fun form_data_folders_new =>
  Ok (form_data_files_new, form_data_folders_new))).

Definition is_file_new (fs : gmap string file) (file : gmap string value)
    (file_path : string) : result bool :=
  bind (getitem file "size") (fun size =>
  if negb (truthy size) then Ok false
  else
    match fs !! file_path with
    | None => Ok true
    | Some local_file =>
        let file_time := mtime local_file in
        bind (getitem file "chdate") (fun chdate =>
        bind (py_gt chdate (VInt file_time)) (fun newer =>
        if newer then Ok true
        else
          let file_size := getsize local_file in
          bind (getitem file "size") (fun size =>
          if negb (py_eq size (VInt file_size)) then Ok true
          else Ok false)))
    end).

Definition get_course_save_as (cfg : config) (c : course) : result string :=
  match save_as c with
  | VStr title =>
      if use_new_file_structure cfg then
        let save_as_semester :=
          semester_id c +:+ " - " +:+ clean_name (semester c) in
        Ok (path_join save_as_semester (short_course_name title))
      else Ok (short_course_name title)
  | _ => Raise AttributeError
  end.

Record CourseRSync := {
  self_course_id : string;
  self_course_save_as : value;
  self_root_folder : string;
  self_sync_fully : bool;
  self_use_api : bool }.

Definition course_has_new_files (E : env) (self : CourseRSync) (w : world) :
    result bool :=
  if self_sync_fully self then Ok true
  else check_course_new_files (the_session E) (self_course_id self)
         (last_sync w).

(** The suffix of a file moved aside at [t]. *)
Definition old_suffix (t : datetime) : string :=
  "_" +:+ strftime t +:+ ".old".

(** Lines 325 to 338 of [download_recursive]: what stands at [file_path] is
    moved aside, then the download is copied there. *)
Definition place (E : env) (target_file file_path : string) : M unit :=
  let (file_path_base, file_path_name) := path_split file_path in
  do fs0 <- get_fs;
  do _ <- (if path_exists fs0 file_path then
             do t <- now E;
             let suffix := old_suffix (local t) in
             let new_file_path :=
               path_join file_path_base (file_path_name +:+ suffix) in
             os_rename file_path new_file_path
           else os_makedirs file_path_base);
  do fs1 <- get_fs;
  if path_exists fs1 file_path then
    raise (DownloadError "File exists already, even after moving it away")
  else shutil_copyfile E target_file file_path.

(** The body of the loop over the files of a folder. *)
Definition sync_file (E : env) (self : CourseRSync)
    (folder_path_relative : string) (file_data : gmap string value) : M unit :=
  do url <- lift (getitem file_data "download_url");
  if bool_decide (url = VNone) then lift (log_name file_data)
  else
    let folder_absolute :=
      path_join (self_root_folder self) folder_path_relative in
    do name <- lift (getitem file_data "name");
    do file_path <- lift (path_join_value folder_absolute name);
    do fs0 <- get_fs;
    do new <- lift (is_file_new fs0 file_data file_path);
    if new then
      do id <- lift (getitem file_data "id");
      do target_file <- lift (path_join_value (workdir E) id);
      do content <- lift (if negb (self_use_api self)
                          then download_file (the_session E) url
                          else download_file_api (the_session E) id);
      do _ <- write_download E target_file content;
      do file_size <- lift (bind (getitem file_data "size") int);
      do fs1 <- get_fs;
      match fs1 !! target_file with
      | None => raise OSError
      | Some downloaded =>
          if negb (getsize downloaded =? file_size) then
            raise (DownloadError "File size didn't match expected file size")
          else
            do _ <- place E target_file file_path;
            plugins_hook "hook_file_download_successful"
              [name; self_course_save_as self; VStr file_path]
      end
    else ret tt.

(** [depth] bounds the nesting of calls, as the interpreter does. *)
Fixpoint download_recursive (E : env) (self : CourseRSync) (depth : nat)
    (folder_id : value) (folder_path_relative : string) : M unit :=
  match depth with
  | O => raise RecursionError
  | S depth' =>
      fun w =>
        match (if self_use_api self
               then get_files_index_from_api (the_session E)
                      (self_course_id self) folder_id
               else get_files_index (the_session E)
                      (self_course_id self) folder_id) with
        | Raise MissingPermissionFolderError => (Ok tt, w)
        | Raise e => (Raise e, w)
        | Ok (form_data_files, form_data_folders) =>
            (do cleaned <- lift (check_and_cleanup_form_data (nfkc E)
                                   form_data_files form_data_folders
                                   (self_use_api self));
             do _ <- for_each (fst cleaned)
                       (sync_file E self folder_path_relative);
             for_each (snd cleaned) (fun folder_data =>
               do name <- lift (getitem folder_data "name");
               do new_folder_path_relative <-
                 lift (path_join_value folder_path_relative name);
               do id <- lift (getitem folder_data "id");
               download_recursive E self depth' id new_folder_path_relative)) w
        end
  end.

Definition download (E : env) (self : CourseRSync) (depth : nat) : M unit :=
  fun w =>
    match course_has_new_files E self w with
    | Raise e => (Raise e, w)
    | Ok true => download_recursive E self depth VNone EmptyString w
    | Ok false => (Ok tt, w)
    end.

(** The files block of the course loop. The handler of [DownloadError] sets
    the status and raises the error again. *)
Definition sync_files (E : env) (sync_fully use_api : bool) (depth : nat)
    (c : course) (course_save_as : string) (status_code : Z) : M Z :=
  fun w =>
    let files_root_dir :=
      path_join (dir_of (files_destination (CONFIG E))) course_save_as in
    let self := {| self_course_id := course_id c;
                   self_course_save_as := save_as c;
                   self_root_folder := files_root_dir;
                   self_sync_fully := sync_fully;
                   self_use_api := use_api |} in
    match download E self depth w with
    | (Ok _, w') => (Ok status_code, w')
    | (Raise MissingFeatureError, w') => (Ok status_code, w')
    | (Raise (DownloadError msg), w') => (Raise (DownloadError msg), w')
    | (Raise e, w') => (Raise e, w')
    end.

(** The media block of the course loop. *)
Definition sync_media (E : env) (c : course) (course_save_as : string)
    (status_code : Z) : M Z :=
  fun w =>
    let media_root_dir :=
      path_join (dir_of (media_destination (CONFIG E))) course_save_as in
    match download_media (the_session E) (course_id c) media_root_dir
            (save_as c) with
    | Ok _ => (Ok status_code, w)
    | Raise MissingFeatureError => (Ok status_code, w)
    | Raise MissingPermissionFolderError => (Ok status_code, w)
    | Raise (DownloadError msg) => (Raise (DownloadError msg), w)
    | Raise (ParserError msg) =>
        if negb (status_code =? 0) then (Raise (ParserError msg), w)
        else (Ok 2, w)
    | Raise e => (Raise e, w)
    end.

(** One turn of the course loop: the status after it. *)
Definition sync_course (E : env) (sync_fully use_api : bool) (depth : nat)
    (c : course) (status_code : Z) : M Z :=
  do skip <- lift (ignored E c);
  if skip then ret status_code
  else
    do course_save_as <- lift (get_course_save_as (CONFIG E) c);
    do status_code <-
      (if configured (files_destination (CONFIG E))
       then sync_files E sync_fully use_api depth c course_save_as status_code
       else ret status_code);
    if configured (media_destination (CONFIG E))
    then sync_media E c course_save_as status_code
    else ret status_code.

Fixpoint sync_courses (E : env) (sync_fully use_api : bool) (depth : nat)
    (courses : list course) (status_code : Z) : M Z :=
  match courses with
  | [] => ret status_code
  | c :: rest =>
      do status_code <- sync_course E sync_fully use_api depth c status_code;
      sync_courses E sync_fully use_api depth rest status_code
  end.

(** [StudIPRSync.sync]. *)
Definition sync (E : env) (sync_fully sync_recent use_api : bool)
    (depth : nat) : M Z :=
  do _ <- plugins_hook "hook_start" [];
  match login (the_session E) with
  | Raise LoginError => ret 1
  | Raise (ParserError _) => ret 1
  | Raise e => raise e
  | Ok _ =>
      do go_on <- select_semester E;
      if negb go_on then ret 1
      else
        match get_courses (the_session E) sync_recent with
        | Raise LoginError => ret 1
        | Raise (ParserError _) => ret 1
        | Raise e => raise e
        | Ok courses =>
            do status_code <-
              sync_courses E sync_fully use_api depth courses 0;
            do _ <- set_semester (Some "current");
            do _ <- (if configured (files_destination (CONFIG E))
                        && (status_code =? 0)
                     then do t <- now E; modify (update_last_sync (epoch t))
                     else ret tt);
            ret status_code
        end
  end.

End studip_rsync.

(** ** Strategy B: [studip_sync.py] *)

Module studip_sync.

Definition quote_char : ascii := ascii_of_nat 34.

Definition disallowed (c : ascii) : bool :=
  mem_char c "\:*?<>|" || Ascii.eqb c quote_char.

Definition clean_name (name : string) : string :=
  strip (sub_class disallowed (replace "/" "--" name)).

(** The classes of the course-name pattern. *)
Definition upper (c : ascii) : bool := in_range 65 90 c.
Definition a_umlaut : ascii := ascii_of_nat 196.
Definition o_umlaut : ascii := ascii_of_nat 214.
Definition u_umlaut : ascii := ascii_of_nat 220.
Definition type_letter (c : ascii) : bool :=
  upper c || Ascii.eqb c a_umlaut || Ascii.eqb c o_umlaut
  || Ascii.eqb c u_umlaut.
Definition lower (c : ascii) : bool :=
  in_range 97 122 c || (code c =? 228)%nat || (code c =? 246)%nat
  || (code c =? 252)%nat || (code c =? 223)%nat.
Definition blank (c : ascii) : bool := Ascii.eqb c " ".
Definition non_space (c : ascii) : bool := negb (isspace c).
Definition non_digit (c : ascii) : bool := negb (isdecimal c).
Definition dot (c : ascii) : bool := negb (code c =? 10)%nat.

(** The pattern: number, white space, type letter and the rest of its
    word, white space, one or two capitalised name tokens, anything but
    digits, an optional digit, the rest of the line. *)
Definition pattern : re.regex :=
  re.Seq (re.Group 1 (re.Plus isdecimal))
 (re.Seq (re.Class isspace)
 (re.Seq (re.Group 2 (re.Class type_letter))
 (re.Seq (re.Star non_space)
 (re.Seq (re.Class isspace)
 (re.Seq (re.Group 3 (re.Rep12 (re.Group 4
            (re.Seq (re.Plus upper) (re.Seq (re.Star lower) (re.Opt blank))))))
 (re.Seq (re.Star non_digit)
 (re.Seq (re.Group 5 (re.Opt isdecimal))
         (re.Star dot)))))))).

(** The f-string of the match: groups 1, 2, 3 and 5. *)
Definition compact (m : re.captures) : string :=
  strip (re.fmt (re.group m 1) +:+ " " +:+ re.fmt (re.group m 2) +:+ " "
         +:+ re.fmt (re.group m 3) +:+ re.fmt (re.group m 5)).

(** No match gives [False], not a name. *)
Definition short_course_name (name : string) : value :=
  match re.match_ pattern (clean_name name) with
  | Some m => VStr (compact m)
  | None => VBool false
  end.

Record RsyncWrapper := { suffix : string }.

(** [RsyncWrapper.__init__]: the suffix is fixed when the run starts. *)
Definition RsyncWrapper_init (E : env) : M RsyncWrapper :=
  do t <- now E;
  ret {| suffix := "_" +:+ strftime (local t) +:+ ".old" |}.

(** [RsyncWrapper.sync]: the mirror pass is the [rsync] program. *)
Definition rsync_argv (self : RsyncWrapper) (source destination : string) :
    list string :=
  ["rsync"; "--recursive"; "--checksum"; "--backup"; "-v";
   "--suffix=" +:+ suffix self; source; destination].

Definition RsyncWrapper_sync (self : RsyncWrapper)
    (source destination : string) : M unit :=
  modify (emit (EvSubprocess (rsync_argv self source destination))).

(** *** [Extractor]

    A directory is the list of its entries, in the order [os.listdir] gives
    them. *)

Definition hidden (name : string) : bool :=
  bool_decide (first_char name = Some "."%char).

(** [glob.has_magic]. *)
Definition has_magic (p : string) : bool :=
  negb (all_chars (fun c => negb (mem_char c "*?[")) p).

(** [glob.iglob(os.path.join(intermediary, '*'))], for an extraction
    directory whose own path has no magic character: the entries of the
    wrapper that are not hidden, if the wrapper's name matches itself as a
    pattern. *)
Definition glob_children (E : env) (wrapper : string)
    (children : list (string * node)) : list string :=
  if has_magic wrapper && negb (fnmatch E wrapper wrapper) then []
  else filter (fun n => negb (hidden n)) (map fst children).

(** The loop of [shutil.move(filename, extracted_dir)]. *)
Fixpoint move_up (names : list string) (wrapper : string)
    (es : list (string * node)) : result unit * list (string * node) :=
  match names with
  | [] => (Ok tt, es)
  | n :: rest =>
      match lookup_entry wrapper es with
      | Some (Dir children) =>
          match lookup_entry n children with
          | Some x =>
              if bool_decide (is_Some (lookup_entry n es)) then
                (Raise ShutilError, es)
              else
                move_up rest wrapper
                  (set_entry wrapper (Dir (remove_entry n children)) es
                   ++ [(n, x)])
          | None => (Raise OSError, es)
          end
      | _ => (Raise OSError, es)
      end
  end.

(** [os.rmdir]. *)
Definition rmdir (name : string) (es : list (string * node)) :
    result unit * list (string * node) :=
  match lookup_entry name es with
  | Some (Dir []) => (Ok tt, remove_entry name es)
  | _ => (Raise OSError, es)
  end.

Definition remove_intermediary_dir (E : env) (es : list (string * node)) :
    result unit * list (string * node) :=
  let subdirs := filter (fun e => is_dir (snd e)) es in
  match subdirs with
  | [(wrapper, Dir children)] =>
      match move_up (glob_children E wrapper children) wrapper es with
      | (Ok _, es') => rmdir wrapper es'
      | (Raise e, es') => (Raise e, es')
      end
  | _ => (Ok tt, es)
  end.

(** [os.walk] from the top: a directory is removed if it is empty when the
    walk reaches it; [None] when the directory itself went. *)
Fixpoint walk_rmdir (n : node) : option node :=
  match n with
  | File c => Some (File c)
  | Dir [] => None
  | Dir es =>
      Some (Dir ((fix go (es : list (string * node)) :=
                    match es with
                    | [] => []
                    | (name, x) :: es' =>
                        match walk_rmdir x with
                        | Some x' => (name, x') :: go es'
                        | None => go es'
                        end
                    end) es))
  end.

Definition remove_empty_dirs (es : list (string * node)) :
    option (list (string * node)) :=
  match walk_rmdir (Dir es) with
  | Some (Dir es') => Some es'
  | _ => None
  end.

Definition filelist : string := "archive_filelist.csv".

Definition remove_filelist (es : list (string * node)) :
    list (string * node) :=
  match lookup_entry filelist es with
  | Some (File _) => remove_entry filelist es
  | _ => es
  end.

(** The three steps after [extractall], on the entries of the destination:
    the outcome and what the destination holds ([None]: it is gone). *)
Definition cleanup_extracted (E : env) (es : list (string * node)) :
    result unit * option (list (string * node)) :=
  match remove_intermediary_dir E (remove_filelist es) with
  | (Ok _, es') => (Ok tt, remove_empty_dirs es')
  | (Raise e, es') => (Raise e, Some es')
  end.

Definition entries_of (n : option node) : option (list (string * node)) :=
  match n with
  | Some (Dir es) => Some es
  | _ => None
  end.

Definition put_dir (name : string) (es : option (list (string * node)))
    (st : list (string * node)) : list (string * node) :=
  match es with
  | Some es => set_entry name (Dir es) st
  | None => remove_entry name st
  end.

(** [except zipfile.BadZipFile: raise ExtractionError(...)] around a
    statement: the handler of [Extractor.extract], which encloses the whole
    [with] block. *)
Definition bad_zip_file_handler {A} (m : M A) : M A :=
  fun w =>
    match m w with
    | (Raise BadZipFile, w') =>
        (Raise (ExtractionError "Cannot extract file"), w')
    | (r, w') => (r, w')
    end.

(** [Extractor.extract]; [basedir] is the staging root, whose entries the
    state holds, so a destination is the entry of that name. Opening what
    is no archive raises [BadZipFile], as [extractall] may; the handler
    turns both into an [ExtractionError]. *)
Definition extract (E : env) (basedir : string) (archive_filename : string)
    (destination : value) (cleanup : bool) : M string :=
  bad_zip_file_handler
    (if negb (is_zipfile E archive_filename) then raise BadZipFile
     else
       do path <- lift (path_join_value basedir destination);
       match destination with
       | VStr name =>
           fun w =>
             match extractall E archive_filename
                     (entries_of (lookup_entry name (staging w))) with
             | Raise e => (Raise e, w)
             | Ok extracted =>
                 if cleanup then
                   match extracted with
                   | None =>
                       (Raise OSError,
                        set_staging w (put_dir name None (staging w)))
                   | Some es =>
                       match cleanup_extracted E es with
                       | (Ok _, es') =>
                           (Ok path,
                            set_staging w (put_dir name es' (staging w)))
                       | (Raise e, es') =>
                           (Raise e,
                            set_staging w (put_dir name es' (staging w)))
                       end
                   end
                 else
                   (Ok path,
                    set_staging w (put_dir name extracted (staging w)))
             end
       | _ => raise TypeError
       end).

(** [course["save_as"] = short_course_name(course["save_as"])]. *)
Definition shorten (c : course) : result course :=
  match save_as c with
  | VStr title => Ok (set_save_as c (short_course_name title))
  | _ => Raise AttributeError
  end.

(** The files block of the course loop. *)
Definition sync_files (E : env) (sync_fully : bool) (c : course)
    (status_code : Z) : M Z :=
  fun w =>
    let download_dir := path_join (workdir E) "zips" in
    let extract_dir := path_join (workdir E) "extracted" in
    let body : M unit :=
      do changed <- (if sync_fully then ret true
                     else lift (check_course_new_files (the_session E)
                                  (course_id c) (last_sync w)));
      if changed then
        do zip_location <- lift (download (the_session E) (course_id c)
                                   download_dir (sync_only c));
        do _ <- extract E extract_dir zip_location (save_as c) true;
        ret tt
      else ret tt in
    match body w with
    | (Ok _, w') => (Ok status_code, w')
    | (Raise MissingFeatureError, w') => (Ok status_code, w')
    | (Raise (DownloadError _), w') => (Ok 2, w')
    | (Raise (ExtractionError _), w') => (Ok 2, w')
    | (Raise e, w') => (Raise e, w')
    end.

(** The media block of the course loop. *)
Definition sync_media (E : env) (c : course) (status_code : Z) : M Z :=
  fun w =>
    match path_join_value (dir_of (media_destination (CONFIG E))) (save_as c)
    with
    | Raise e => (Raise e, w)
    | Ok media_course_dir =>
        match download_media (the_session E) (course_id c) media_course_dir
                (save_as c) with
        | Ok _ => (Ok status_code, w)
        | Raise MissingFeatureError => (Ok status_code, w)
        | Raise MissingPermissionFolderError => (Ok status_code, w)
        | Raise (DownloadError _) => (Ok 2, w)
        | Raise (ParserError msg) =>
            if negb (status_code =? 0) then (Raise (ParserError msg), w)
            else (Ok 2, w)
        | Raise e => (Raise e, w)
        end
    end.

(** One turn of the course loop: the status after it. *)
Definition sync_course (E : env) (sync_fully : bool) (c : course)
    (status_code : Z) : M Z :=
  do c <- lift (shorten c);
  do skip <- lift (ignored E c);
  if skip then ret status_code
  else
    do status_code <-
      (if configured (files_destination (CONFIG E))
       then sync_files E sync_fully c status_code
       else ret status_code);
    if configured (media_destination (CONFIG E))
    then sync_media E c status_code
    else ret status_code.

Fixpoint sync_courses (E : env) (sync_fully : bool) (courses : list course)
    (status_code : Z) : M Z :=
  match courses with
  | [] => ret status_code
  | c :: rest =>
      do status_code <- sync_course E sync_fully c status_code;
      sync_courses E sync_fully rest status_code
  end.

(** [StudipSync.sync]. *)
Definition sync (E : env) (sync_fully sync_recent : bool) : M Z :=
  do _ <- plugins_hook "hook_start" [];
  do rsync <- RsyncWrapper_init E;
  match login (the_session E) with
  | Raise LoginError => ret 1
  | Raise (ParserError _) => ret 1
  | Raise e => raise e
  | Ok _ =>
      do go_on <- select_semester E;
      if negb go_on then ret 1
      else
        match get_courses (the_session E) sync_recent with
        | Raise LoginError => ret 1
        | Raise (ParserError _) => ret 1
        | Raise e => raise e
        | Ok courses =>
            do status_code <- sync_courses E sync_fully courses 0;
            do _ <- set_semester (Some "current");
            do _ <- (if configured (files_destination (CONFIG E)) then
                       do _ <- RsyncWrapper_sync rsync
                                 (path_join (workdir E) "extracted" +:+ "/")
                                 (dir_of (files_destination (CONFIG E)));
                       if status_code =? 0
                       then do t <- now E; modify (update_last_sync (epoch t))
                       else ret tt
                     else ret tt);
            ret status_code
        end
  end.

End studip_sync.

(** ** The sanitiser on code points *)

(** [clean_name] once more, on a [str] as the interpreter has it: a
    sequence of code points, of any plane. The embedding above is its
    restriction to U+0000..U+00FF. *)

Module Unicode.

Definition str := list N.

Definition in_range (lo hi c : N) : bool := ((lo <=? c) && (c <=? hi))%N.

(** [str.isspace] on one character, the set [str.strip] removes:
    U+0009..000D, U+001C..0020, U+0085, U+00A0, U+1680, U+2000..200A,
    U+2028, U+2029, U+202F, U+205F, U+3000. *)
Definition isspace (c : N) : bool :=
  in_range 9 13 c || in_range 28 32 c || (c =? 133)%N || (c =? 160)%N
  || (c =? 5760)%N || in_range 8192 8202 c || (c =? 8232)%N
  || (c =? 8233)%N || (c =? 8239)%N || (c =? 8287)%N || (c =? 12288)%N.

(** [s.replace(old, new)] for a one-character [old]. *)
Fixpoint replace (old : N) (new : str) (s : str) : str :=
  match s with
  | [] => []
  | c :: s' =>
      if (c =? old)%N then new ++ replace old new s'
      else c :: replace old new s'
  end.

(** [re.sub('[...]', '', s)]. *)
Fixpoint sub_class (cls : N -> bool) (s : str) : str :=
  match s with
  | [] => []
  | c :: s' => if cls c then sub_class cls s' else c :: sub_class cls s'
  end.

Fixpoint lstrip_by (p : N -> bool) (s : str) : str :=
  match s with
  | [] => []
  | c :: s' => if p c then lstrip_by p s' else s
  end.

Fixpoint rstrip_by (p : N -> bool) (s : str) : str :=
  match s with
  | [] => []
  | c :: s' =>
      match rstrip_by p s' with
      | [] => if p c then [] else [c]
      | r => c :: r
      end
  end.

(** [s.strip()]. *)
Definition strip (s : str) : str := rstrip_by isspace (lstrip_by isspace s).

Definition slash : N := 47.
Definition dash : N := 45.

(** The class of the substitution: backslash, colon, star, question mark,
    double quote, less than, greater than, bar. *)
Definition disallowed (c : N) : bool :=
  bool_decide (c ∈ [92; 58; 42; 63; 34; 60; 62; 124]%N).

Definition clean_name (name : str) : str :=
  strip (sub_class disallowed (replace slash [dash; dash] name)).

(** The code points of a string of the embedding above. *)
Definition points (s : string) : str :=
  N_of_ascii <$> list_ascii_of_string s.

End Unicode.

(** ** A small remote, for the examples *)

Module Demo.

Definition noon : datetime :=
  {| year := 2024; month := 3; day := 9;
     hour := 12; minute := 0; second := 0; microsecond := 250 |}.

(** A clock that stands within one second. *)
Definition still_clock (n : nat) : instant :=
  {| local := noon; epoch := 1710000000 |}.

(** A clock that moves on one second with every reading. *)
Definition running_clock (n : nat) : instant :=
  {| local := {| year := 2024; month := 3; day := 9; hour := 12;
                 minute := 0; second := n; microsecond := 0 |};
     epoch := 1710000000 + Z.of_nat n |}.

Definition systems : course :=
  {| course_id := "c0ffee";
     save_as := VStr "101 V Introduction to Systems 2";
     semester := "WS 2024";
     semester_id := "s24";
     sync_only := VNone |}.

Definition algebra : course :=
  {| course_id := "decade";
     save_as := VStr "102 V Linear Algebra 1";
     semester := "WS 2024";
     semester_id := "s24";
     sync_only := VNone |}.

(** A title the course-name pattern does not match. *)
Definition colloquium : course :=
  {| course_id := "facade";
     save_as := VStr "Kolloquium";
     semester := "WS 2024";
     semester_id := "s24";
     sync_only := VNone |}.

(** A raw entry of a listing: a file of five bytes. *)
Definition slides : gmap string value :=
  <["download_url" := VStr "https://example.org/slides"]>
    (<["is_downloadable" := VBool true]> (<["chdate" := VInt 1700000000]>
       (<["size" := VInt 5]> (<["name" := VStr "slides.pdf"]>
          (<["id" := VStr "0a1f"]> ∅))))).

(** The listing of every course: one file in the root folder. *)
Definition listing (course_id : string) (folder_id : value) :
    result (list (gmap string value) * list (gmap string value)) :=
  if bool_decide (folder_id = VNone) then Ok ([slides], []) else Ok ([], []).

(** A session whose downloads give [bytes]. *)
Definition session_giving (courses : list course) (bytes : string) : session :=
  {| login := Ok tt;
     get_semester_id := fun _ => None;
     get_courses := fun _ => Ok courses;
     check_course_new_files := fun _ _ => Ok true;
     get_files_index := listing;
     get_files_index_from_api := listing;
     download_file := fun _ => Ok bytes;
     download_file_api := fun _ => Ok bytes;
     download := fun _ _ _ => Ok "work/zips/course.zip";
     download_media := fun _ _ _ => Ok tt |}.

Definition files_only : config :=
  {| files_destination := Some "dest";
     media_destination := None;
     ignore_courses := [];
     config_semester := None;
     use_new_file_structure := false |}.

(** What an archive unpacks to: the manifest and a wrapper directory. *)
Definition wrapped_archive : list (string * node) :=
  [("archive_filelist.csv", File "name;size");
   ("Course files", Dir [("notes.txt", File "notes");
                         ("week1", Dir [("slides.pdf", File "slides")])])].

(** The same with a directory that holds nothing but an empty directory. *)
Definition nested_empty_archive : list (string * node) :=
  [("archive_filelist.csv", File "name;size");
   ("Course files", Dir [("notes.txt", File "notes");
                         ("drafts", Dir [("old", Dir [])])])].

(** A session whose archive download fails for the first course. *)
Definition session_failing_first (courses : list course) : session :=
  {| login := Ok tt;
     get_semester_id := fun _ => None;
     get_courses := fun _ => Ok courses;
     check_course_new_files := fun _ _ => Ok true;
     get_files_index := listing;
     get_files_index_from_api := listing;
     download_file := fun _ => Ok "12345";
     download_file_api := fun _ => Ok "12345";
     download := fun course_id _ _ =>
       if String.eqb course_id "c0ffee"
       then Raise (DownloadError "connection reset")
       else Ok "work/zips/course.zip";
     download_media := fun _ _ _ => Ok tt |}.

(** A session that reports no new files. *)
Definition session_unchanged (courses : list course) : session :=
  {| login := Ok tt;
     get_semester_id := fun _ => None;
     get_courses := fun _ => Ok courses;
     check_course_new_files := fun _ _ => Ok false;
     get_files_index := listing;
     get_files_index_from_api := listing;
     download_file := fun _ => Ok "12345";
     download_file_api := fun _ => Ok "12345";
     download := fun _ _ _ => Ok "work/zips/course.zip";
     download_media := fun _ _ _ => Ok tt |}.

Definition env_with (cfg : config) (s : session) (ticking : nat -> instant) :
    env :=
  {| CONFIG := cfg;
     the_session := s;
     clock := ticking;
     workdir := "work";
     nfkc := fun s => s;
     re_match := fun _ => Some (fun _ => false);
     is_zipfile := fun _ => true;
     extractall := fun _ _ => Ok (Some wrapped_archive);
     fnmatch := fun _ _ => true |}.

Definition fresh : world :=
  {| fs := ∅; staging := []; last_sync := 1709000000; ticks := 0;
     events := [] |}.

(** A destination that holds a first version, and two downloads. *)
Definition with_first_version : world :=
  {| fs := <["dest/a.txt" := {| data := "first"; mtime := 1700000000 |}]>
             (<["work/0a1f" := {| data := "second"; mtime := 1710000000 |}]>
                (<["work/0b2e" := {| data := "third"; mtime := 1710000000 |}]>
                   ∅));
     staging := []; last_sync := 1709000000; ticks := 0; events := [] |}.

(** Strategy A over one course, a download of the advertised five bytes. *)
Definition one_course : env :=
  env_with files_only (session_giving [systems] "12345") running_clock.

(** Strategy A over two courses, every download three bytes too long. *)
Definition oversized : env :=
  env_with files_only (session_giving [systems; algebra] "12345678")
    running_clock.

(** Strategy B over two courses, the archive of the first one failing. *)
Definition first_fails : env :=
  env_with files_only (session_failing_first [systems; algebra])
    running_clock.

(** Strategy B, nothing new on the remote, no media destination: first a
    course whose title the pattern does not match. *)
Definition nothing_new : env :=
  env_with files_only (session_unchanged [colloquium; systems]) running_clock.

(** Strategy B with an ignore list. *)
Definition with_ignore_list : env :=
  env_with {| files_destination := Some "dest";
              media_destination := None;
              ignore_courses := ["Tutorium*"];
              config_semester := None;
              use_new_file_structure := false |}
    (session_unchanged [colloquium; systems]) running_clock.

(** An environment whose archives unpack to [archive]. *)
Definition unpacking (archive : list (string * node)) : env :=
  {| CONFIG := files_only;
     the_session := session_giving [systems] "12345";
     clock := running_clock;
     workdir := "work";
     nfkc := fun s => s;
     re_match := fun _ => Some (fun _ => false);
     is_zipfile := fun _ => true;
     extractall := fun _ _ => Ok (Some archive);
     fnmatch := fun _ _ => true |}.


(** No courses; the clock stands, or runs. *)
Definition standing : env :=
  env_with files_only (session_giving [] "second") still_clock.

Definition running : env :=
  env_with files_only (session_giving [] "second") running_clock.

(** Strategy A over one course, the clock standing. *)
Definition one_course_standing : env :=
  env_with files_only (session_giving [systems] "12345") still_clock.

(** Unpacking the archive with the nested empty directory. *)
Definition unpacking_nested : env := unpacking nested_empty_archive.

End Demo.

(** ** The vocabulary of the properties *)

(** A name as [clean_name] leaves it: no separator, no character of the
    substituted class, no white space at either end. *)
Definition safe_name (disallowed : ascii -> bool) (s : string) : Prop :=
  all_chars (fun c => negb (is_sep c)) s = true
  /\ all_chars (fun c => negb (disallowed c)) s = true
  /\ (forall c, first_char s = Some c -> isspace c = false)
  /\ (forall c, last_char s = Some c -> isspace c = false).

(** The characters the claim lists, by their codes: backslash, colon, star,
    question mark, double quote, less than, greater than, bar. *)
Definition reserved_codes : list nat :=
  [92; 58; 42; 63; 34; 60; 62; 124]%nat.

(** An entry of ten bytes, and a disk that holds a copy of that size. *)
Definition entry_10 : gmap string value :=
  <["chdate" := VInt 1700000000]> (<["size" := VInt 10]> ∅).

Definition disk_10 : gmap string file :=
  <["dest/a.pdf" := {| data := "0123456789"; mtime := 1700000000 |}]> ∅.

(** The identifier is a string of hexadecimal digits. *)
Definition hex_id (d : gmap string value) : Prop :=
  exists s, d !! "id" = Some (VStr s)
            /\ all_chars (fun c => mem_char c hexdigits) s = true.

(** An entry as the engine expects it. *)
Definition clean_entry (d : gmap string value) : Prop :=
  hex_id d
  /\ (exists n, d !! "size" = Some (VInt n))
  /\ (exists t, d !! "chdate" = Some (VInt t)).

(** An identifier is there and is no string of hexadecimal digits. *)
Definition bad_id (d : gmap string value) : Prop :=
  exists v, d !! "id" = Some v /\ studip_rsync.all_hexdigits v <> Ok true.

(** The size or the change time does not read as an integer. *)
Definition malformed (d : gmap string value) : Prop :=
  is_ok (bind (getitem d "size") int) = false
  \/ is_ok (bind (getitem d "chdate") int) = false.

(** The entries the file loop passes over. *)
Definition skippable (use_api : bool) (d : gmap string value) : Prop :=
  d !! "id" = None
  \/ (hex_id d
      /\ (studip_rsync.unsupported d = true
          \/ (use_api = true /\ studip_rsync.not_downloadable d = true))).

(** A link whose size does not read as an integer, and an entry marked as
    not downloadable in a listing that is not the API's. *)
Definition link_bad_size : gmap string value :=
  <["storage" := VStr "url"]> (<["size" := VStr "n/a"]>
    (<["chdate" := VInt 7]> (<["name" := VStr "link"]>
      (<["id" := VStr "0a1f"]> ∅)))).

Definition marked_entry : gmap string value :=
  <["is_downloadable" := VBool false]> (<["download_url" := VStr "u"]>
    (<["size" := VInt 3]> (<["chdate" := VInt 7]>
      (<["name" := VStr "a.pdf"]> (<["id" := VStr "0a1f"]> ∅))))).

(** A character that is no path separator. *)
Definition non_sep (c : ascii) : bool := negb (is_sep c).

(** Where [place] moves what it finds at [p], for a clock reading [t]. *)
Definition moved_aside (p : string) (t : datetime) : string :=
  let (base, name) := path_split p in
  path_join base (name +:+ studip_rsync.old_suffix t).

(** What a pattern of the fragment matches, with the groups it binds: the
    text [s] takes the captures [c0] to [c1]. *)
Fixpoint sem (r : re.regex) (s : string) (c0 c1 : re.captures) : Prop :=
  match r with
  | re.Class cls => c1 = c0 /\ exists c, s = String c EmptyString /\ cls c = true
  | re.Star cls => c1 = c0 /\ all_chars cls s = true
  | re.Plus cls =>
      c1 = c0 /\ exists c s', s = String c s' /\ cls c = true
                              /\ all_chars cls s' = true
  | re.Opt cls =>
      c1 = c0 /\ (s = EmptyString
                  \/ exists c, s = String c EmptyString /\ cls c = true)
  | re.Seq r1 r2 =>
      exists s1 s2 cm, s = s1 +:+ s2 /\ sem r1 s1 c0 cm /\ sem r2 s2 cm c1
  | re.Group n r1 => exists c', sem r1 s c0 c' /\ c1 = (n, s) :: c'
  | re.Rep12 r1 =>
      sem r1 s c0 c1
      \/ exists s1 s2 cm, s = s1 +:+ s2 /\ sem r1 s1 c0 cm /\ sem r1 s2 cm c1
  end.

(** A prefix of [s] is in the language of the pattern. *)
Definition matches (r : re.regex) (s : string) : Prop :=
  exists pre rest m, s = pre +:+ rest /\ sem r pre [] m.

(** A continuation whose success does not depend on the captures. *)
Definition blind {R} (k : string -> re.captures -> option R) : Prop :=
  forall s c c', is_Some (k s c) -> is_Some (k s c').

(** The matcher finds a match whenever the language has one. *)
Definition complete (R : Type) (r : re.regex) : Prop :=
  forall (s1 s2 : string) (caps c1 : re.captures)
         (k : string -> re.captures -> option R),
    blind k -> sem r s1 caps c1 -> is_Some (k s2 c1) ->
    is_Some (re.run r (s1 +:+ s2) caps k).

(** One or two capitalised name tokens, each with an optional blank. *)
Definition name_tokens : re.regex :=
  re.Rep12 (re.Group 4
    (re.Seq (re.Plus studip_rsync.upper)
       (re.Seq (re.Star studip_rsync.lower) (re.Opt studip_rsync.blank)))).

(** A call of [update_last_sync]. *)
Definition is_update (e : event) : bool :=
  match e with
  | EvUpdateLastSync _ => true
  | _ => false
  end.

(** The stored time stamp and the calls of [update_last_sync] so far. *)
Definition sync_record (w : world) : Z * list event :=
  (last_sync w, List.filter is_update (events w)).

(** A statement that leaves the record of the last sync alone, however it
    ends. *)
Definition keeps {A} (m : M A) : Prop :=
  forall w, sync_record (snd (m w)) = sync_record w.

(** The stored time stamp is the last reading of the clock, and one call of
    [update_last_sync] was added. *)
Definition advanced (E : env) (w w' : world) : Prop :=
  last_sync w' = epoch (clock E (Nat.pred (ticks w')))
  /\ List.filter is_update (events w')
     = List.filter is_update (events w) ++ [EvUpdateLastSync (last_sync w')].

(** The run ended with status zero and a files destination is configured. *)
Definition clean_run (E : env) (r : result Z) : bool :=
  match r with
  | Ok 0 => configured (files_destination (CONFIG E))
  | _ => false
  end.

(** The gate of the last-sync time stamp, for a run from [w] that ended as
    [out]. *)
Definition gated (E : env) (w : world) (out : result Z * world) : Prop :=
  if clean_run E (fst out) then advanced E w (snd out)
  else sync_record (snd out) = sync_record w.

(** What makes strategy B use the shortened name of a course as text: an
    ignore list whose first pattern compiles; or, with an empty ignore list,
    an archive that is fetched and opens; or, with an empty ignore list, a
    media destination, reached when the files block is not configured or
    ends in a status. *)
Definition uses_name (E : env) (sync_fully : bool) (c : course) (status : Z)
    (w : world) : Prop :=
  (exists ig igs,
     ignore_courses (CONFIG E) = ig :: igs
     /\ is_Some (re_match E (replace "*" ".*" ig)))
  \/ (ignore_courses (CONFIG E) = []
      /\ configured (files_destination (CONFIG E)) = true
      /\ (sync_fully = true
          \/ check_course_new_files (the_session E) (course_id c)
               (last_sync w) = Ok true)
      /\ exists zip,
           download (the_session E) (course_id c)
             (path_join (workdir E) "zips") (sync_only c) = Ok zip
           /\ is_zipfile E zip = true)
  \/ (ignore_courses (CONFIG E) = []
      /\ configured (media_destination (CONFIG E)) = true
      /\ (configured (files_destination (CONFIG E)) = false
          \/ is_ok (fst (studip_sync.sync_files E sync_fully
                           (set_save_as c (VBool false)) status w)) = true)).

(** Some directory of the tree, at any depth, is empty. *)
Fixpoint has_empty_dir (n : node) : bool :=
  match n with
  | File _ => false
  | Dir [] => true
  | Dir es =>
      (fix any (es : list (string * node)) : bool :=
         match es with
         | [] => false
         | (_, x) :: es' => has_empty_dir x || any es'
         end) es
  end.

(** The fields of a reading of the clock that reach the stamp fit in two
    digits. *)
Definition two_digit_fields (t : datetime) : Prop :=
  (month t < 100 /\ day t < 100 /\ hour t < 100 /\ minute t < 100
   /\ second t < 100)%nat.

(** Two readings in the same second. *)
Definition same_second (t1 t2 : datetime) : Prop :=
  year t1 = year t2 /\ month t1 = month t2 /\ day t1 = day t2
  /\ hour t1 = hour t2 /\ minute t1 = minute t2 /\ second t1 = second t2.

(** Numbers below [k] have different two-digit forms. *)
Definition dec2_distinct_below (k : nat) : bool :=
  forallb (fun n =>
    forallb (fun m => implb (String.eqb (dec2 n) (dec2 m)) (n =? m)%nat)
      (seq 0 k)) (seq 0 k).

(** ** The vocabulary of the further properties *)

(** *** Listings *)

(** The keys of a cleaned file entry. *)
Definition file_keys (use_api : bool) : gset string :=
  {["name"; "id"; "size"; "chdate"]}
  ∪ (if use_api then ∅ else {["download_url"]}).

(** The keys of a cleaned folder entry. *)
Definition folder_keys : gset string := {["name"; "id"]}.

(** The entry has a name that is safe as a path component. *)
Definition named_safely (d : gmap string value) : Prop :=
  exists s, d !! "name" = Some (VStr s)
            /\ safe_name studip_rsync.disallowed s.

(** What [is_file_new] answers for an entry of [n] bytes changed at [t]. *)
Definition stale (fs : gmap string file) (n t : Z) (p : string) : bool :=
  negb (n =? 0)
  && match fs !! p with
     | None => true
     | Some local_file =>
         (mtime local_file <? t) || negb (n =? getsize local_file)
     end.

(** The entry [Demo.slides] as the cleanup of an API listing leaves it. *)
Definition slides_cleaned : gmap string value :=
  <["chdate" := VInt 1700000000]> (<["size" := VInt 5]>
    (<["id" := VStr "0a1f"]> (<["name" := VStr "slides.pdf"]> ∅))).

Definition nameless : gmap string value :=
  <["size" := VInt 3]> ∅.

Definition bad_folder : gmap string value :=
  <["name" := VStr "week 1"]> (<["id" := VStr "xyz"]> ∅).

(** *** Course names *)

(** The characters a shortened course name is written in: digits, the
    letters of the pattern and the blank. *)
Definition plain_char (c : ascii) : bool :=
  isdecimal c || studip_rsync.type_letter c || studip_rsync.lower c
  || studip_rsync.blank c.

(** The name of the semester directory of the new file structure. *)
Definition semester_dir (c : course) : string :=
  semester_id c +:+ " - " +:+ studip_rsync.clean_name (semester c).

(** *** Placing a download *)

(** A character of [string.hexdigits]. *)
Definition hex_char (c : ascii) : bool := mem_char c hexdigits.

(** Where [sync_file] puts the file of an entry named [name]. *)
Definition file_path_of (self : studip_rsync.CourseRSync) (rel name : string) :
    string :=
  path_join (path_join (studip_rsync.self_root_folder self) rel) name.

(** The entry [Demo.slides] as the cleanup of a scraped listing leaves it. *)
Definition slides_scraped : gmap string value :=
  <["download_url" := VStr "https://example.org/slides"]>
    (<["chdate" := VInt 1700000000]> (<["size" := VInt 5]>
       (<["id" := VStr "0a1f"]> (<["name" := VStr "slides.pdf"]> ∅)))).

(** The walk of the course [Demo.systems] into the directory [dest]. *)
Definition systems_walk : studip_rsync.CourseRSync :=
  {| studip_rsync.self_course_id := "c0ffee";
     studip_rsync.self_course_save_as := VStr "101 V Introduction to Systems 2";
     studip_rsync.self_root_folder := "dest/101 V Introduction 2";
     studip_rsync.self_sync_fully := true;
     studip_rsync.self_use_api := false |}.

(** *** The status of a run *)

(** The failures the preamble of [sync] answers with status 1. *)
Definition refused {A} (r : result A) : bool :=
  match r with
  | Raise LoginError | Raise (ParserError _) => true
  | _ => false
  end.

(** The configured semester is none of the selectors, and the session knows
    no identifier for it. *)
Definition semester_unknown (E : env) : bool :=
  match config_semester (CONFIG E) with
  | Some sem =>
      negb (bool_decide (sem ∈ known_selectors))
      && negb (bool_decide (is_Some (get_semester_id (the_session E) sem)))
  | None => false
  end.

(** The run ends before the course loop. *)
Definition stops_early (E : env) (sync_recent : bool) : bool :=
  refused (login (the_session E))
  || (is_ok (login (the_session E))
      && (semester_unknown E
          || refused (get_courses (the_session E) sync_recent))).

(** The events a run added to those of [w]. *)
Definition added (w w' : world) : list event :=
  drop (length (events w)) (events w').

(** An event that is a plugin hook or a change of the semester filter. *)
Definition quiet (e : event) : bool :=
  match e with
  | EvHook _ _ | EvSetSemester _ => true
  | _ => false
  end.

(** A session that knows no semester. *)
Definition summer_unknown : env :=
  Demo.env_with
    {| files_destination := Some "dest"; media_destination := None;
       ignore_courses := []; config_semester := Some "SS 2031";
       use_new_file_structure := false |}
    (Demo.session_giving [Demo.systems] "12345") Demo.running_clock.

(** *** What a statement leaves alone *)

(** A statement whose every run, however it ends, takes a state to one
    related to it by [R]. *)
Definition respects {A} (R : world -> world -> Prop) (m : M A) : Prop :=
  forall w, R w (snd (m w)).

(** The two states differ in the staging area at most. *)
Definition same_but_staging (w w' : world) : Prop :=
  fs w' = fs w /\ last_sync w' = last_sync w /\ ticks w' = ticks w
  /\ events w' = events w.

(** *** Trees *)

(** A path below a directory, one more level down. *)
Definition below {A} (name : string) (pa : list string * A) :
    list string * A :=
  (name :: fst pa, snd pa).

(** The regular files of a tree: the path from the root and the content. *)
Fixpoint files_of (n : node) : list (list string * string) :=
  match n with
  | File c => [([], c)]
  | Dir es =>
      flat_map (fun e => List.map (below (fst e)) (files_of (snd e))) es
  end.

(** The directories of a tree, the root included: the path, and whether the
    directory is empty. *)
Fixpoint dirs_of (n : node) : list (list string * bool) :=
  match n with
  | File _ => []
  | Dir es =>
      ([], match es with [] => true | _ => false end)
      :: flat_map (fun e => List.map (below (fst e)) (dirs_of (snd e))) es
  end.

(** The entries of a directory after the walk. *)
Definition walk_entries (es : list (string * node)) : list (string * node) :=
  flat_map (fun e =>
              match studip_sync.walk_rmdir (snd e) with
              | Some x' => [(fst e, x')]
              | None => []
              end) es.

(** A tree that may be gone. *)
Definition files_left (n : option node) : list (list string * string) :=
  match n with Some x => files_of x | None => [] end.

Definition dirs_left (n : option node) : list (list string) :=
  match n with Some x => List.map fst (dirs_of x) | None => [] end.

(** The paths of the directories that hold something. *)
Definition inhabited_dirs (n : node) : list (list string) :=
  List.map fst (List.filter (fun d => negb (snd d)) (dirs_of n)).

(** The names of the entries of a directory. *)
Definition names (es : list (string * node)) : list string := List.map fst es.

(** The entries [glob] passes over, and the ones it lists. *)
Definition hidden_entries (es : list (string * node)) : list (string * node) :=
  List.filter (fun e => studip_sync.hidden (fst e)) es.

Definition visible_entries (es : list (string * node)) : list (string * node) :=
  List.filter (fun e => negb (studip_sync.hidden (fst e))) es.

(** The one directory among the entries [es] is [wrapper], which holds
    [children]; no two entries of a directory have the same name. *)
Definition wrapped (es : list (string * node)) (wrapper : string)
    (children : list (string * node)) : Prop :=
  filter (fun e => is_dir (snd e)) es = [(wrapper, Dir children)]
  /\ NoDup (names es) /\ NoDup (names children).

(** A wrapper with a hidden entry, and one that holds an entry of its own
    name. *)
Definition archive_with_hidden : list (string * node) :=
  [("Course files", Dir [("notes.txt", File "notes");
                         (".DS_Store", File "meta")])].

Definition archive_with_namesake : list (string * node) :=
  [("Course files", Dir [("notes.txt", File "notes");
                         ("Course files", File "index")])].

(** The contents of the regular files of a tree, with repetitions. *)
Definition contents (n : node) : list string := List.map snd (files_of n).

Definition contents_in (es : list (string * node)) : list string :=
  contents (Dir es).

Definition contents_left (out : option (list (string * node))) : list string :=
  match out with Some es => contents_in es | None => [] end.

(** No two entries of the directory have the same name, and the same holds
    inside each directory that is an entry of it. *)
Definition distinct_names (es : list (string * node)) : Prop :=
  NoDup (names es)
  /\ forall n ch, (n, Dir ch) ∈ es -> NoDup (names ch).

(** The state of the top directory the loop of moves keeps. *)
Definition movable (wrapper : string) (top : list (string * node)) : Prop :=
  NoDup (names top)
  /\ forall ch, lookup_entry wrapper top = Some (Dir ch) -> NoDup (names ch).

(** An archive as it unpacks: the manifest, a note and a wrapper. *)
Definition archive_with_note : list (string * node) :=
  [("archive_filelist.csv", File "name;size");
   ("readme.txt", File "read me");
   ("Course files", Dir [("notes.txt", File "notes");
                         ("week1", Dir [("slides.pdf", File "slides")])])].

(** *** Where a walk writes *)

(** The files at the paths outside [P] are the same in both states. *)
Definition same_outside (P : string -> Prop) (w w' : world) : Prop :=
  forall p, ~ P p -> fs w' !! p = fs w !! p.

(** A relative folder path as the walk builds it: it does not begin with a
    separator. *)
Definition relative (rel : string) : Prop := first_char rel <> Some sep.

(** A state with a file that lies outside the destination. *)
Definition with_notes : world :=
  {| fs := <["home/notes.txt" := {| data := "my notes"; mtime := 1600000000 |}]>
             ∅;
     staging := []; last_sync := 1709000000; ticks := 0; events := [] |}.

(** The names that are no directory of their own: the empty name, and the
    two that stand for a directory itself and for its parent. *)
Definition dot_names : list string := [""; "."; ".."].

(** *** Where a path leads *)

(** [p.split('/')]: the components of a path, empty ones included. *)
Fixpoint comps (p : string) : list string :=
  match p with
  | EmptyString => [EmptyString]
  | String c p' =>
      if is_sep c then EmptyString :: comps p'
      else
        match comps p' with
        | x :: xs => String c x :: xs
        | [] => [String c EmptyString]
        end
  end.

Definition absolute (p : string) : bool :=
  bool_decide (first_char p = Some sep).

(** One component further from the directory [st], written innermost
    name first: an empty component and a dot stay, two dots go up (and stay
    at the root), a name goes down. No link is followed. *)
Definition step (st : list string) (c : string) : list string :=
  if String.eqb c "" || String.eqb c "." then st
  else if String.eqb c ".." then tail st
  else c :: st.

(** The entry a path leads to for a process in the directory [cwd]. *)
Definition locate (cwd : list string) (p : string) : list string :=
  fold_left step (comps p) (if absolute p then [] else cwd).

(** The path [p] leads to the directory of [d] or into it. *)
Definition within (cwd : list string) (d p : string) : Prop :=
  locate cwd d `suffix_of` locate cwd p.

(** The paths the walk of a course may write: the ones that lead into its
    root folder or into the work directory. *)
Definition reach (E : env) (self : studip_rsync.CourseRSync)
    (cwd : list string) (p : string) : Prop :=
  within cwd (studip_rsync.self_root_folder self) p
  \/ within cwd (workdir E) p.

(** A relative path none of whose components is two dots. *)
Definition tame (b : string) : Prop := relative b /\ ".." ∉ comps b.

(** No entry of a cleaned listing of the course is named with two dots. *)
Definition no_parent_names (E : env) (self : studip_rsync.CourseRSync) :
    Prop :=
  forall folder_id files folders files' folders',
    (if studip_rsync.self_use_api self
     then get_files_index_from_api (the_session E)
            (studip_rsync.self_course_id self) folder_id
     else get_files_index (the_session E)
            (studip_rsync.self_course_id self) folder_id)
    = Ok (files, folders) ->
    studip_rsync.check_and_cleanup_form_data (nfkc E) files folders
      (studip_rsync.self_use_api self)
    = Ok (files', folders') ->
    forall d, d ∈ files' ++ folders' -> d !! "name" <> Some (VStr "..").

(** A listing whose root folder holds a folder named with two dots, which
    holds one file. *)
Definition parent_folder : gmap string value :=
  <["name" := VStr ".."]> (<["id" := VStr "0b2e"]> ∅).

Definition notes_entry : gmap string value :=
  <["download_url" := VStr "https://example.org/notes"]>
    (<["chdate" := VInt 1700000000]> (<["size" := VInt 5]>
       (<["name" := VStr "notes.txt"]> (<["id" := VStr "0c3d"]> ∅)))).

Definition listing_with_parent (course_id : string) (folder_id : value) :
    result (list (gmap string value) * list (gmap string value)) :=
  if bool_decide (folder_id = VNone) then Ok ([], [parent_folder])
  else Ok ([notes_entry], []).

Definition climbing : env :=
  Demo.env_with Demo.files_only
    {| login := Ok tt;
       get_semester_id := fun _ => None;
       get_courses := fun _ => Ok [Demo.systems];
       check_course_new_files := fun _ _ => Ok true;
       get_files_index := listing_with_parent;
       get_files_index_from_api := listing_with_parent;
       download_file := fun _ => Ok "12345";
       download_file_api := fun _ => Ok "12345";
       download := fun _ _ _ => Ok "work/zips/course.zip";
       download_media := fun _ _ _ => Ok tt |}
    Demo.running_clock.

(** *** The sanitiser in the words of the specification *)

(** The characters the contract lists as illegal, by their code points. *)
Definition reserved_points : list N := [92; 58; 42; 63; 34; 60; 62; 124]%N.

(** What becomes of one character: a separator is folded into a double
    dash, an illegal character is stripped, any other character is kept. *)
Definition fold_point (c : N) : Unicode.str :=
  if decide (c = Unicode.slash) then [Unicode.dash; Unicode.dash]
  else if decide (c ∈ reserved_points) then []
  else [c].

(** The name with every character treated so, in order. *)
Definition folded (x : Unicode.str) : Unicode.str := x ≫= fold_point.

(** [r] is [s] with surrounding white space trimmed: white space only was
    taken away, and none is left at either end. *)
Definition trimmed (s r : Unicode.str) : Prop :=
  (exists pre post,
      s = pre ++ r ++ post
      /\ forallb Unicode.isspace pre = true
      /\ forallb Unicode.isspace post = true)
  /\ (forall c, head r = Some c -> Unicode.isspace c = false)
  /\ (forall c, last r = Some c -> Unicode.isspace c = false).

(** *** The course loop *)

(** The session reports nothing new for the course since the last sync
    of [w]. *)
Definition unchanged (E : env) (w : world) (c : course) : Prop :=
  check_course_new_files (the_session E) (course_id c) (last_sync w)
  = Ok false.

(** The ignore list can be read against the name of the course. *)
Definition passes (E : env) (c : course) : Prop :=
  exists skip, ignored E c = Ok skip.

(** The courses the ignore list does not name by their identifier. *)
Definition not_listed (E : env) (courses : list course) : list course :=
  filter (fun c => course_id c ∉ ignore_courses (CONFIG E)) courses.

(** Nothing new on the remote, two courses. *)
Definition quiet_remote : env :=
  Demo.env_with Demo.files_only
    (Demo.session_unchanged [Demo.systems; Demo.algebra]) Demo.running_clock.

(** * Properties *)

(** ** Strings *)

Section StringFacts.

Variable p : ascii -> bool.

Lemma all_chars_app (s t : string) :
  all_chars p (s +:+ t) = all_chars p s && all_chars p t.
Proof.
  induction s as [|c s IH]; simpl; [reflexivity|].
  rewrite IH. apply andb_assoc.
Qed.

Lemma all_chars_mem (s : string) (c : ascii) :
  all_chars p s = true -> mem_char c s = true -> p c = true.
Proof.
  induction s as [|d s IH]; simpl; [discriminate|].
  intros [Hd Hs]%andb_true_iff [Hc|Hc]%orb_true_iff.
  - apply Ascii.eqb_eq in Hc. now subst.
  - now apply IH.
Qed.

Lemma all_chars_lstrip_by (q : ascii -> bool) (s : string) :
  all_chars p s = true -> all_chars p (lstrip_by q s) = true.
Proof.
  induction s as [|c s IH]; simpl; [reflexivity|].
  intros H. destruct (q c); [|exact H].
  apply andb_true_iff in H. now apply IH.
Qed.

Lemma all_chars_rstrip_by (q : ascii -> bool) (s : string) :
  all_chars p s = true -> all_chars p (rstrip_by q s) = true.
Proof.
  induction s as [|c s IH]; simpl; [reflexivity|].
  intros [Hc Hs]%andb_true_iff. specialize (IH Hs).
  destruct (rstrip_by q s) as [|d r].
  - destruct (q c); simpl; [reflexivity|]. now rewrite Hc.
  - simpl in *. now rewrite Hc.
Qed.

Lemma all_chars_sub_class (q : ascii -> bool) (s : string) :
  all_chars p s = true -> all_chars p (sub_class q s) = true.
Proof.
  induction s as [|c s IH]; simpl; [reflexivity|].
  intros [Hc Hs]%andb_true_iff.
  destruct (q c); simpl; [now apply IH|]. rewrite Hc. now apply IH.
Qed.

Lemma sub_class_none (s : string) :
  all_chars (fun c => negb (p c)) s = true -> sub_class p s = s.
Proof.
  induction s as [|c s IH]; simpl; [reflexivity|].
  intros [Hc Hs]%andb_true_iff. apply negb_true_iff in Hc.
  rewrite Hc. now rewrite IH.
Qed.

Lemma sub_class_clear (s : string) :
  all_chars (fun c => negb (p c)) (sub_class p s) = true.
Proof.
  induction s as [|c s IH]; simpl; [reflexivity|].
  destruct (p c) eqn:Hc; simpl; [exact IH|]. now rewrite Hc.
Qed.

Lemma first_char_lstrip_by (s : string) (c : ascii) :
  first_char (lstrip_by p s) = Some c -> p c = false.
Proof.
  induction s as [|d s IH]; simpl; [discriminate|].
  destruct (p d) eqn:Hd; [exact IH|].
  simpl. intros [= <-]. exact Hd.
Qed.

Lemma first_char_rstrip_by (s : string) (c : ascii) :
  first_char (rstrip_by p s) = Some c -> first_char s = Some c.
Proof.
  destruct s as [|d s]; simpl; [discriminate|].
  destruct (rstrip_by p s); [destruct (p d)|]; simpl; congruence.
Qed.

Lemma last_char_rstrip_by (s : string) (c : ascii) :
  last_char (rstrip_by p s) = Some c -> p c = false.
Proof.
  induction s as [|d s IH]; simpl; [discriminate|].
  destruct (rstrip_by p s) as [|e r] eqn:Hr.
  - destruct (p d) eqn:Hd; simpl; [discriminate|].
    intros [= <-]. exact Hd.
  - exact IH.
Qed.

Lemma lstrip_by_id (s : string) :
  (forall c, first_char s = Some c -> p c = false) -> lstrip_by p s = s.
Proof.
  destruct s as [|d s]; simpl; [reflexivity|].
  intros H. now rewrite (H d eq_refl).
Qed.

Lemma rstrip_by_id (s : string) :
  (forall c, last_char s = Some c -> p c = false) -> rstrip_by p s = s.
Proof.
  induction s as [|d s IH]; simpl; [reflexivity|].
  intros H. destruct s as [|e s].
  - simpl. now rewrite (H d eq_refl).
  - rewrite IH; [reflexivity|]. exact H.
Qed.

End StringFacts.

Lemma replace_none (old : ascii) (new s : string) :
  all_chars (fun c => negb (Ascii.eqb c old)) s = true ->
  replace old new s = s.
Proof.
  induction s as [|c s IH]; simpl; [reflexivity|].
  intros [Hc Hs]%andb_true_iff. apply negb_true_iff in Hc.
  rewrite Hc. now rewrite IH.
Qed.

Lemma replace_clear (old : ascii) (new s : string) :
  all_chars (fun c => negb (Ascii.eqb c old)) new = true ->
  all_chars (fun c => negb (Ascii.eqb c old)) (replace old new s) = true.
Proof.
  intros Hnew. induction s as [|c s IH]; simpl; [reflexivity|].
  destruct (Ascii.eqb c old) eqn:Hc.
  - rewrite all_chars_app, Hnew. exact IH.
  - simpl. now rewrite Hc.
Qed.

Lemma all_chars_and (p q : ascii -> bool) (s : string) :
  all_chars p s = true -> all_chars q s = true ->
  all_chars (fun c => p c && q c) s = true.
Proof.
  induction s as [|c s IH]; simpl; [reflexivity|].
  intros [Hp Hs]%andb_true_iff [Hq Hs']%andb_true_iff.
  rewrite Hp, Hq. now apply IH.
Qed.

Lemma all_chars_impl (p q : ascii -> bool) (s : string) :
  (forall c, p c = true -> q c = true) ->
  all_chars p s = true -> all_chars q s = true.
Proof.
  intros Hpq. induction s as [|c s IH]; simpl; [reflexivity|].
  intros [Hp Hs]%andb_true_iff. rewrite (Hpq _ Hp). now apply IH.
Qed.

(** ** Name sanitisation *)

Lemma strip_sub_replace_safe (disallowed : ascii -> bool) (x : string) :
  safe_name disallowed (strip (sub_class disallowed (replace "/" "--" x))).
Proof.
  unfold safe_name, strip. repeat split.
  - apply all_chars_rstrip_by, all_chars_lstrip_by, all_chars_sub_class.
    apply (replace_clear "/" "--" x). reflexivity.
  - apply all_chars_rstrip_by, all_chars_lstrip_by, sub_class_clear.
  - intros c H. apply first_char_rstrip_by in H.
    now apply first_char_lstrip_by in H.
  - intros c H. now apply last_char_rstrip_by in H.
Qed.

Lemma strip_sub_replace_fixed (disallowed : ascii -> bool) (s : string) :
  safe_name disallowed s ->
  strip (sub_class disallowed (replace "/" "--" s)) = s.
Proof.
  intros (Hsep & Hdis & Hfirst & Hlast). unfold strip.
  rewrite replace_none by exact Hsep.
  rewrite sub_class_none by exact Hdis.
  rewrite lstrip_by_id by exact Hfirst.
  now apply rstrip_by_id.
Qed.

Lemma disallowed_reserved_rsync (c : ascii) :
  code c ∈ reserved_codes -> studip_rsync.disallowed c = true.
Proof.
  intros H. rewrite <- (ascii_nat_embedding c). fold (code c).
  unfold reserved_codes in H.
  repeat (apply elem_of_cons in H as [->|H]; [vm_compute; reflexivity|]).
  inversion H.
Qed.

Lemma disallowed_reserved_sync (c : ascii) :
  code c ∈ reserved_codes -> studip_sync.disallowed c = true.
Proof.
  intros H. rewrite <- (ascii_nat_embedding c). fold (code c).
  unfold reserved_codes in H.
  repeat (apply elem_of_cons in H as [->|H]; [vm_compute; reflexivity|]).
  inversion H.
Qed.

(** On the strings of the embedding, in both source files: the cleaned name
    holds none of the reserved characters and no path separator, no white
    space at its ends, and cleaning it again changes nothing. *)
Lemma clean_name_on_strings (x : string) :
  let clean_a := studip_rsync.clean_name in
  let clean_b := studip_sync.clean_name in
  clean_a x = clean_b x
  /\ (forall c, mem_char c (clean_a x) = true ->
        (code c ∉ reserved_codes) /\ c <> sep)
  /\ (forall c, first_char (clean_a x) = Some c -> isspace c = false)
  /\ (forall c, last_char (clean_a x) = Some c -> isspace c = false)
  /\ clean_a (clean_a x) = clean_a x
  /\ clean_b (clean_b x) = clean_b x.
Proof.
  intros clean_a clean_b.
  pose proof (strip_sub_replace_safe studip_rsync.disallowed x)
    as (Hsep & Hdis & Hfirst & Hlast).
  fold (studip_rsync.clean_name x) in Hsep, Hdis, Hfirst, Hlast.
  split; [reflexivity|]. split; [|split; [exact Hfirst|split; [exact Hlast|]]].
  - intros c Hc. split.
    + intros Hres. apply disallowed_reserved_rsync in Hres.
      pose proof (all_chars_mem _ _ _ Hdis Hc) as Hn. cbv beta in Hn.
      rewrite Hres in Hn. discriminate.
    + intros ->. pose proof (all_chars_mem _ _ _ Hsep Hc) as Hn.
      discriminate Hn.
  - split.
    + apply (strip_sub_replace_fixed studip_rsync.disallowed).
      apply strip_sub_replace_safe.
    + apply (strip_sub_replace_fixed studip_sync.disallowed).
      apply strip_sub_replace_safe.
Qed.

(** ** Change detection *)

Lemma getitem_lookup (d : gmap string value) (k : string) (v : value) :
  d !! k = Some v -> getitem d k = Ok v.
Proof. unfold getitem. now intros ->. Qed.

(** C2, as the code has it. An entry whose size is falsy (absent as [None],
    or zero) is never stale, whatever is on disk. An entry with a non-zero
    size and an integer change time is stale when nothing is at the path;
    otherwise exactly when its change time is later than the integer
    modification time of the local file or the sizes differ. *)
Theorem is_file_new_rules (fs : gmap string file) (entry : gmap string value)
    (file_path : string) (size : value)
    (Hsize : entry !! "size" = Some size) :
  (truthy size = false ->
     studip_rsync.is_file_new fs entry file_path = Ok false)
  /\ (forall n t : Z,
        size = VInt n -> n <> 0 -> entry !! "chdate" = Some (VInt t) ->
        studip_rsync.is_file_new fs entry file_path =
        Ok (match fs !! file_path with
            | None => true
            | Some local_file =>
                (mtime local_file <? t) || negb (n =? getsize local_file)
            end)).
Proof.
  unfold studip_rsync.is_file_new.
  rewrite (getitem_lookup _ _ _ Hsize). simpl. split.
  - intros ->. reflexivity.
  - intros n t -> Hn Ht. simpl.
    apply Z.eqb_neq in Hn. rewrite Hn. simpl.
    destruct (fs !! file_path) as [local_file|]; [|reflexivity].
    rewrite (getitem_lookup _ _ _ Ht). simpl.
    destruct (mtime local_file <? t); [reflexivity|]. simpl.
    now destruct (n =? getsize local_file).
Qed.

(** The same size and a local copy not older than the entry: not stale; no
    local copy: stale. *)
Lemma is_file_new_rules_witness :
  studip_rsync.is_file_new disk_10 entry_10 "dest/a.pdf" = Ok false
  /\ studip_rsync.is_file_new disk_10 entry_10 "dest/b.pdf" = Ok true.
Proof.
  assert (Hsize : entry_10 !! "size" = Some (VInt 10)) by reflexivity.
  split.
  - destruct (is_file_new_rules disk_10 entry_10 "dest/a.pdf" _ Hsize)
      as [_ H].
    rewrite (H 10 1700000000 eq_refl); [reflexivity|lia|reflexivity].
  - destruct (is_file_new_rules disk_10 entry_10 "dest/b.pdf" _ Hsize)
      as [_ H].
    rewrite (H 10 1700000000 eq_refl); [reflexivity|lia|reflexivity].
Defined.

(** An entry that reports a size of zero bytes, with nothing at the local
    path: not stale. *)
Lemma is_file_new_zero_size :
  let entry : gmap string value :=
    <["chdate" := VInt 1700000000]> (<["size" := VInt 0]> ∅) in
  entry !! "size" = Some (VInt 0)
  /\ (∅ : gmap string file) !! "dest/empty.txt" = None
  /\ studip_rsync.is_file_new ∅ entry "dest/empty.txt" = Ok false.
Proof. repeat split. Qed.

(** ** Listing cleanup *)

Lemma contains_Some (d : gmap string value) (k : string) (v : value) :
  d !! k = Some v -> contains d k = true.
Proof. intros H. unfold contains. apply bool_decide_eq_true. eauto. Qed.

Lemma contains_None (d : gmap string value) (k : string) :
  d !! k = None -> contains d k = false.
Proof.
  intros H. unfold contains. apply bool_decide_eq_false.
  rewrite H. now intros [? ?].
Qed.

Section CleanupLoop.

Variable msg : string.
Variable body : gmap string value -> result (option (gmap string value)).

Lemma cleanup_loop_raise (entries : list (gmap string value))
    (d : gmap string value) :
  d ∈ entries -> is_ok (body d) = false ->
  studip_rsync.cleanup_loop msg body entries = Raise (ParserError msg).
Proof.
  induction entries as [|a rest IH]; intros Hin Hd.
  - inversion Hin.
  - simpl. destruct (body a) as [kept|e] eqn:Ha; simpl; [|reflexivity].
    apply elem_of_cons in Hin as [->|Hin].
    + rewrite Ha in Hd. discriminate.
    + now rewrite IH.
Qed.

Lemma cleanup_loop_raises (entries : list (gmap string value)) (e : exn) :
  studip_rsync.cleanup_loop msg body entries = Raise e -> e = ParserError msg.
Proof.
  induction entries as [|a rest IH]; simpl; [discriminate|].
  destruct (body a) as [kept|e'] eqn:Ha; simpl; [|congruence].
  destruct (studip_rsync.cleanup_loop msg body rest) as [new|e'']; simpl;
    [discriminate|].
  intros [= <-]. now apply IH.
Qed.

Lemma cleanup_loop_skip (l1 l2 : list (gmap string value))
    (d : gmap string value) :
  body d = Ok None ->
  studip_rsync.cleanup_loop msg body (l1 ++ d :: l2) =
  studip_rsync.cleanup_loop msg body (l1 ++ l2).
Proof.
  intros Hd. induction l1 as [|a l1 IH]; simpl.
  - rewrite Hd. simpl. now destruct (studip_rsync.cleanup_loop msg body l2).
  - now rewrite IH.
Qed.

Lemma cleanup_loop_Forall (P : gmap string value -> Prop)
    (entries out : list (gmap string value)) :
  (forall d d', body d = Ok (Some d') -> P d') ->
  studip_rsync.cleanup_loop msg body entries = Ok out -> Forall P out.
Proof.
  intros HP. revert out.
  induction entries as [|a rest IH]; simpl; intros out H.
  - injection H as <-. constructor.
  - destruct (body a) as [kept|e] eqn:Ha; simpl in H; [|discriminate].
    destruct (studip_rsync.cleanup_loop msg body rest) as [new|e];
      simpl in H; [|discriminate].
    injection H as <-. specialize (IH new eq_refl).
    destruct kept as [d'|]; [|exact IH].
    constructor; [now apply (HP a)|exact IH].
Qed.

End CleanupLoop.

Lemma all_hexdigits_hex_id (d : gmap string value) (v : value) :
  d !! "id" = Some v -> studip_rsync.all_hexdigits v = Ok true -> hex_id d.
Proof.
  intros Hid Hhex. destruct v as [| | |s]; try discriminate.
  exists s. split; [exact Hid|].
  unfold studip_rsync.all_hexdigits in Hhex. now injection Hhex.
Qed.

Lemma cleanup_file_bad_id (nfkc : string -> string) (use_api : bool)
    (d : gmap string value) :
  bad_id d -> is_ok (studip_rsync.cleanup_file nfkc use_api d) = false.
Proof.
  intros (v & Hid & Hbad). unfold studip_rsync.cleanup_file.
  rewrite (contains_Some _ _ _ Hid), (getitem_lookup _ _ _ Hid). simpl.
  destruct (studip_rsync.all_hexdigits v) as [[|]|e]; simpl;
    [congruence|reflexivity|reflexivity].
Qed.

Lemma cleanup_folder_bad_id (nfkc : string -> string)
    (d : gmap string value) :
  bad_id d -> is_ok (studip_rsync.cleanup_folder nfkc d) = false.
Proof.
  intros (v & Hid & Hbad). unfold studip_rsync.cleanup_folder.
  rewrite (contains_Some _ _ _ Hid), (getitem_lookup _ _ _ Hid). simpl.
  destruct (studip_rsync.all_hexdigits v) as [[|]|e]; simpl;
    [congruence|reflexivity|reflexivity].
Qed.

Lemma cleanup_file_skip (nfkc : string -> string) (use_api : bool)
    (d : gmap string value) :
  is_Some (d !! "name") -> skippable use_api d ->
  studip_rsync.cleanup_file nfkc use_api d = Ok None.
Proof.
  intros [name Hname] Hskip. unfold studip_rsync.cleanup_file.
  assert (Hlog : studip_rsync.log_name d = Ok tt).
  { unfold studip_rsync.log_name. now rewrite (getitem_lookup _ _ _ Hname). }
  destruct Hskip as [Hid|((s & Hid & Hhex) & Hwhy)].
  - rewrite (contains_None _ _ Hid). simpl. now rewrite Hlog.
  - rewrite (contains_Some _ _ _ Hid), (getitem_lookup _ _ _ Hid).
    cbn [bind negb studip_rsync.all_hexdigits]. rewrite Hhex. cbn [bind negb].
    destruct (studip_rsync.unsupported d) eqn:Hu; [now rewrite Hlog|].
    destruct Hwhy as [Hwhy|[-> Hnd]]; [discriminate|].
    rewrite Hnd. simpl. now rewrite Hlog.
Qed.

Lemma cleanup_file_malformed (nfkc : string -> string) (use_api : bool)
    (d : gmap string value) :
  hex_id d -> studip_rsync.unsupported d = false ->
  use_api && studip_rsync.not_downloadable d = false ->
  malformed d ->
  is_ok (studip_rsync.cleanup_file nfkc use_api d) = false.
Proof.
  intros (s & Hid & Hhex) Hu Hnd Hbad. unfold studip_rsync.cleanup_file.
  rewrite (contains_Some _ _ _ Hid), (getitem_lookup _ _ _ Hid).
  cbn [bind negb studip_rsync.all_hexdigits].
  rewrite Hhex, Hu, Hnd. cbn [bind negb].
  destruct (studip_rsync.clean_form_name nfkc d) as [name|e];
    cbn [bind is_ok]; [|reflexivity].
  destruct Hbad as [Hbad|Hbad].
  - destruct (bind (getitem d "size") int) as [size|e]; [discriminate|].
    reflexivity.
  - destruct (bind (getitem d "size") int) as [size|e]; cbn [bind is_ok];
      [|reflexivity].
    destruct (bind (getitem d "chdate") int) as [chdate|e];
      [discriminate|reflexivity].
Qed.

Lemma cleanup_file_Some (nfkc : string -> string) (use_api : bool)
    (d d' : gmap string value) :
  studip_rsync.cleanup_file nfkc use_api d = Ok (Some d') ->
  clean_entry d' /\ (use_api = true -> d' !! "download_url" = None).
Proof.
  unfold studip_rsync.cleanup_file.
  destruct (contains d "id"); simpl.
  2:{ destruct (studip_rsync.log_name d); simpl; discriminate. }
  destruct (getitem d "id") as [form_id|e]; simpl; [|discriminate].
  destruct (studip_rsync.all_hexdigits form_id) as [[|]|e] eqn:Hhex; simpl;
    try discriminate.
  destruct (studip_rsync.unsupported d).
  { destruct (studip_rsync.log_name d); simpl; discriminate. }
  destruct (use_api && studip_rsync.not_downloadable d).
  { destruct (studip_rsync.log_name d); simpl; discriminate. }
  destruct (studip_rsync.clean_form_name nfkc d) as [name|e]; simpl;
    [|discriminate].
  destruct (bind (getitem d "size") int) as [size|e]; simpl; [|discriminate].
  destruct (bind (getitem d "chdate") int) as [chdate|e]; simpl;
    [|discriminate].
  assert (Hid : forall m : gmap string value,
             m !! "id" = Some form_id -> hex_id m).
  { intros m Hm. now apply (all_hexdigits_hex_id m form_id). }
  destruct use_api; simpl.
  - intros [= <-]. split; [|reflexivity].
    split; [apply Hid; reflexivity|]. split; eexists; reflexivity.
  - destruct (getitem d "download_url") as [url|e]; simpl; [|discriminate].
    intros [= <-]. split; [|discriminate].
    split; [apply Hid; reflexivity|]. split; eexists; reflexivity.
Qed.

Lemma cleanup_folder_Some (nfkc : string -> string)
    (d d' : gmap string value) :
  studip_rsync.cleanup_folder nfkc d = Ok (Some d') -> hex_id d'.
Proof.
  unfold studip_rsync.cleanup_folder.
  destruct (contains d "id"); simpl; [|discriminate].
  destruct (getitem d "id") as [form_id|e]; simpl; [|discriminate].
  destruct (studip_rsync.all_hexdigits form_id) as [[|]|e] eqn:Hhex; simpl;
    try discriminate.
  destruct (studip_rsync.clean_form_name nfkc d) as [name|e]; simpl;
    [|discriminate].
  intros [= <-]. now apply (all_hexdigits_hex_id _ form_id).
Qed.

Lemma check_raise_files (nfkc : string -> string) (use_api : bool)
    (files folders : list (gmap string value)) (d : gmap string value) :
  d ∈ files -> is_ok (studip_rsync.cleanup_file nfkc use_api d) = false ->
  exists msg,
    studip_rsync.check_and_cleanup_form_data nfkc files folders use_api
    = Raise (ParserError msg).
Proof.
  intros Hin Hd. unfold studip_rsync.check_and_cleanup_form_data.
  rewrite (cleanup_loop_raise _ _ files d Hin Hd). simpl. eauto.
Qed.

Lemma check_raise_folders (nfkc : string -> string) (use_api : bool)
    (files folders : list (gmap string value)) (d : gmap string value) :
  d ∈ folders -> is_ok (studip_rsync.cleanup_folder nfkc d) = false ->
  exists msg,
    studip_rsync.check_and_cleanup_form_data nfkc files folders use_api
    = Raise (ParserError msg).
Proof.
  intros Hin Hd. unfold studip_rsync.check_and_cleanup_form_data.
  rewrite (cleanup_loop_raise _ _ folders d Hin Hd).
  destruct (studip_rsync.cleanup_loop _ _ files) as [new|e] eqn:Hf; simpl;
    [eauto|].
  apply cleanup_loop_raises in Hf as ->. eauto.
Qed.

(** C9, as the code has it. The whole listing fails to parse when an entry
    has an identifier that is no string of hexadecimal digits, or when a file
    entry that is not passed over has a size or change time that does not
    read as an integer. A file entry with a name is passed over, and the
    rest is cleaned as if it were not there, when it has no identifier, or
    has a hexadecimal one and is a link, lacks a size or (with the API
    listing) is marked as not downloadable; a folder entry without an
    identifier likewise. Every file entry of the result has a hexadecimal
    identifier, an integer size and an integer change time. *)
Theorem check_and_cleanup_form_data_spec (nfkc : string -> string)
    (use_api : bool) (files folders : list (gmap string value)) :
  let check := studip_rsync.check_and_cleanup_form_data nfkc in
  (forall d, d ∈ files \/ d ∈ folders -> bad_id d ->
     exists msg, check files folders use_api = Raise (ParserError msg))
  /\ (forall d, d ∈ files -> hex_id d ->
        studip_rsync.unsupported d = false ->
        use_api && studip_rsync.not_downloadable d = false ->
        malformed d ->
        exists msg, check files folders use_api = Raise (ParserError msg))
  /\ (forall l1 d l2, files = l1 ++ d :: l2 ->
        is_Some (d !! "name") -> skippable use_api d ->
        check files folders use_api = check (l1 ++ l2) folders use_api)
  /\ (forall l1 d l2, folders = l1 ++ d :: l2 -> d !! "id" = None ->
        check files folders use_api = check files (l1 ++ l2) use_api)
  /\ (forall files' folders',
        check files folders use_api = Ok (files', folders') ->
        Forall clean_entry files' /\ Forall hex_id folders').
Proof.
  intros check. repeat split.
  - intros d [Hin|Hin] Hbad.
    + apply (check_raise_files _ _ _ _ d Hin).
      now apply cleanup_file_bad_id.
    + apply (check_raise_folders _ _ _ _ d Hin).
      now apply cleanup_folder_bad_id.
  - intros d Hin Hhex Hu Hnd Hbad.
    apply (check_raise_files _ _ _ _ d Hin).
    now apply cleanup_file_malformed.
  - intros l1 d l2 -> Hname Hskip.
    unfold check, studip_rsync.check_and_cleanup_form_data.
    rewrite (cleanup_loop_skip _ _ l1 l2 d); [reflexivity|].
    now apply cleanup_file_skip.
  - intros l1 d l2 -> Hid.
    unfold check, studip_rsync.check_and_cleanup_form_data.
    rewrite (cleanup_loop_skip _ _ l1 l2 d); [reflexivity|].
    unfold studip_rsync.cleanup_folder. now rewrite (contains_None _ _ Hid).
  - unfold check, studip_rsync.check_and_cleanup_form_data in H.
    destruct (studip_rsync.cleanup_loop _ _ files) as [fs'|e] eqn:Hf;
      simpl in H; [|discriminate].
    destruct (studip_rsync.cleanup_loop _ _ folders) as [fo'|e] eqn:Ho;
      simpl in H; [|discriminate].
    injection H as <- <-.
    apply (cleanup_loop_Forall _ _ clean_entry _ _) in Hf; [exact Hf|].
    intros d d' Hd. now apply cleanup_file_Some in Hd.
  - unfold check, studip_rsync.check_and_cleanup_form_data in H.
    destruct (studip_rsync.cleanup_loop _ _ files) as [fs'|e] eqn:Hf;
      simpl in H; [|discriminate].
    destruct (studip_rsync.cleanup_loop _ _ folders) as [fo'|e] eqn:Ho;
      simpl in H; [|discriminate].
    injection H as <- <-.
    apply (cleanup_loop_Forall _ _ hex_id _ _) in Ho; [exact Ho|].
    intros d d'. apply cleanup_folder_Some.
Qed.

(** The first is passed over though its size is malformed: no parsing
    failure. The second is kept though it is marked as not downloadable. *)
Lemma cleanup_not_as_claimed :
  int (VStr "n/a") = Raise ValueError
  /\ studip_rsync.check_and_cleanup_form_data (fun s => s)
       [link_bad_size] [] true = Ok ([], [])
  /\ studip_rsync.not_downloadable marked_entry = true
  /\ studip_rsync.check_and_cleanup_form_data (fun s => s)
       [marked_entry] [] false
     = Ok ([<["download_url" := VStr "u"]> (<["chdate" := VInt 7]>
              (<["size" := VInt 3]> (<["id" := VStr "0a1f"]>
                 (<["name" := VStr "a.pdf"]> ∅))))], []).
Proof. repeat split; vm_compute; reflexivity. Qed.

(** ** The walk of strategy A with the API listing *)

Lemma for_each_first_raises {A} (x : A) (l : list A) (f : A -> M unit)
    (e : exn) (w w' : world) :
  f x w = (Raise e, w') -> for_each (x :: l) f w = (Raise e, w').
Proof. intros H. simpl. unfold mbind. now rewrite H. Qed.

Lemma check_and_cleanup_form_data_files_only (nfkc : string -> string)
    (files folders files' folders' : list (gmap string value)) :
  studip_rsync.check_and_cleanup_form_data nfkc files folders true
  = Ok (files', folders') ->
  Forall (fun d => d !! "download_url" = None) files'.
Proof.
  unfold studip_rsync.check_and_cleanup_form_data. intros Hclean.
  destruct (studip_rsync.cleanup_loop _ _ files) as [new|e] eqn:Hf;
    simpl in Hclean; [|discriminate].
  destruct (studip_rsync.cleanup_loop _ _ folders) as [fo|e];
    simpl in Hclean; [|discriminate].
  injection Hclean as -> _.
  apply (cleanup_loop_Forall _ _
           (fun d => d !! "download_url" = None)) in Hf; [exact Hf|].
  intros d d' Hd. apply cleanup_file_Some in Hd as [_ Hd]. now apply Hd.
Qed.

Lemma sync_file_key_error (E : env) (self : studip_rsync.CourseRSync)
    (rel : string) (file_data : gmap string value) (w : world) :
  file_data !! "download_url" = None ->
  studip_rsync.sync_file E self rel file_data w
  = (Raise (KeyError "download_url"), w).
Proof.
  intros H. unfold studip_rsync.sync_file, mbind, lift, getitem.
  now rewrite H.
Qed.

Lemma download_recursive_key_error (E : env)
    (self : studip_rsync.CourseRSync) (depth : nat) (folder_id : value)
    (rel : string) (w : world)
    (files folders rest folders' : list (gmap string value))
    (kept : gmap string value) :
  studip_rsync.self_use_api self = true ->
  get_files_index_from_api (the_session E)
    (studip_rsync.self_course_id self) folder_id = Ok (files, folders) ->
  studip_rsync.check_and_cleanup_form_data (nfkc E) files folders true
  = Ok (kept :: rest, folders') ->
  studip_rsync.download_recursive E self (S depth) folder_id rel w
  = (Raise (KeyError "download_url"), w).
Proof.
  intros Hapi Hlist Hclean. simpl. rewrite Hapi, Hlist.
  unfold mbind at 1. unfold lift at 1. rewrite Hclean.
  unfold mbind at 1. cbn [fst].
  rewrite (for_each_first_raises kept rest _ (KeyError "download_url") w w);
    [reflexivity|].
  apply sync_file_key_error.
  apply check_and_cleanup_form_data_files_only in Hclean.
  now inversion Hclean.
Qed.

Lemma sync_files_passes_on (E : env) (sync_fully use_api : bool)
    (depth : nat) (c : course) (save : string) (status : Z) (w w' : world)
    (key : string) :
  studip_rsync.download E
    {| studip_rsync.self_course_id := course_id c;
       studip_rsync.self_course_save_as := save_as c;
       studip_rsync.self_root_folder :=
         path_join (dir_of (files_destination (CONFIG E))) save;
       studip_rsync.self_sync_fully := sync_fully;
       studip_rsync.self_use_api := use_api |} depth w
  = (Raise (KeyError key), w') ->
  studip_rsync.sync_files E sync_fully use_api depth c save status w
  = (Raise (KeyError key), w').
Proof. intros H. unfold studip_rsync.sync_files. now rewrite H. Qed.

(** C4. With the API listing, no entry that survives the cleanup has a
    [download_url] key; the file loop reads that key first, so a listing
    with a surviving file entry ends the walk with a [KeyError] and nothing
    synced, and the handlers around the file sync of a course let it
    through. *)
Theorem api_listing_key_error (E : env) (self : studip_rsync.CourseRSync)
    (depth : nat) (folder_id : value) (rel : string) (w : world)
    (files folders rest folders' : list (gmap string value))
    (kept : gmap string value)
    (Hapi : studip_rsync.self_use_api self = true)
    (Hlist : get_files_index_from_api (the_session E)
               (studip_rsync.self_course_id self) folder_id
             = Ok (files, folders))
    (Hclean : studip_rsync.check_and_cleanup_form_data (nfkc E) files
                folders true = Ok (kept :: rest, folders')) :
  (forall d, d ∈ kept :: rest -> d !! "download_url" = None)
  /\ studip_rsync.download_recursive E self (S depth) folder_id rel w
     = (Raise (KeyError "download_url"), w)
  /\ (forall (c : course) (sync_fully : bool) (save : string) (status : Z),
        folder_id = VNone -> course_id c = studip_rsync.self_course_id self ->
        sync_fully = true
        \/ check_course_new_files (the_session E) (course_id c) (last_sync w)
           = Ok true ->
        studip_rsync.sync_files E sync_fully true (S depth) c save status w
        = (Raise (KeyError "download_url"), w)).
Proof.
  split; [|split].
  - pose proof (check_and_cleanup_form_data_files_only (nfkc E) files folders
                  (kept :: rest) folders' Hclean) as Hall.
    intros d Hd. rewrite Forall_forall in Hall. now apply Hall.
  - now apply (download_recursive_key_error E self depth folder_id rel w
                 files folders rest folders' kept).
  - intros c sync_fully save status -> Hc Hnew.
    apply sync_files_passes_on. unfold studip_rsync.download.
    assert (Hgo : studip_rsync.course_has_new_files E
              {| studip_rsync.self_course_id := course_id c;
                 studip_rsync.self_course_save_as := save_as c;
                 studip_rsync.self_root_folder :=
                   path_join (dir_of (files_destination (CONFIG E))) save;
                 studip_rsync.self_sync_fully := sync_fully;
                 studip_rsync.self_use_api := true |} w = Ok true).
    { unfold studip_rsync.course_has_new_files. cbn.
      destruct Hnew as [->|Hnew]; [reflexivity|].
      now destruct sync_fully. }
    rewrite Hgo.
    apply (download_recursive_key_error E _ depth VNone EmptyString w
             files folders rest folders' kept); [reflexivity| |exact Hclean].
    cbn. now rewrite Hc.
Qed.

Lemma api_listing_key_error_witness :
  studip_rsync.sync_files Demo.one_course_standing false true 1 Demo.systems
    "101 V Introduction 2" 0 Demo.fresh
  = (Raise (KeyError "download_url"), Demo.fresh).
Proof.
  pose (self := {| studip_rsync.self_course_id := "c0ffee";
                   studip_rsync.self_course_save_as := VNone;
                   studip_rsync.self_root_folder := "dest";
                   studip_rsync.self_sync_fully := false;
                   studip_rsync.self_use_api := true |}).
  destruct (api_listing_key_error Demo.one_course_standing self 0 VNone
              EmptyString Demo.fresh
              [Demo.slides] [] [] []
              (<["chdate" := VInt 1700000000]> (<["size" := VInt 5]>
                 (<["id" := VStr "0a1f"]>
                    (<["name" := VStr "slides.pdf"]> ∅))))
              eq_refl eq_refl) as (_ & _ & H).
  - vm_compute. reflexivity.
  - apply H; [reflexivity|reflexivity|right; reflexivity].
Defined.

(** ** Paths *)

Lemma length_app (s t : string) :
  String.length (s +:+ t) = (String.length s + String.length t)%nat.
Proof. induction s as [|c s IH]; simpl; [reflexivity|]. now rewrite IH. Qed.

Lemma app_cons (c : ascii) (s t : string) :
  String c s +:+ t = String c (s +:+ t).
Proof. reflexivity. Qed.

Lemma app_assoc_s (s t u : string) : (s +:+ t) +:+ u = s +:+ (t +:+ u).
Proof.
  induction s as [|c s IH]; [reflexivity|].
  rewrite !app_cons. now rewrite IH.
Qed.

Lemma rsplit_sep_no_sep (s : string) :
  all_chars non_sep s = true -> rsplit_sep s = (EmptyString, s).
Proof.
  induction s as [|c s IH]; simpl; [reflexivity|].
  intros [Hc Hs]%andb_true_iff. rewrite (IH Hs).
  unfold non_sep in Hc. apply negb_true_iff in Hc. now rewrite Hc.
Qed.

Lemma rsplit_sep_tail (s : string) :
  all_chars non_sep (snd (rsplit_sep s)) = true.
Proof.
  induction s as [|c s IH]; simpl; [reflexivity|].
  destruct (rsplit_sep s) as [h t]. simpl in IH.
  destruct (is_sep c) eqn:Hc; simpl; [exact IH|].
  destruct h; simpl; [|exact IH].
  unfold non_sep at 1. now rewrite Hc.
Qed.

Lemma rsplit_sep_after (h t : string) :
  all_chars non_sep t = true ->
  exists c' h', rsplit_sep (h +:+ String sep t) = (String c' h', t).
Proof.
  intros Ht. induction h as [|c h IH]; simpl.
  - rewrite (rsplit_sep_no_sep t Ht). simpl. eauto.
  - destruct IH as (c' & h' & ->). destruct (is_sep c); eauto.
Qed.

Lemma last_char_sep (b : string) :
  last_char b = Some sep -> exists b', b = b' +:+ String sep EmptyString.
Proof.
  induction b as [|c b IH]; simpl; [discriminate|].
  destruct b as [|d b].
  - intros [= ->]. now exists EmptyString.
  - intros H. destruct (IH H) as [b' ->]. now exists (String c b').
Qed.

(** The last component of a joined path is the joined name. *)
Lemma rsplit_sep_join (b x : string) :
  all_chars non_sep x = true -> snd (rsplit_sep (path_join b x)) = x.
Proof.
  intros Hx. unfold path_join.
  destruct (bool_decide (first_char x = Some sep)) eqn:Hfirst.
  - apply bool_decide_eq_true in Hfirst. destruct x as [|c x]; [discriminate|].
    simpl in Hfirst, Hx. injection Hfirst as ->. discriminate.
  - destruct (String.eqb b EmptyString) eqn:Hb; simpl.
    + apply String.eqb_eq in Hb as ->.
      change (EmptyString +:+ x) with x.
      now rewrite (rsplit_sep_no_sep x Hx).
    + destruct (bool_decide (last_char b = Some sep)) eqn:Hlast.
      * apply bool_decide_eq_true, last_char_sep in Hlast as [b' ->].
        rewrite app_assoc_s, app_cons. change (EmptyString +:+ x) with x.
        now destruct (rsplit_sep_after b' x Hx) as (c' & h' & ->).
      * now destruct (rsplit_sep_after b x Hx) as (c' & h' & ->).
Qed.

Lemma path_split_snd (p : string) :
  snd (path_split p) = snd (rsplit_sep p).
Proof. unfold path_split. now destruct (rsplit_sep p). Qed.

(** Joining more after the name is appending to the joined path. *)
Lemma path_join_app (b n s : string) :
  all_chars non_sep n = true -> first_char s <> Some sep ->
  path_join b (n +:+ s) = path_join b n +:+ s.
Proof.
  intros Hn Hs. unfold path_join.
  assert (Hn' : bool_decide (first_char n = Some sep) = false).
  { apply bool_decide_eq_false. destruct n as [|c n]; [discriminate|].
    simpl in *. intros [= ->]. discriminate. }
  assert (Hns : bool_decide (first_char (n +:+ s) = Some sep) = false).
  { apply bool_decide_eq_false. destruct n as [|c n]; [exact Hs|].
    simpl in *. intros [= ->]. discriminate. }
  rewrite Hn', Hns.
  destruct (String.eqb b EmptyString || bool_decide (last_char b = Some sep)).
  - now rewrite app_assoc_s.
  - now rewrite app_assoc_s.
Qed.

(** ** Time stamps *)

Lemma string_of_uint_digits (d : Decimal.uint) :
  all_chars isdecimal (NilEmpty.string_of_uint d) = true.
Proof. induction d; simpl; auto. Qed.

Lemma dec_digits (n : nat) : all_chars isdecimal (dec n) = true.
Proof. apply string_of_uint_digits. Qed.

Lemma dec2_digits (n : nat) : all_chars isdecimal (dec2 n) = true.
Proof.
  unfold dec2. destruct (n <? 10)%nat; [|apply dec_digits].
  simpl. apply dec_digits.
Qed.

Lemma digits_non_sep (s : string) :
  all_chars isdecimal s = true -> all_chars non_sep s = true.
Proof.
  apply all_chars_impl. intros c Hc. unfold non_sep, is_sep.
  destruct (Ascii.eqb c sep) eqn:Heq; [|reflexivity].
  apply Ascii.eqb_eq in Heq as ->. discriminate.
Qed.

Lemma strftime_non_sep (t : datetime) :
  all_chars non_sep (strftime t) = true.
Proof.
  unfold strftime.
  repeat (rewrite all_chars_app; apply andb_true_iff; split);
    try reflexivity; apply digits_non_sep;
    first [apply dec_digits | apply dec2_digits].
Qed.

Lemma old_suffix_non_sep (t : datetime) :
  all_chars non_sep (studip_rsync.old_suffix t) = true.
Proof.
  unfold studip_rsync.old_suffix.
  rewrite !all_chars_app, strftime_non_sep. reflexivity.
Qed.

(** ** Placing a download *)

Lemma moved_aside_tail (p : string) (t : datetime) :
  snd (rsplit_sep (moved_aside p t))
  = snd (rsplit_sep p) +:+ studip_rsync.old_suffix t.
Proof.
  unfold moved_aside. pose proof (rsplit_sep_tail p) as Htail.
  pose proof (path_split_snd p) as Hsnd.
  destruct (path_split p) as [base name]. simpl in Hsnd.
  rewrite <- Hsnd in *.
  apply rsplit_sep_join. rewrite all_chars_app, Htail.
  apply old_suffix_non_sep.
Qed.

Lemma moved_aside_neq (p : string) (t : datetime) : moved_aside p t <> p.
Proof.
  intros Heq. pose proof (moved_aside_tail p t) as H. rewrite Heq in H.
  apply (f_equal String.length) in H. rewrite length_app in H.
  unfold studip_rsync.old_suffix in H. simpl in H. lia.
Qed.

(** For a path written as [os.path.join] writes it, the place aside is the
    path with the suffix appended. *)
Lemma moved_aside_app (p : string) (t : datetime) :
  path_join (fst (path_split p)) (snd (path_split p)) = p ->
  moved_aside p t = p +:+ studip_rsync.old_suffix t.
Proof.
  unfold moved_aside. intros Hp.
  pose proof (rsplit_sep_tail p) as Htail. rewrite <- path_split_snd in Htail.
  destruct (path_split p) as [base name]. simpl in *.
  rewrite path_join_app; [now rewrite Hp|exact Htail|].
  unfold studip_rsync.old_suffix. simpl. discriminate.
Qed.

Lemma path_exists_Some (fs : gmap string file) (p : string) (f : file) :
  fs !! p = Some f -> path_exists fs p = true.
Proof. intros H. unfold path_exists. apply bool_decide_eq_true. eauto. Qed.

Lemma path_exists_None (fs : gmap string file) (p : string) :
  fs !! p = None -> path_exists fs p = false.
Proof.
  intros H. unfold path_exists. apply bool_decide_eq_false.
  rewrite H. now intros [? ?].
Qed.

(** The state [place] leaves when something stands at the destination. *)
Lemma place_existing (E : env) (target p : string) (w : world)
    (old staged : file) :
  let aside := moved_aside p (local (clock E (ticks w))) in
  fs w !! p = Some old -> fs w !! target = Some staged ->
  target <> p -> target <> aside ->
  studip_rsync.place E target p w
  = (Ok tt,
     {| fs := <[p := {| data := data staged;
                        mtime := epoch (clock E (S (ticks w))) |}]>
                (<[aside := old]> (delete p (fs w)));
        staging := staging w;
        last_sync := last_sync w;
        ticks := S (S (ticks w));
        events := (events w ++ [EvRename p aside]) ++ [EvCopyfile target p] |}).
Proof.
  intros aside Hold Hstaged Htp Hta.
  pose proof (moved_aside_neq p (local (clock E (ticks w)))) as Hne.
  fold aside in Hne. unfold aside, moved_aside in *. clear aside.
  unfold studip_rsync.place. destruct (path_split p) as [base name].
  set (aside := path_join base _) in *.
  unfold mbind at 1. unfold get_fs at 1.
  rewrite (path_exists_Some _ _ _ Hold).
  unfold mbind at 1. unfold mbind at 1. unfold now at 1.
  unfold os_rename, rename. cbn [fs tick]. rewrite Hold.
  unfold mbind at 1. unfold get_fs at 1. cbn [fs set_fs emit tick].
  rewrite path_exists_None.
  2:{ rewrite lookup_insert_ne by exact Hne. apply lookup_delete_eq. }
  unfold shutil_copyfile, copyfile. cbn [fs set_fs emit tick ticks].
  rewrite lookup_insert_ne by (intros Heq; apply Hta; symmetry; exact Heq).
  rewrite lookup_delete_ne by (intros Heq; apply Htp; symmetry; exact Heq).
  rewrite Hstaged.
  apply String.eqb_neq in Htp. rewrite Htp. reflexivity.
Qed.

Lemma app_inv_tail_s (s s' t : string) : s +:+ t = s' +:+ t -> s = s'.
Proof.
  revert s'. induction s as [|c s IH]; intros [|c' s'] H.
  - reflexivity.
  - apply (f_equal String.length) in H. rewrite !length_app in H.
    simpl in H. lia.
  - apply (f_equal String.length) in H. rewrite !length_app in H.
    simpl in H. lia.
  - rewrite !app_cons in H. injection H as -> H. f_equal. now apply IH.
Qed.

Lemma moved_aside_inj (p : string) (t1 t2 : datetime) :
  moved_aside p t1 = moved_aside p t2 -> strftime t1 = strftime t2.
Proof.
  intros H. apply (f_equal (fun q => snd (rsplit_sep q))) in H.
  rewrite !moved_aside_tail in H. apply String.app_inj in H.
  unfold studip_rsync.old_suffix in H. apply String.app_inj in H.
  now apply app_inv_tail_s in H.
Qed.

(** The mirror pass of strategy B is told to move replaced files aside under
    the same suffix, read from the clock once when the run starts. *)
Lemma rsync_suffix_convention (E : env) (w : world)
    (source destination : string) :
  exists rsync,
    studip_sync.RsyncWrapper_init E w = (Ok rsync, tick w)
    /\ studip_sync.suffix rsync
       = studip_rsync.old_suffix (local (clock E (ticks w)))
    /\ studip_sync.rsync_argv rsync source destination
       = ["rsync"; "--recursive"; "--checksum"; "--backup"; "-v";
          "--suffix=" +:+ studip_rsync.old_suffix (local (clock E (ticks w)));
          source; destination].
Proof. eexists. repeat split. Qed.

(** C1, as the code has it. When a file stands at the destination, [place]
    first renames it to the path aside, which for a destination written as
    [os.path.join] writes it is the destination followed by an underscore,
    the time stamp and [.old], and then copies the download to the
    destination; the file moved aside is the prior one, the destination holds
    the downloaded bytes, and no other path changes. A second placement
    whose time stamp differs from the first leaves two distinct files aside,
    the first prior content and the first download, and the second download
    at the destination. The mirror pass of strategy B is handed the same
    suffix for the files it replaces. *)
Theorem place_moves_prior_aside (E : env) (target p : string) (w : world)
    (old staged : file)
    (Hold : fs w !! p = Some old)
    (Hstaged : fs w !! target = Some staged)
    (Htarget : target <> p
               /\ target <> moved_aside p (local (clock E (ticks w)))) :
  let t1 := local (clock E (ticks w)) in
  let t2 := local (clock E (S (S (ticks w)))) in
  (forall source destination,
     exists rsync,
       studip_sync.RsyncWrapper_init E w = (Ok rsync, tick w)
       /\ studip_sync.rsync_argv rsync source destination
          = ["rsync"; "--recursive"; "--checksum"; "--backup"; "-v";
             "--suffix=" +:+ "_" +:+ strftime t1 +:+ ".old";
             source; destination])
  /\ exists w1,
    studip_rsync.place E target p w = (Ok tt, w1)
    /\ events w1
       = events w ++ [EvRename p (moved_aside p t1); EvCopyfile target p]
    /\ (path_join (fst (path_split p)) (snd (path_split p)) = p ->
        moved_aside p t1 = p +:+ "_" +:+ strftime t1 +:+ ".old")
    /\ fs w1 !! moved_aside p t1 = Some old
    /\ data <$> fs w1 !! p = Some (data staged)
    /\ (forall q, q <> p -> q <> moved_aside p t1 -> fs w1 !! q = fs w !! q)
    /\ (forall (target' : string) (staged' : file),
          fs w !! target' = Some staged' ->
          target' <> p -> target' <> moved_aside p t1 ->
          target' <> moved_aside p t2 ->
          strftime t1 <> strftime t2 ->
          exists w2,
            studip_rsync.place E target' p w1 = (Ok tt, w2)
            /\ moved_aside p t1 <> moved_aside p t2
            /\ fs w2 !! moved_aside p t1 = Some old
            /\ data <$> fs w2 !! moved_aside p t2 = Some (data staged)
            /\ data <$> fs w2 !! p = Some (data staged')).
Proof.
  intros t1 t2. destruct Htarget as [Htp Hta].
  pose proof (moved_aside_neq p t1) as Hne1.
  pose proof (moved_aside_neq p t2) as Hne2.
  subst t1 t2. split.
  { intros source destination.
    destruct (rsync_suffix_convention E w source destination)
      as (rsync & Hinit & _ & Hargv).
    exists rsync. split; [exact Hinit|exact Hargv]. }
  eexists. split; [now apply (place_existing E target p w old staged)|].
  cbn [events fs]. split; [now rewrite <- app_assoc|].
  split; [apply moved_aside_app|].
  split; [rewrite lookup_insert_ne by congruence; apply lookup_insert_eq|].
  split; [now rewrite lookup_insert_eq|].
  split.
  { intros q Hqp Hqa. rewrite !lookup_insert_ne by congruence.
    now apply lookup_delete_ne. }
  intros target' staged' Hstaged' Htp' Hta1 Hta2 Hstamp.
  match goal with
  | |- context [moved_aside p ?t1 <> moved_aside p ?t2] =>
      assert (Hne12 : moved_aside p t1 <> moved_aside p t2)
  end.
  { intros Heq. now apply Hstamp, (moved_aside_inj p). }
  eexists. split.
  { eapply (place_existing E target' p); cbn [fs ticks].
    - apply lookup_insert_eq.
    - rewrite !lookup_insert_ne by congruence.
      rewrite lookup_delete_ne by congruence. exact Hstaged'.
    - exact Htp'.
    - exact Hta2. }
  cbn [fs ticks].
  split; [exact Hne12|]. split; [|split].
  - rewrite !lookup_insert_ne by congruence.
    rewrite lookup_delete_ne by congruence.
    rewrite lookup_insert_ne by congruence. apply lookup_insert_eq.
  - rewrite lookup_insert_ne by congruence. now rewrite lookup_insert_eq.
  - now rewrite lookup_insert_eq.
Qed.

Lemma place_moves_prior_aside_witness :
  exists w1 w2,
    studip_rsync.place Demo.running "work/0a1f" "dest/a.txt"
      Demo.with_first_version
    = (Ok tt, w1)
    /\ studip_rsync.place Demo.running "work/0b2e" "dest/a.txt" w1
       = (Ok tt, w2)
    /\ data <$> fs w2 !! "dest/a.txt_2024-03-09_12+00+00.old"
       = Some "first"
    /\ data <$> fs w2 !! "dest/a.txt_2024-03-09_12+00+02.old"
       = Some "second"
    /\ data <$> fs w2 !! "dest/a.txt" = Some "third".
Proof.
  destruct (place_moves_prior_aside Demo.running "work/0a1f" "dest/a.txt"
              Demo.with_first_version
              {| data := "first"; mtime := 1700000000 |}
              {| data := "second"; mtime := 1710000000 |}
              eq_refl eq_refl)
    as [_ (w1 & Hplace & _ & _ & _ & _ & _ & Hnext)].
  - split; [discriminate|]. vm_compute. discriminate.
  - destruct (Hnext "work/0b2e" {| data := "third"; mtime := 1710000000 |}
                eq_refl)
      as (w2 & Hplace2 & _ & Hfirst & Hsecond & Hthird).
    + discriminate.
    + vm_compute. discriminate.
    + vm_compute. discriminate.
    + vm_compute. discriminate.
    + exists w1, w2. split; [exact Hplace|]. split; [exact Hplace2|].
      split; [|split].
      * change "dest/a.txt_2024-03-09_12+00+00.old"
          with (moved_aside "dest/a.txt"
                  (local (clock Demo.running
                            (ticks Demo.with_first_version)))).
        now rewrite Hfirst.
      * exact Hsecond.
      * exact Hthird.
Defined.

(** Two placements within one second: the second moves the first download
    onto the file that held the first version. Of the three contents only
    two are left; the first version is gone. *)
Lemma place_twice_same_second :
  exists w1 w2,
    studip_rsync.place Demo.standing "work/0a1f" "dest/a.txt"
      Demo.with_first_version
    = (Ok tt, w1)
    /\ studip_rsync.place Demo.standing "work/0b2e" "dest/a.txt" w1
       = (Ok tt, w2)
    /\ data <$> fs Demo.with_first_version !! "dest/a.txt" = Some "first"
    /\ data <$> fs w2
       = <["dest/a.txt" := "third"]>
           (<["dest/a.txt_2024-03-09_12+00+00.old" := "second"]>
              (<["work/0a1f" := "second"]> (<["work/0b2e" := "third"]> ∅))).
Proof.
  eexists. eexists.
  split; [vm_compute; reflexivity|].
  split; [vm_compute; reflexivity|].
  split; vm_compute; reflexivity.
Qed.

(** ** The course-name pattern *)

Lemma or_else_Some {R} (a b : option R) (x : R) :
  re.or_else a b = Some x -> a = Some x \/ b = Some x.
Proof. destruct a; simpl; auto. Qed.

Lemma or_else_is_Some {R} (a b : option R) :
  is_Some (re.or_else a b) <-> is_Some a \/ is_Some b.
Proof.
  destruct a; simpl; split; eauto.
  intros [[x [=]]|H]; exact H.
Qed.

Lemma take_app (s1 s2 : string) :
  re.take (String.length s1) (s1 +:+ s2) = s1.
Proof. induction s1 as [|c s1 IH]; simpl; [now destruct s2|]. now rewrite IH. Qed.

Lemma consumed_app (s1 s2 : string) : re.consumed (s1 +:+ s2) s2 = s1.
Proof.
  unfold re.consumed. rewrite length_app.
  replace (String.length s1 + String.length s2 - String.length s2)%nat
    with (String.length s1) by lia.
  apply take_app.
Qed.

Lemma star_sound {R} (cls : ascii -> bool) (s : string)
    (k : string -> option R) (x : R) :
  re.star cls s k = Some x ->
  exists s1 s2, s = s1 +:+ s2 /\ all_chars cls s1 = true /\ k s2 = Some x.
Proof.
  induction s as [|c s IH]; simpl.
  - intros H. now exists EmptyString, EmptyString.
  - destruct (cls c) eqn:Hc.
    + intros [H|H]%or_else_Some.
      * destruct (IH H) as (s1 & s2 & -> & Hs1 & Hk).
        exists (String c s1), s2. simpl. rewrite Hc. auto.
      * now exists EmptyString, (String c s).
    + intros H. now exists EmptyString, (String c s).
Qed.

Lemma star_complete {R} (cls : ascii -> bool) (s1 s2 : string)
    (k : string -> option R) :
  all_chars cls s1 = true -> is_Some (k s2) ->
  is_Some (re.star cls (s1 +:+ s2) k).
Proof.
  intros Hs1 Hk. induction s1 as [|c s1 IH].
  - change (EmptyString +:+ s2) with s2. destruct s2 as [|d s2]; simpl; auto.
    destruct (cls d); auto. apply or_else_is_Some. auto.
  - simpl in Hs1. apply andb_true_iff in Hs1 as [Hc Hs1].
    rewrite app_cons. simpl. rewrite Hc. apply or_else_is_Some. auto.
Qed.

(** What the matcher finds is in the language, and the groups it reports are
    the ones the text binds. *)
Lemma run_sound {R} (r : re.regex) :
  forall (s : string) (caps : re.captures)
         (k : string -> re.captures -> option R) (x : R),
    re.run r s caps k = Some x ->
    exists s1 s2 caps',
      s = s1 +:+ s2 /\ sem r s1 caps caps' /\ k s2 caps' = Some x.
Proof.
  induction r as [cls|cls|cls|cls|r1 IH1 r2 IH2|n r1 IH1|r1 IH1];
    intros s caps k x; simpl.
  - destruct s as [|c s]; [discriminate|].
    destruct (cls c) eqn:Hc; [|discriminate].
    intros H. exists (String c EmptyString), s, caps. eauto 8.
  - intros (s1 & s2 & -> & Hs1 & Hk)%star_sound.
    exists s1, s2, caps. auto.
  - destruct s as [|c s]; [discriminate|].
    destruct (cls c) eqn:Hc; [|discriminate].
    intros (s1 & s2 & -> & Hs1 & Hk)%star_sound.
    exists (String c s1), s2, caps. eauto 10.
  - destruct s as [|c s].
    + intros H. exists EmptyString, EmptyString, caps. auto.
    + destruct (cls c) eqn:Hc.
      * intros [H|H]%or_else_Some.
        -- exists (String c EmptyString), s, caps. eauto 10.
        -- exists EmptyString, (String c s), caps. auto.
      * intros H. exists EmptyString, (String c s), caps. auto.
  - intros H. apply IH1 in H as (s1 & s2 & cm & -> & Hs1 & H).
    apply IH2 in H as (s3 & s4 & c2 & -> & Hs3 & H).
    exists (s1 +:+ s3), s4, c2. rewrite app_assoc_s. eauto 10.
  - intros H. apply IH1 in H as (s1 & s2 & c' & -> & Hs1 & H).
    rewrite consumed_app in H. exists s1, s2, ((n, s1) :: c'). eauto.
  - intros H. apply IH1 in H as (s1 & s2 & cm & -> & Hs1 & H).
    apply or_else_Some in H as [H|H].
    + apply IH1 in H as (s3 & s4 & c2 & -> & Hs3 & H).
      exists (s1 +:+ s3), s4, c2. rewrite app_assoc_s. eauto 10.
    + exists s1, s2, cm. auto.
Qed.

Lemma sem_caps (r : re.regex) :
  forall s c0 c1 c0', sem r s c0 c1 -> exists c1', sem r s c0' c1'.
Proof.
  induction r as [cls|cls|cls|cls|r1 IH1 r2 IH2|n r1 IH1|r1 IH1];
    intros s c0 c1 c0'; simpl.
  - intros [_ H]. eauto.
  - intros [_ H]. eauto.
  - intros [_ H]. eauto.
  - intros [_ H]. eauto.
  - intros (s1 & s2 & cm & -> & H1 & H2).
    destruct (IH1 _ _ _ c0' H1) as [cm' H1'].
    destruct (IH2 _ _ _ cm' H2) as [c1' H2']. eauto 10.
  - intros (c' & H & _). destruct (IH1 _ _ _ c0' H) as [c'' H']. eauto.
  - intros [H|(s1 & s2 & cm & -> & H1 & H2)].
    + destruct (IH1 _ _ _ c0' H) as [c1' H']. eauto.
    + destruct (IH1 _ _ _ c0' H1) as [cm' H1'].
      destruct (IH1 _ _ _ cm' H2) as [c1' H2']. eauto 10.
Qed.

Section Completeness.

Context {R : Type}.

Lemma run_blind (r : re.regex) (k : string -> re.captures -> option R) :
  complete R r -> blind k -> blind (fun s c => re.run r s c k).
Proof.
  intros Hr Hk s c c' [x Hx].
  apply run_sound in Hx as (s1 & s2 & c1 & -> & Hsem & Hx).
  destruct (sem_caps r _ _ _ c' Hsem) as [c1' Hsem'].
  apply (Hr s1 s2 c' c1' k Hk Hsem'). apply (Hk s2 c1). eauto.
Qed.

Lemma run_complete (r : re.regex) : complete R r.
Proof.
  induction r as [cls|cls|cls|cls|r1 IH1 r2 IH2|n r1 IH1|r1 IH1];
    intros s1 s2 caps c1 k Hk; simpl.
  - intros [-> (c & -> & Hc)] Hs2. rewrite app_cons. now rewrite Hc.
  - intros [-> Hs1] Hs2. now apply star_complete.
  - intros [-> (c & s' & -> & Hc & Hs')] Hs2. rewrite app_cons, Hc.
    now apply star_complete.
  - intros [-> [->|(c & -> & Hc)]] Hs2.
    + change (EmptyString +:+ s2) with s2. destruct s2 as [|d s2]; auto.
      destruct (cls d); auto. apply or_else_is_Some. auto.
    + rewrite app_cons, Hc. apply or_else_is_Some. auto.
  - intros (a & b & cm & -> & Ha & Hb) Hs2. rewrite app_assoc_s.
    apply (IH1 a (b +:+ s2) caps cm); [|exact Ha|].
    + now apply (run_blind r2 k).
    + now apply (IH2 b s2 cm c1).
  - intros (c' & Hsem & ->) Hs2.
    apply (IH1 s1 s2 caps c'); [|exact Hsem|].
    + intros s c c'' H. revert H. apply Hk.
    + revert Hs2. apply Hk.
  - assert (Hk' : blind (fun s c => re.or_else (re.run r1 s c k) (k s c))).
    { intros s c c' H. apply or_else_is_Some in H.
      apply or_else_is_Some. destruct H as [H|H].
      - left. revert H. now apply (run_blind r1 k).
      - right. revert H. apply Hk. }
    intros [Hsem|(a & b & cm & -> & Ha & Hb)] Hs2.
    + apply (IH1 s1 s2 caps c1); [exact Hk'|exact Hsem|].
      apply or_else_is_Some. auto.
    + rewrite app_assoc_s.
      apply (IH1 a (b +:+ s2) caps cm); [exact Hk'|exact Ha|].
      apply or_else_is_Some. left. now apply (IH1 b s2 cm c1).
Qed.

End Completeness.

(** The matcher decides the pattern: it finds a match exactly when a prefix
    of the text is in the language. *)
Lemma match_iff (r : re.regex) (s : string) :
  is_Some (re.match_ r s) <-> matches r s.
Proof.
  unfold re.match_, matches. split.
  - intros [m Hm].
    apply run_sound in Hm as (s1 & s2 & m' & -> & Hsem & _). eauto.
  - intros (pre & rest & m & -> & Hsem).
    apply (run_complete r pre rest [] m); [|exact Hsem|eauto].
    intros s c c' _. eauto.
Qed.

Lemma match_sound (r : re.regex) (s : string) (m : re.captures) :
  re.match_ r s = Some m ->
  exists pre rest, s = pre +:+ rest /\ sem r pre [] m.
Proof.
  unfold re.match_. intros H.
  apply run_sound in H as (s1 & s2 & m' & -> & Hsem & [= <-]). eauto.
Qed.

Lemma pattern_same : studip_sync.pattern = studip_rsync.pattern.
Proof. reflexivity. Qed.

Lemma compact_same (m : re.captures) :
  studip_sync.compact m = studip_rsync.compact m.
Proof. reflexivity. Qed.

Lemma sem_name_tokens (s : string) (c0 c1 : re.captures) :
  sem name_tokens s c0 c1 ->
  exists inner, c1 = inner ++ c0 /\ Forall (fun e => fst e = 4%nat) inner.
Proof.
  unfold name_tokens. cbn [sem].
  intros [(c' & (s1 & s2 & cm & _ & [-> _] & s3 & s4 & cm' & _ & [-> _]
                 & [-> _]) & ->)
         |(t1 & t2 & cm & _
           & (c' & (s1 & s2 & cm1 & _ & [-> _] & s3 & s4 & cm2 & _ & [-> _]
                    & [-> _]) & ->)
           & (c'' & (s5 & s6 & cm3 & _ & [-> _] & s7 & s8 & cm4 & _ & [-> _]
                     & [-> _]) & ->))].
  - exists [(4%nat, s)]. split; [reflexivity|]. repeat constructor.
  - exists [(4%nat, t2); (4%nat, t1)]. split; [reflexivity|].
    repeat constructor.
Qed.

Lemma group_skip (inner c0 : re.captures) (n : nat) :
  Forall (fun e => fst e = 4%nat) inner -> n <> 4%nat ->
  re.group (inner ++ c0) n = re.group c0 n.
Proof.
  intros Hinner Hn. induction Hinner as [|[i g] inner Hi _ IH]; simpl.
  - reflexivity.
  - simpl in Hi. subst i. destruct n as [|[|[|[|[|n]]]]]; try exact IH.
    congruence.
Qed.

(** The text the course-name pattern matches, cut at its groups. *)
Lemma pattern_groups (pre : string) (m : re.captures) :
  sem studip_rsync.pattern pre [] m ->
  exists (number letter wordrest names filler digit line : string)
         (w1 w2 : ascii),
    pre = number +:+ String w1 EmptyString +:+ letter +:+ wordrest
          +:+ String w2 EmptyString +:+ names +:+ filler +:+ digit +:+ line
    /\ (all_chars isdecimal number = true /\ number <> EmptyString)
    /\ isspace w1 = true
    /\ (exists c, letter = String c EmptyString
                  /\ studip_rsync.type_letter c = true)
    /\ all_chars studip_rsync.non_space wordrest = true
    /\ isspace w2 = true
    /\ (exists c0 c1, sem name_tokens names c0 c1)
    /\ all_chars studip_rsync.non_digit filler = true
    /\ (digit = EmptyString
        \/ exists c, digit = String c EmptyString /\ isdecimal c = true)
    /\ studip_rsync.compact m
       = strip (number +:+ " " +:+ letter +:+ " " +:+ names +:+ digit).
Proof.
  unfold studip_rsync.pattern.
  change (re.Rep12 _) with name_tokens. cbn [sem].
  intros (number & r1 & c1 & -> & (? & [-> (d & number' & -> & Hd & Hnum)]
                                   & ->)
          & s3 & r2 & ? & -> & [-> (w1 & -> & Hw1)]
          & letter & r3 & c3 & -> & (? & [-> Hletter] & ->)
          & wordrest & r4 & ? & -> & [-> Hword]
          & s9 & r5 & ? & -> & [-> (w2 & -> & Hw2)]
          & names & r6 & c6 & -> & (c' & Hnames & ->)
          & filler & r7 & ? & -> & [-> Hfiller]
          & digit & line & c8 & -> & (? & [-> Hdigit] & ->)
          & [-> _]).
  exists (String d number'), letter, wordrest, names, filler, digit, line,
         w1, w2.
  split; [reflexivity|]. split.
  { split; [simpl; now rewrite Hd|discriminate]. }
  split; [exact Hw1|]. split; [exact Hletter|]. split; [exact Hword|].
  split; [exact Hw2|]. split; [eauto|]. split; [exact Hfiller|].
  split; [exact Hdigit|].
  destruct (sem_name_tokens _ _ _ Hnames) as (inner & -> & Hinner).
  unfold studip_rsync.compact. cbn [re.group Nat.eqb].
  pose proof (group_skip inner [(2%nat, letter); (1%nat, String d number')]
                1 Hinner ltac:(discriminate)) as G1.
  pose proof (group_skip inner [(2%nat, letter); (1%nat, String d number')]
                2 Hinner ltac:(discriminate)) as G2.
  cbn [re.group Nat.eqb] in G1, G2. rewrite G1, G2.
  reflexivity.
Qed.

(** C5, as the code has it. A title whose cleaned form has no prefix in the
    language of the course-name pattern is returned cleaned by strategy A,
    while strategy B returns [False]. A title that matches is cut into
    number, type letter, name tokens and optional digit, and both strategies
    return the number, the letter and the tokens with the digit, joined by
    blanks and stripped. *)
Theorem short_course_name_policy (title : string) :
  let cleaned := studip_rsync.clean_name title in
  (~ matches studip_rsync.pattern cleaned ->
     studip_rsync.short_course_name title = cleaned
     /\ studip_sync.short_course_name title = VBool false)
  /\ (matches studip_rsync.pattern cleaned ->
      exists (number letter wordrest names filler digit line rest : string)
             (w1 w2 : ascii),
        cleaned = (number +:+ String w1 EmptyString +:+ letter +:+ wordrest
                   +:+ String w2 EmptyString +:+ names +:+ filler +:+ digit
                   +:+ line) +:+ rest
        /\ (all_chars isdecimal number = true /\ number <> EmptyString)
        /\ isspace w1 = true
        /\ (exists c, letter = String c EmptyString
                      /\ studip_rsync.type_letter c = true)
        /\ all_chars studip_rsync.non_space wordrest = true
        /\ isspace w2 = true
        /\ (exists c0 c1, sem name_tokens names c0 c1)
        /\ all_chars studip_rsync.non_digit filler = true
        /\ (digit = EmptyString
            \/ exists c, digit = String c EmptyString /\ isdecimal c = true)
        /\ studip_rsync.short_course_name title
           = strip (number +:+ " " +:+ letter +:+ " " +:+ names +:+ digit)
        /\ studip_sync.short_course_name title
           = VStr (strip (number +:+ " " +:+ letter +:+ " " +:+ names
                          +:+ digit))).
Proof.
  intros cleaned. split.
  - intros Hno.
    assert (Hnone : re.match_ studip_rsync.pattern cleaned = None).
    { destruct (re.match_ studip_rsync.pattern cleaned) as [m|] eqn:Hm;
        [|reflexivity].
      exfalso. apply Hno, match_iff. eauto. }
    unfold studip_rsync.short_course_name, studip_sync.short_course_name.
    change (studip_sync.clean_name title) with cleaned.
    fold cleaned. rewrite pattern_same, Hnone. auto.
  - intros [m Hm]%match_iff.
    destruct (match_sound _ _ _ Hm) as (pre & rest & Hpre & Hsem).
    destruct (pattern_groups _ _ Hsem)
      as (number & letter & wordrest & names & filler & digit & line
          & w1 & w2 & -> & Hrest).
    exists number, letter, wordrest, names, filler, digit, line, rest, w1, w2.
    split; [exact Hpre|].
    destruct Hrest as (? & ? & ? & ? & ? & ? & ? & ? & Hcompact).
    repeat (split; [assumption|]).
    unfold studip_rsync.short_course_name, studip_sync.short_course_name.
    change (studip_sync.clean_name title) with cleaned.
    fold cleaned. change studip_sync.pattern with studip_rsync.pattern.
    rewrite Hm. change (studip_sync.compact m) with (studip_rsync.compact m).
    rewrite Hcompact. auto.
Qed.

(** A title without a leading number: strategy B answers [False], not the
    cleaned title, which strategy A returns. *)
Lemma short_course_name_no_fallback :
  re.match_ studip_rsync.pattern (studip_rsync.clean_name "Kolloquium: Logik")
  = None
  /\ studip_rsync.short_course_name "Kolloquium: Logik" = "Kolloquium Logik"
  /\ studip_sync.short_course_name "Kolloquium: Logik" = VBool false.
Proof. repeat split; vm_compute; reflexivity. Qed.

Example short_course_name_systems :
  studip_rsync.short_course_name "101 V Introduction to Systems 2"
  = "101 V Introduction 2"
  /\ studip_sync.short_course_name "101 V Introduction to Systems 2"
     = VStr "101 V Introduction 2".
Proof. split; vm_compute; reflexivity. Qed.

(** ** The record of the last sync *)

Lemma sync_record_emit (e : event) (w : world) :
  is_update e = false -> sync_record (emit e w) = sync_record w.
Proof.
  intros He. unfold sync_record, emit. cbn [last_sync events].
  rewrite List.filter_app. simpl. rewrite He. now rewrite app_nil_r.
Qed.

Lemma keeps_ret {A} (a : A) : keeps (ret a).
Proof. now intros w. Qed.

Lemma keeps_raise {A} (e : exn) : keeps (@raise A e).
Proof. now intros w. Qed.

Lemma keeps_lift {A} (r : result A) : keeps (lift r).
Proof. now intros w. Qed.

Lemma keeps_get_fs : keeps get_fs.
Proof. now intros w. Qed.

Lemma keeps_now (E : env) : keeps (now E).
Proof. now intros w. Qed.

Lemma keeps_bind {A B} (m : M A) (k : A -> M B) :
  keeps m -> (forall a, keeps (k a)) -> keeps (mbind m k).
Proof.
  intros Hm Hk w. unfold mbind. specialize (Hm w).
  destruct (m w) as [[a|e] w1]; simpl in *; [|exact Hm].
  now rewrite (Hk a w1).
Qed.

Lemma keeps_emit (e : event) :
  is_update e = false -> keeps (modify (emit e)).
Proof. intros He w. simpl. now apply sync_record_emit. Qed.

Lemma keeps_for_each {A} (l : list A) (f : A -> M unit) :
  (forall x, keeps (f x)) -> keeps (for_each l f).
Proof.
  intros Hf. induction l as [|x l IH]; simpl; [apply keeps_ret|].
  apply keeps_bind; [apply Hf|]. intros _. exact IH.
Qed.

Lemma keeps_if {A} (b : bool) (m1 m2 : M A) :
  keeps m1 -> keeps m2 -> keeps (if b then m1 else m2).
Proof. now destruct b. Qed.

Lemma keeps_os_rename (src dst : string) : keeps (os_rename src dst).
Proof.
  intros w. unfold os_rename. destruct (rename (fs w) src dst); simpl;
    [|reflexivity].
  now rewrite sync_record_emit.
Qed.

Lemma keeps_shutil_copyfile (E : env) (src dst : string) :
  keeps (shutil_copyfile E src dst).
Proof.
  intros w. unfold shutil_copyfile. destruct (copyfile _ _ _ _); simpl;
    [|reflexivity].
  now rewrite sync_record_emit.
Qed.

Lemma keeps_write_download (E : env) (target content : string) :
  keeps (write_download E target content).
Proof. intros w. unfold write_download. simpl. now rewrite sync_record_emit. Qed.

Lemma keeps_select_semester (E : env) : keeps (select_semester E).
Proof.
  unfold select_semester, set_semester.
  destruct (config_semester (CONFIG E)) as [sem|].
  - apply keeps_if.
    + apply keeps_bind; [now apply keeps_emit|]. intros _. apply keeps_ret.
    + destruct (get_semester_id _ _); [|apply keeps_ret].
      apply keeps_bind; [now apply keeps_emit|]. intros _. apply keeps_ret.
  - apply keeps_if; [|apply keeps_ret].
    apply keeps_bind; [now apply keeps_emit|]. intros _. apply keeps_ret.
Qed.

Create HintDb keeps.

#[local] Hint Resolve keeps_ret keeps_raise keeps_lift keeps_get_fs keeps_now
  keeps_os_rename keeps_shutil_copyfile keeps_write_download
  keeps_select_semester : keeps.

Ltac keeps_step :=
  first
    [ apply keeps_bind; [|intros ?]
    | apply keeps_if
    | apply keeps_emit; reflexivity
    | solve [auto with keeps] ].

Lemma keeps_place (E : env) (target p : string) :
  keeps (studip_rsync.place E target p).
Proof.
  unfold studip_rsync.place, os_makedirs. destruct (path_split p).
  repeat keeps_step.
Qed.

Lemma keeps_sync_file (E : env) (self : studip_rsync.CourseRSync)
    (rel : string) (file_data : gmap string value) :
  keeps (studip_rsync.sync_file E self rel file_data).
Proof.
  unfold studip_rsync.sync_file, plugins_hook.
  repeat keeps_step.
  match goal with |- keeps (match ?x with _ => _ end) => destruct x end;
    repeat keeps_step.
  apply keeps_place.
Qed.

Lemma keeps_download_recursive (E : env) (self : studip_rsync.CourseRSync)
    (depth : nat) :
  forall folder_id rel,
    keeps (studip_rsync.download_recursive E self depth folder_id rel).
Proof.
  induction depth as [|depth IH]; intros folder_id rel; simpl.
  - apply keeps_raise.
  - intros w.
    destruct (if studip_rsync.self_use_api self then _ else _)
      as [[files folders]|e].
    + revert w. repeat keeps_step.
      * apply keeps_for_each. intros x. apply keeps_sync_file.
      * apply keeps_for_each. intros x. repeat keeps_step.
    + now destruct e.
Qed.

Lemma keeps_download (E : env) (self : studip_rsync.CourseRSync)
    (depth : nat) : keeps (studip_rsync.download E self depth).
Proof.
  intros w. unfold studip_rsync.download.
  destruct (studip_rsync.course_has_new_files E self w) as [[|]|e];
    try reflexivity.
  apply keeps_download_recursive.
Qed.

Lemma keeps_rsync_sync_files (E : env) (sync_fully use_api : bool)
    (depth : nat) (c : course) (save : string) (status : Z) :
  keeps (studip_rsync.sync_files E sync_fully use_api depth c save status).
Proof.
  intros w. unfold studip_rsync.sync_files.
  match goal with
  | |- context [studip_rsync.download E ?self depth w] =>
      pose proof (keeps_download E self depth w) as H;
      destruct (studip_rsync.download E self depth w) as [[[]|e] w']
  end; [exact H|].
  now destruct e.
Qed.

Lemma keeps_rsync_sync_media (E : env) (c : course) (save : string)
    (status : Z) : keeps (studip_rsync.sync_media E c save status).
Proof.
  intros w. unfold studip_rsync.sync_media.
  destruct (download_media _ _ _ _) as [[]|e]; [reflexivity|].
  destruct e; try reflexivity. now destruct (negb (status =? 0)).
Qed.

Lemma keeps_rsync_sync_course (E : env) (sync_fully use_api : bool)
    (depth : nat) (c : course) (status : Z) :
  keeps (studip_rsync.sync_course E sync_fully use_api depth c status).
Proof.
  unfold studip_rsync.sync_course. repeat keeps_step.
  - apply keeps_rsync_sync_files.
  - apply keeps_rsync_sync_media.
Qed.

Lemma keeps_rsync_sync_courses (E : env) (sync_fully use_api : bool)
    (depth : nat) (courses : list course) :
  forall status,
    keeps (studip_rsync.sync_courses E sync_fully use_api depth courses
             status).
Proof.
  induction courses as [|c rest IH]; intros status; simpl.
  - apply keeps_ret.
  - apply keeps_bind; [apply keeps_rsync_sync_course|]. intros st. apply IH.
Qed.

Lemma rsync_sync_course_status (E : env) (sync_fully use_api : bool)
    (depth : nat) (c : course) (status st : Z) (w w' : world) :
  studip_rsync.sync_course E sync_fully use_api depth c status w
  = (Ok st, w') ->
  st = status \/ st = 2.
Proof.
  unfold studip_rsync.sync_course, mbind, lift, ret.
  destruct (ignored E c) as [[|]|e]; try congruence.
  - intros [= <- _]. auto.
  - destruct (studip_rsync.get_course_save_as _ c) as [save|e];
      [|discriminate].
    assert (Hfiles : forall w1 st1 w2,
               (if configured (files_destination (CONFIG E))
                then studip_rsync.sync_files E sync_fully use_api depth c
                       save status
                else fun w => (Ok status, w)) w1 = (Ok st1, w2) ->
               st1 = status).
    { intros w1 st1 w2. destruct (configured _); [|congruence].
      unfold studip_rsync.sync_files.
      destruct (studip_rsync.download _ _ _ _) as [[[]|e] w3];
        [congruence|]. destruct e; congruence. }
    match goal with
    | |- context [(if configured ?d then ?a else ?b) w] =>
        destruct ((if configured d then a else b) w) as [[st1|e] w1] eqn:Hf
    end; [|discriminate].
    apply Hfiles in Hf as ->.
    destruct (configured (media_destination (CONFIG E)));
      [|intros [= <- _]; auto].
    unfold studip_rsync.sync_media.
    destruct (download_media _ _ _ _) as [[]|e];
      [intros [= <- _]; auto|].
    destruct e; try discriminate; try (intros [= <- _]; auto).
    destruct (negb (status =? 0)); [discriminate|]. intros [= <- _]. auto.
Qed.

Lemma rsync_sync_courses_sticky (E : env) (sync_fully use_api : bool)
    (depth : nat) (courses : list course) :
  forall status st w w',
    status <> 0 ->
    studip_rsync.sync_courses E sync_fully use_api depth courses status w
    = (Ok st, w') ->
    st <> 0.
Proof.
  induction courses as [|c rest IH]; intros status st w w' Hstatus; simpl.
  - unfold ret. congruence.
  - unfold mbind.
    destruct (studip_rsync.sync_course _ _ _ _ c status w)
      as [[st1|e] w1] eqn:Hc; [|discriminate].
    apply rsync_sync_course_status in Hc. apply IH. lia.
Qed.

Lemma keeps_bad_zip_file_handler {A} (m : M A) :
  keeps m -> keeps (studip_sync.bad_zip_file_handler m).
Proof.
  intros H w. specialize (H w). unfold studip_sync.bad_zip_file_handler.
  now destruct (m w) as [[a|[]] w'].
Qed.

Lemma keeps_extract (E : env) (basedir archive : string) (dest : value)
    (cleanup : bool) :
  keeps (studip_sync.extract E basedir archive dest cleanup).
Proof.
  unfold studip_sync.extract. apply keeps_bad_zip_file_handler.
  destruct (negb (is_zipfile E archive)); [apply keeps_raise|].
  apply keeps_bind; [apply keeps_lift|]. intros path.
  destruct dest as [| | |name]; try apply keeps_raise.
  intros w. destruct (extractall E archive _) as [extracted|e];
    [|reflexivity].
  destruct cleanup; [|reflexivity].
  destruct extracted as [es|]; [|reflexivity].
  now destruct (studip_sync.cleanup_extracted E es) as [[[]|e] es'].
Qed.

Lemma keeps_sync_sync_files (E : env) (sync_fully : bool) (c : course)
    (status : Z) : keeps (studip_sync.sync_files E sync_fully c status).
Proof.
  intros w. unfold studip_sync.sync_files.
  match goal with
  | |- context [mbind ?m ?k w] =>
      assert (H : keeps (mbind m k));
      [|specialize (H w); destruct (mbind m k w) as [[[]|e] w']]
  end.
  - apply keeps_bind; [apply keeps_if; auto with keeps|]. intros changed.
    apply keeps_if; [|apply keeps_ret].
    apply keeps_bind; [apply keeps_lift|]. intros zip_location.
    apply keeps_bind; [apply keeps_extract|]. intros _. apply keeps_ret.
  - exact H.
  - now destruct e.
Qed.

Lemma keeps_sync_sync_media (E : env) (c : course) (status : Z) :
  keeps (studip_sync.sync_media E c status).
Proof.
  intros w. unfold studip_sync.sync_media.
  destruct (path_join_value _ _) as [dir|e]; [|reflexivity].
  destruct (download_media _ _ _ _) as [[]|e]; [reflexivity|].
  destruct e; try reflexivity. now destruct (negb (status =? 0)).
Qed.

Lemma keeps_sync_sync_course (E : env) (sync_fully : bool) (c : course)
    (status : Z) : keeps (studip_sync.sync_course E sync_fully c status).
Proof.
  unfold studip_sync.sync_course. repeat keeps_step.
  - apply keeps_sync_sync_files.
  - apply keeps_sync_sync_media.
Qed.

Lemma keeps_sync_sync_courses (E : env) (sync_fully : bool)
    (courses : list course) :
  forall status,
    keeps (studip_sync.sync_courses E sync_fully courses status).
Proof.
  induction courses as [|c rest IH]; intros status; simpl.
  - apply keeps_ret.
  - apply keeps_bind; [apply keeps_sync_sync_course|]. intros st. apply IH.
Qed.

Lemma sync_sync_files_status (E : env) (sync_fully : bool) (c : course)
    (status st : Z) (w w' : world) :
  studip_sync.sync_files E sync_fully c status w = (Ok st, w') ->
  st = status \/ st = 2.
Proof.
  unfold studip_sync.sync_files.
  match goal with
  | |- context [mbind ?m ?k w] => destruct (mbind m k w) as [[[]|e] w1]
  end.
  - intros [= <- _]. auto.
  - destruct e; try discriminate; intros [= <- _]; auto.
Qed.

Lemma sync_sync_media_status (E : env) (c : course) (status st : Z)
    (w w' : world) :
  studip_sync.sync_media E c status w = (Ok st, w') ->
  st = status \/ st = 2.
Proof.
  unfold studip_sync.sync_media.
  destruct (path_join_value _ _) as [dir|e]; [|discriminate].
  destruct (download_media _ _ _ _) as [[]|e]; [intros [= <- _]; auto|].
  destruct e; try discriminate; try (intros [= <- _]; auto).
  destruct (negb (status =? 0)); [discriminate|]. intros [= <- _]. auto.
Qed.

Lemma sync_sync_course_status (E : env) (sync_fully : bool) (c : course)
    (status st : Z) (w w' : world) :
  studip_sync.sync_course E sync_fully c status w = (Ok st, w') ->
  st = status \/ st = 2.
Proof.
  unfold studip_sync.sync_course, mbind, lift, ret.
  destruct (studip_sync.shorten c) as [c'|e]; [|discriminate].
  destruct (ignored E c') as [[|]|e]; try congruence.
  - intros [= <- _]. auto.
  - destruct (configured (files_destination (CONFIG E))).
    + destruct (studip_sync.sync_files E sync_fully c' status w)
        as [[st1|e] w1] eqn:Hf; [|discriminate].
      apply sync_sync_files_status in Hf.
      destruct (configured (media_destination (CONFIG E))).
      * intros Hm%sync_sync_media_status. lia.
      * intros [= <- _]. exact Hf.
    + destruct (configured (media_destination (CONFIG E))).
      * apply sync_sync_media_status.
      * intros [= <- _]. auto.
Qed.

Lemma sync_sync_courses_sticky (E : env) (sync_fully : bool)
    (courses : list course) :
  forall status st w w',
    status <> 0 ->
    studip_sync.sync_courses E sync_fully courses status w = (Ok st, w') ->
    st <> 0.
Proof.
  induction courses as [|c rest IH]; intros status st w w' Hstatus; simpl.
  - unfold ret. congruence.
  - unfold mbind.
    destruct (studip_sync.sync_course _ _ c status w)
      as [[st1|e] w1] eqn:Hc; [|discriminate].
    apply sync_sync_course_status in Hc. apply IH. lia.
Qed.

Lemma gated_return (E : env) (w w1 : world) (st : Z) :
  sync_record w1 = sync_record w -> st <> 0 -> gated E w (Ok st, w1).
Proof.
  intros H Hst. unfold gated. simpl. destruct st; [congruence|exact H..].
Qed.

Lemma gated_raise (E : env) (w w1 : world) (e : exn) :
  sync_record w1 = sync_record w -> gated E w (Raise e, w1).
Proof. intros H. exact H. Qed.

(** The end of [StudIPRSync.sync], after the course loop. *)
Lemma gated_rsync_end (E : env) (w w3 : world) (st : Z) :
  sync_record w3 = sync_record w ->
  gated E w
    ((do _ <- set_semester (Some "current");
      do _ <- (if configured (files_destination (CONFIG E)) && (st =? 0)
               then do t <- now E; modify (update_last_sync (epoch t))
               else ret tt);
      ret st) w3).
Proof.
  intros H.
  unfold gated, clean_run, advanced, mbind, set_semester, modify, ret, now,
    update_last_sync, emit, tick.
  injection H as Hlast Hupd.
  destruct (configured (files_destination (CONFIG E))); simpl.
  - destruct st; simpl.
    + split; [reflexivity|].
      rewrite !List.filter_app. simpl. now rewrite app_nil_r, Hupd.
    + unfold sync_record. simpl. rewrite List.filter_app. simpl.
      now rewrite app_nil_r, Hlast, Hupd.
    + unfold sync_record. simpl. rewrite List.filter_app. simpl.
      now rewrite app_nil_r, Hlast, Hupd.
  - unfold sync_record. simpl. rewrite List.filter_app. simpl.
    rewrite app_nil_r, Hlast, Hupd. now destruct st.
Qed.

(** The end of [StudipSync.sync], after the course loop. *)
Lemma gated_sync_end (E : env) (w w3 : world) (st : Z)
    (rsync : studip_sync.RsyncWrapper) :
  sync_record w3 = sync_record w ->
  gated E w
    ((do _ <- set_semester (Some "current");
      do _ <- (if configured (files_destination (CONFIG E)) then
                 do _ <- studip_sync.RsyncWrapper_sync rsync
                           (path_join (workdir E) "extracted" +:+ "/")
                           (dir_of (files_destination (CONFIG E)));
                 if st =? 0
                 then do t <- now E; modify (update_last_sync (epoch t))
                 else ret tt
               else ret tt);
      ret st) w3).
Proof.
  intros H.
  unfold gated, clean_run, advanced, mbind, set_semester, modify, ret, now,
    studip_sync.RsyncWrapper_sync, update_last_sync, emit, tick.
  injection H as Hlast Hupd.
  destruct (configured (files_destination (CONFIG E))); simpl.
  - destruct st; simpl.
    + split; [reflexivity|].
      rewrite !List.filter_app. simpl. now rewrite !app_nil_r, Hupd.
    + unfold sync_record. simpl. rewrite !List.filter_app. simpl.
      now rewrite !app_nil_r, Hlast, Hupd.
    + unfold sync_record. simpl. rewrite !List.filter_app. simpl.
      now rewrite !app_nil_r, Hlast, Hupd.
  - unfold sync_record. simpl. rewrite List.filter_app. simpl.
    rewrite app_nil_r, Hlast, Hupd. now destruct st.
Qed.

Lemma gated_rsync_sync (E : env) (sync_fully sync_recent use_api : bool)
    (depth : nat) (w : world) :
  gated E w (studip_rsync.sync E sync_fully sync_recent use_api depth w).
Proof.
  unfold studip_rsync.sync. unfold mbind at 1. unfold plugins_hook, modify.
  set (w1 := emit (EvHook "hook_start" []) w).
  assert (H1 : sync_record w1 = sync_record w)
    by now apply sync_record_emit.
  destruct (login (the_session E)) as [[]|e].
  2:{ destruct e; first [now apply gated_return | now apply gated_raise]. }
  unfold mbind at 1. pose proof (keeps_select_semester E w1) as H2.
  destruct (select_semester E w1) as [[go_on|e] w2]; simpl in H2;
    [|apply gated_raise; congruence].
  destruct go_on; simpl; [|apply gated_return; [congruence|discriminate]].
  destruct (get_courses (the_session E) sync_recent) as [courses|e].
  2:{ destruct e;
        first [ apply gated_return; [congruence|discriminate]
              | apply gated_raise; congruence ]. }
  unfold mbind at 1.
  pose proof (keeps_rsync_sync_courses E sync_fully use_api depth courses 0 w2)
    as H3.
  destruct (studip_rsync.sync_courses _ _ _ _ courses 0 w2) as [[st|e] w3];
    simpl in H3; [|apply gated_raise; congruence].
  apply gated_rsync_end. congruence.
Qed.

Lemma mbind_RsyncWrapper_init {B} (E : env)
    (k : studip_sync.RsyncWrapper -> M B) (w : world) :
  mbind (studip_sync.RsyncWrapper_init E) k w
  = k {| studip_sync.suffix :=
           "_" +:+ strftime (local (clock E (ticks w))) +:+ ".old" |}
      (tick w).
Proof. reflexivity. Qed.

Lemma gated_sync_sync (E : env) (sync_fully sync_recent : bool) (w : world) :
  gated E w (studip_sync.sync E sync_fully sync_recent w).
Proof.
  unfold studip_sync.sync. unfold mbind at 1. unfold plugins_hook, modify.
  rewrite mbind_RsyncWrapper_init.
  set (w1 := tick (emit (EvHook "hook_start" []) w)).
  set (rsync := {| studip_sync.suffix := _ |}).
  assert (H1 : sync_record w1 = sync_record w)
    by (unfold w1; now rewrite <- (sync_record_emit (EvHook "hook_start" []) w)).
  destruct (login (the_session E)) as [[]|e].
  2:{ destruct e; first [now apply gated_return | now apply gated_raise]. }
  unfold mbind at 1. pose proof (keeps_select_semester E w1) as H2.
  destruct (select_semester E w1) as [[go_on|e] w2]; simpl in H2;
    [|apply gated_raise; congruence].
  destruct go_on; simpl; [|apply gated_return; [congruence|discriminate]].
  destruct (get_courses (the_session E) sync_recent) as [courses|e].
  2:{ destruct e;
        first [ apply gated_return; [congruence|discriminate]
              | apply gated_raise; congruence ]. }
  unfold mbind at 1.
  pose proof (keeps_sync_sync_courses E sync_fully courses 0 w2) as H3.
  destruct (studip_sync.sync_courses _ _ courses 0 w2) as [[st|e] w3] eqn:Hl;
    simpl in H3; [|apply gated_raise; congruence].
  apply (gated_sync_end E w w3 st rsync). congruence.
Qed.

(** C7. In both strategies the stored time stamp is set to the reading of the
    clock at the end of the run exactly when the run returns status zero and
    a files destination is configured; in every other run, also one that
    ends with an exception, the stored time stamp and the calls of
    [update_last_sync] are the ones from before. A status that is not zero
    stays so to the end of the course loop. *)
Theorem last_sync_gate (E : env) (sync_fully sync_recent use_api : bool)
    (depth : nat) (w : world) :
  gated E w (studip_rsync.sync E sync_fully sync_recent use_api depth w)
  /\ gated E w (studip_sync.sync E sync_fully sync_recent w)
  /\ (forall courses status st w1 w2,
        status <> 0 ->
        studip_rsync.sync_courses E sync_fully use_api depth courses status w1
        = (Ok st, w2) ->
        st <> 0)
  /\ (forall courses status st w1 w2,
        status <> 0 ->
        studip_sync.sync_courses E sync_fully courses status w1
        = (Ok st, w2) ->
        st <> 0).
Proof.
  split; [apply gated_rsync_sync|]. split; [apply gated_sync_sync|].
  split.
  - intros courses status st w1 w2.
    apply rsync_sync_courses_sticky.
  - intros courses status st w1 w2.
    apply sync_sync_courses_sticky.
Qed.

(** A clean run of strategy A over one course, with the listing that is not
    the API's: the file is fetched and placed, and the time stamp moves to
    the reading of the clock. *)
Example rsync_clean_run :
  exists w',
    studip_rsync.sync Demo.one_course false false false 3 Demo.fresh
    = (Ok 0, w')
    /\ data <$> fs w' !! "dest/101 V Introduction 2/slides.pdf"
       = Some "12345"
    /\ last_sync w' = 1710000002
    /\ events w'
       = [EvHook "hook_start" []; EvDownload "work/0a1f";
          EvMakedirs "dest/101 V Introduction 2";
          EvCopyfile "work/0a1f" "dest/101 V Introduction 2/slides.pdf";
          EvHook "hook_file_download_successful"
            [VStr "slides.pdf"; VStr "101 V Introduction to Systems 2";
             VStr "dest/101 V Introduction 2/slides.pdf"];
          EvSetSemester (Some "current"); EvUpdateLastSync 1710000002].
Proof.
  eexists. split; [vm_compute; reflexivity|].
  split; [vm_compute; reflexivity|].
  split; vm_compute; reflexivity.
Qed.

(** ** Failures in the course loop *)

(** The files block of strategy B never lets a download or extraction
    failure out. *)
Lemma sync_sync_files_recovers (E : env) (sync_fully : bool) (c : course)
    (status : Z) (w : world) :
  match fst (studip_sync.sync_files E sync_fully c status w) with
  | Raise (DownloadError _) | Raise (ExtractionError _)
  | Raise MissingFeatureError => False
  | _ => True
  end.
Proof.
  unfold studip_sync.sync_files.
  match goal with
  | |- context [mbind ?m ?k w] => destruct (mbind m k w) as [[[]|e] w1]
  end; [exact I|].
  now destruct e.
Qed.

(** In strategy A a [DownloadError] of the file sync of a course ends the
    course loop. *)
Lemma rsync_download_error_ends_loop (E : env) (sync_fully use_api : bool)
    (depth : nat) (c : course) (rest : list course) (status : Z)
    (w w' : world) (save msg : string) :
  ignored E c = Ok false ->
  studip_rsync.get_course_save_as (CONFIG E) c = Ok save ->
  configured (files_destination (CONFIG E)) = true ->
  studip_rsync.download E
    {| studip_rsync.self_course_id := course_id c;
       studip_rsync.self_course_save_as := save_as c;
       studip_rsync.self_root_folder :=
         path_join (dir_of (files_destination (CONFIG E))) save;
       studip_rsync.self_sync_fully := sync_fully;
       studip_rsync.self_use_api := use_api |} depth w
  = (Raise (DownloadError msg), w') ->
  studip_rsync.sync_courses E sync_fully use_api depth (c :: rest) status w
  = (Raise (DownloadError msg), w').
Proof.
  intros Hignored Hsave Hfiles Hdownload.
  cbn [studip_rsync.sync_courses]. unfold mbind at 1.
  unfold studip_rsync.sync_course. unfold mbind at 1. unfold lift at 1.
  rewrite Hignored. unfold mbind at 1. unfold lift at 1. rewrite Hsave.
  rewrite Hfiles. unfold mbind at 1. unfold studip_rsync.sync_files.
  now rewrite Hdownload.
Qed.

(** In strategy B a failed download or extraction of the archive of a course
    sets the status to 2, and the loop goes on with the next course. *)
Lemma sync_download_error_goes_on (E : env) (sync_fully : bool)
    (c c' : course) (rest : list course) (status : Z) (w : world)
    (e : exn) :
  studip_sync.shorten c = Ok c' ->
  ignored E c' = Ok false ->
  configured (files_destination (CONFIG E)) = true ->
  configured (media_destination (CONFIG E)) = false ->
  (sync_fully = true
   \/ check_course_new_files (the_session E) (course_id c') (last_sync w)
      = Ok true) ->
  (download (the_session E) (course_id c') (path_join (workdir E) "zips")
     (sync_only c') = Raise e
   /\ exists msg, e = DownloadError msg)
  \/ (exists zip,
        download (the_session E) (course_id c') (path_join (workdir E) "zips")
          (sync_only c') = Ok zip
        /\ is_zipfile E zip = false) ->
  studip_sync.sync_courses E sync_fully (c :: rest) status w
  = studip_sync.sync_courses E sync_fully rest 2 w.
Proof.
  intros Hshort Hignored Hfiles Hmedia Hnew Hfail.
  cbn [studip_sync.sync_courses]. unfold mbind at 1.
  unfold studip_sync.sync_course. unfold mbind at 1. unfold lift at 1.
  rewrite Hshort. unfold mbind at 1. unfold lift at 1. rewrite Hignored.
  rewrite Hfiles, Hmedia. unfold mbind at 1.
  assert (Hblock : studip_sync.sync_files E sync_fully c' status w
                   = (Ok 2, w)).
  { unfold studip_sync.sync_files.
    assert (Hchanged :
              (if sync_fully then ret true
               else lift (check_course_new_files (the_session E)
                            (course_id c') (last_sync w))) w = (Ok true, w)).
    { destruct Hnew as [->|Hnew]; [reflexivity|].
      destruct sync_fully; [reflexivity|]. unfold lift. now rewrite Hnew. }
    unfold mbind at 1. rewrite Hchanged.
    unfold mbind at 1. unfold lift at 1.
    destruct Hfail as [[-> [msg ->]]|(zip & -> & Hzip)]; [reflexivity|].
    unfold mbind at 1. unfold studip_sync.extract. now rewrite Hzip. }
  rewrite Hblock. reflexivity.
Qed.

(** C3 at the failing input. Strategy A, two courses, the download of the
    first file three bytes longer than advertised: the run ends with the
    [DownloadError] itself, no status is returned, and the second course is
    never listed. Strategy B, two courses, the archive of the first failing:
    the run returns status 2 and the second course is extracted. *)
Theorem download_failure_in_both_strategies :
  (exists w',
     studip_rsync.sync Demo.oversized false false false 3 Demo.fresh
     = (Raise (DownloadError "File size didn't match expected file size"), w')
     /\ events w' = [EvHook "hook_start" []; EvDownload "work/0a1f"])
  /\ (exists w',
        studip_sync.sync Demo.first_fails true false Demo.fresh = (Ok 2, w')
        /\ staging w'
           = [("102 V Linear Algebra 1",
               Dir [("notes.txt", File "notes");
                    ("week1", Dir [("slides.pdf", File "slides")])])]).
Proof.
  split.
  - eexists. split; vm_compute; reflexivity.
  - eexists. split; vm_compute; reflexivity.
Qed.

(** ** A title the pattern does not match, in strategy B *)

Lemma sync_sync_media_type_error (E : env) (c : course) (status : Z)
    (w : world) :
  studip_sync.sync_media E (set_save_as c (VBool false)) status w
  = (Raise TypeError, w).
Proof. reflexivity. Qed.

Lemma sync_sync_files_type_error (E : env) (sync_fully : bool) (c : course)
    (status : Z) (w : world) (zip : string) :
  sync_fully = true
  \/ check_course_new_files (the_session E) (course_id c) (last_sync w)
     = Ok true ->
  download (the_session E) (course_id c) (path_join (workdir E) "zips")
    (sync_only c) = Ok zip ->
  is_zipfile E zip = true ->
  studip_sync.sync_files E sync_fully (set_save_as c (VBool false)) status w
  = (Raise TypeError, w).
Proof.
  intros Hnew Hzip Hopen. unfold studip_sync.sync_files.
  cbn [course_id sync_only save_as set_save_as].
  assert (Hchanged :
            (if sync_fully then ret true
             else lift (check_course_new_files (the_session E) (course_id c)
                          (last_sync w))) w = (Ok true, w)).
  { destruct Hnew as [->|Hnew]; [reflexivity|].
    destruct sync_fully; [reflexivity|]. unfold lift. now rewrite Hnew. }
  unfold mbind at 1. rewrite Hchanged.
  unfold mbind at 1. unfold lift at 1. rewrite Hzip.
  unfold mbind at 1. unfold studip_sync.extract. rewrite Hopen. reflexivity.
Qed.

(** C6, as the code has it. For a course whose title the pattern does not
    match, strategy B overwrites [save_as] with [False]. If the course is
    not on the ignore list by its identifier and the name is then used as
    text, the turn of the course ends the whole loop with a [TypeError]. *)
Theorem unmatched_title_type_error (E : env) (sync_fully : bool) (c : course)
    (title : string) (rest : list course) (status : Z) (w : world)
    (Htitle : save_as c = VStr title)
    (Hunmatched : ~ matches studip_sync.pattern
                      (studip_sync.clean_name title))
    (Hlisted : course_id c ∉ ignore_courses (CONFIG E)) :
  studip_sync.shorten c = Ok (set_save_as c (VBool false))
  /\ (uses_name E sync_fully c status w ->
      exists w',
        studip_sync.sync_courses E sync_fully (c :: rest) status w
        = (Raise TypeError, w')).
Proof.
  assert (Hshort : studip_sync.shorten c = Ok (set_save_as c (VBool false))).
  { unfold studip_sync.shorten, studip_sync.short_course_name.
    rewrite Htitle.
    destruct (re.match_ _ _) as [m|] eqn:Hm; [|reflexivity].
    exfalso. apply Hunmatched, match_iff. eauto. }
  split; [exact Hshort|]. intros Huse.
  cbn [studip_sync.sync_courses]. unfold mbind at 1.
  unfold studip_sync.sync_course. unfold mbind at 1. unfold lift at 1.
  rewrite Hshort. unfold mbind at 1. unfold lift at 1. unfold ignored.
  cbn [course_id save_as set_save_as].
  rewrite bool_decide_eq_false_2 by exact Hlisted.
  destruct Huse as [(ig & igs & Hig & [m Hm])
                   |[(Hig & Hfiles & Hnew & zip & Hzip & Hopen)
                    |(Hig & Hmedia & Hfiles)]];
    rewrite Hig; cbn [any_match].
  - rewrite Hm. eauto.
  - rewrite Hfiles. unfold mbind at 1.
    rewrite (sync_sync_files_type_error E sync_fully c status w zip Hnew
               Hzip Hopen).
    eauto.
  - rewrite Hmedia. destruct Hfiles as [Hfiles|Hfiles].
    + rewrite Hfiles. unfold mbind at 1. unfold ret at 1.
      rewrite sync_sync_media_type_error. eauto.
    + destruct (configured (files_destination (CONFIG E))).
      * unfold mbind at 1.
        destruct (studip_sync.sync_files E sync_fully _ status w)
          as [[st|e] w1]; [|discriminate].
        rewrite sync_sync_media_type_error. eauto.
      * unfold mbind at 1. unfold ret at 1.
        rewrite sync_sync_media_type_error. eauto.
Qed.

Lemma colloquium_unmatched :
  ~ matches studip_sync.pattern (studip_sync.clean_name "Kolloquium").
Proof.
  intros H. apply match_iff in H as [m Hm]. vm_compute in Hm. discriminate.
Qed.

Lemma unmatched_title_type_error_witness :
  exists w',
    studip_sync.sync_courses Demo.with_ignore_list false
      [Demo.colloquium; Demo.systems] 0 Demo.fresh
    = (Raise TypeError, w').
Proof.
  destruct (unmatched_title_type_error Demo.with_ignore_list false
              Demo.colloquium "Kolloquium" [Demo.systems] 0 Demo.fresh
              eq_refl colloquium_unmatched) as [_ H].
  - vm_compute. intros Hin. inversion Hin as [|? ? ? Hin']; inversion Hin'.
  - apply H. left. exists "Tutorium*", []. split; [reflexivity|].
    vm_compute. eauto.
Defined.

(** Nothing new on the remote, no ignore list, no media destination: the
    course whose title the pattern does not match gets [False] for a name
    and passes without an error; the run returns status zero. *)
Lemma unmatched_title_passes :
  studip_sync.short_course_name "Kolloquium" = VBool false
  /\ exists w',
       studip_sync.sync Demo.nothing_new false false Demo.fresh = (Ok 0, w').
Proof.
  split; [vm_compute; reflexivity|].
  eexists. vm_compute. reflexivity.
Qed.

(** ** Cleaning up after an extraction *)

(** An archive with a wrapper directory: the manifest goes, the wrapper is
    flattened, nothing empty is left. *)
Example cleanup_wrapped_archive :
  studip_sync.cleanup_extracted Demo.one_course Demo.wrapped_archive
  = (Ok tt,
     Some [("notes.txt", File "notes");
           ("week1", Dir [("slides.pdf", File "slides")])]).
Proof. vm_compute. reflexivity. Qed.

(** A wrapper with a hidden entry: the pattern of the listing passes over
    it, so the wrapper is not empty when it is to be removed, and the
    cleanup ends with an [OSError]. *)
Example cleanup_hidden_entry :
  studip_sync.cleanup_extracted Demo.unpacking_nested
    [("Course files", Dir [("notes.txt", File "notes");
                           (".DS_Store", File "meta")])]
  = (Raise OSError,
     Some [("Course files", Dir [(".DS_Store", File "meta")]);
           ("notes.txt", File "notes")]).
Proof. vm_compute. reflexivity. Qed.

(** C8 at the failing input. The wrapper holds a directory whose only entry
    is an empty directory. The walk from the top removes the inner one after
    it has passed the outer one, which stays behind empty. *)
Theorem cleanup_leaves_empty_directory :
  studip_sync.cleanup_extracted Demo.unpacking_nested
    Demo.nested_empty_archive
  = (Ok tt, Some [("notes.txt", File "notes"); ("drafts", Dir [])])
  /\ has_empty_dir (Dir [("notes.txt", File "notes"); ("drafts", Dir [])])
     = true
  /\ studip_sync.extract Demo.unpacking_nested "work/extracted"
       "work/zips/course.zip" (VStr "101 V Introduction 2") true Demo.fresh
     = (Ok "work/extracted/101 V Introduction 2",
        set_staging Demo.fresh
          [("101 V Introduction 2",
            Dir [("notes.txt", File "notes"); ("drafts", Dir [])])]).
Proof.
  split; [vm_compute; reflexivity|].
  split; vm_compute; reflexivity.
Qed.

(** ** When two time stamps differ *)

Lemma dec_inj (n m : nat) : dec n = dec m -> n = m.
Proof.
  unfold dec. intros H. apply Unsigned.to_uint_inj.
  pose proof (NilEmpty.usu (Nat.to_uint n)) as Hn.
  pose proof (NilEmpty.usu (Nat.to_uint m)) as Hm.
  rewrite H in Hn. congruence.
Qed.

Lemma dec2_inj (n m : nat) :
  (n < 100)%nat -> (m < 100)%nat -> dec2 n = dec2 m -> n = m.
Proof.
  intros Hn Hm H.
  assert (Hall : dec2_distinct_below 100 = true) by (vm_compute; reflexivity).
  unfold dec2_distinct_below in Hall. rewrite forallb_forall in Hall.
  specialize (Hall n). rewrite forallb_forall in Hall.
  assert (Hin : forall k, (k < 100)%nat -> In k (seq 0 100)).
  { intros k Hk. apply in_seq. lia. }
  specialize (Hall (Hin n Hn) m (Hin m Hm)).
  apply String.eqb_eq in H. rewrite H in Hall. simpl in Hall.
  now apply Nat.eqb_eq.
Qed.

(** Digits up to a character that is no digit: the cut is where it is. *)
Lemma digits_then (a b r r' : string) (c : ascii) :
  all_chars isdecimal a = true -> all_chars isdecimal b = true ->
  isdecimal c = false ->
  a +:+ String c r = b +:+ String c r' -> a = b /\ r = r'.
Proof.
  intros Ha Hb Hc. revert b Hb.
  induction a as [|x a IH]; intros [|y b] Hb H.
  - injection H as ->. auto.
  - rewrite app_cons in H. injection H as -> _. simpl in Hb.
    rewrite Hc in Hb. discriminate.
  - rewrite app_cons in H. injection H as -> _. simpl in Ha.
    rewrite Hc in Ha. discriminate.
  - rewrite !app_cons in H. injection H as -> H. simpl in Ha, Hb.
    apply andb_true_iff in Ha as [_ Ha]. apply andb_true_iff in Hb as [_ Hb].
    destruct (IH Ha b Hb H) as [-> ->]. auto.
Qed.

(** Readings of the clock with the same stamp are in the same second: two
    placements in different seconds move to different paths aside. *)
Lemma strftime_inj (t1 t2 : datetime) :
  two_digit_fields t1 -> two_digit_fields t2 ->
  strftime t1 = strftime t2 -> same_second t1 t2.
Proof.
  intros (Hm1 & Hd1 & Hh1 & Hmi1 & Hs1) (Hm2 & Hd2 & Hh2 & Hmi2 & Hs2).
  unfold strftime.
  change ("-" +:+ ?x) with (String "-"%char x).
  change ("_" +:+ ?x) with (String "_"%char x).
  change ("+" +:+ ?x) with (String "+"%char x).
  intros H.
  apply digits_then in H as [Hy H];
    [|apply dec_digits|apply dec_digits|reflexivity].
  apply digits_then in H as [Hmo H];
    [|apply dec2_digits|apply dec2_digits|reflexivity].
  apply digits_then in H as [Hd H];
    [|apply dec2_digits|apply dec2_digits|reflexivity].
  apply digits_then in H as [Hh H];
    [|apply dec2_digits|apply dec2_digits|reflexivity].
  apply digits_then in H as [Hmi Hs];
    [|apply dec2_digits|apply dec2_digits|reflexivity].
  unfold same_second.
  repeat split; first [now apply dec_inj | now apply dec2_inj].
Qed.

(** ** Name sanitisation, on code points *)

Lemma u_sub_replace_folded (x : Unicode.str) :
  Unicode.sub_class Unicode.disallowed
    (Unicode.replace Unicode.slash [Unicode.dash; Unicode.dash] x)
  = folded x.
Proof.
  induction x as [|c x IH]; [reflexivity|].
  unfold folded. rewrite bind_cons. fold (folded x). rewrite <- IH.
  cbn [Unicode.replace]. unfold fold_point.
  destruct (decide (c = Unicode.slash)) as [->|Hc].
  - rewrite N.eqb_refl. cbn [app Unicode.sub_class].
    assert (Unicode.disallowed Unicode.dash = false) as -> by reflexivity.
    reflexivity.
  - apply N.eqb_neq in Hc. rewrite Hc. cbn [Unicode.sub_class].
    unfold Unicode.disallowed at 1. fold reserved_points.
    destruct (decide (c ∈ reserved_points)) as [Hr|Hr].
    + now rewrite bool_decide_eq_true_2 by exact Hr.
    + now rewrite bool_decide_eq_false_2 by exact Hr.
Qed.

Lemma u_lstrip_by_split (p : N -> bool) (s : Unicode.str) :
  exists pre, s = pre ++ Unicode.lstrip_by p s /\ forallb p pre = true.
Proof.
  induction s as [|c s (pre & Hs & Hpre)]; [now exists []|].
  cbn [Unicode.lstrip_by]. destruct (p c) eqn:Hc.
  - exists (c :: pre). split; [now rewrite Hs at 1|]. cbn. now rewrite Hc.
  - now exists [].
Qed.

Lemma u_rstrip_by_split (p : N -> bool) (s : Unicode.str) :
  exists post, s = Unicode.rstrip_by p s ++ post /\ forallb p post = true.
Proof.
  induction s as [|c s (post & Hs & Hpost)]; [now exists []|].
  cbn [Unicode.rstrip_by]. destruct (Unicode.rstrip_by p s) as [|d r].
  - cbn in Hs. subst s. destruct (p c) eqn:Hc.
    + exists (c :: post). split; [reflexivity|]. cbn. now rewrite Hc.
    + now exists post.
  - exists post. split; [now rewrite Hs at 1|exact Hpost].
Qed.

Lemma u_head_lstrip_by (p : N -> bool) (s : Unicode.str) (c : N) :
  head (Unicode.lstrip_by p s) = Some c -> p c = false.
Proof.
  induction s as [|d s IH]; [discriminate|]. cbn [Unicode.lstrip_by].
  destruct (p d) eqn:Hd; [exact IH|]. now intros [= <-].
Qed.

Lemma u_head_rstrip_by (p : N -> bool) (s : Unicode.str) (c : N) :
  head (Unicode.rstrip_by p s) = Some c -> head s = Some c.
Proof.
  destruct s as [|d s]; [discriminate|]. cbn [Unicode.rstrip_by].
  destruct (Unicode.rstrip_by p s); [destruct (p d)|]; now intros [= <-].
Qed.

Lemma u_last_rstrip_by (p : N -> bool) (s : Unicode.str) (c : N) :
  last (Unicode.rstrip_by p s) = Some c -> p c = false.
Proof.
  induction s as [|d s IH]; [discriminate|]. cbn [Unicode.rstrip_by].
  destruct (Unicode.rstrip_by p s) as [|e r].
  - destruct (p d) eqn:Hd; [discriminate|]. now intros [= <-].
  - intros H. apply IH. exact H.
Qed.

Lemma u_strip_trimmed (s : Unicode.str) : trimmed s (Unicode.strip s).
Proof.
  unfold Unicode.strip. split; [|split].
  - destruct (u_lstrip_by_split Unicode.isspace s) as (pre & Hs & Hpre).
    destruct (u_rstrip_by_split Unicode.isspace
                (Unicode.lstrip_by Unicode.isspace s)) as (post & Hl & Hpost).
    exists pre, post. split; [|now split]. rewrite Hs at 1. now rewrite Hl at 1.
  - intros c H. apply u_head_rstrip_by in H.
    now apply u_head_lstrip_by in H.
  - intros c H. now apply u_last_rstrip_by in H.
Qed.

Lemma u_folded_clear (x : Unicode.str) (c : N) :
  c ∈ folded x -> (c ∉ reserved_points) /\ c <> Unicode.slash.
Proof.
  unfold folded. intros H. apply list_elem_of_bind in H as (d & Hc & _).
  unfold fold_point in Hc.
  destruct (decide (d = Unicode.slash)) as [->|Hd].
  - assert (c = Unicode.dash) as ->.
    { apply elem_of_cons in Hc as [->|Hc]; [reflexivity|].
      apply elem_of_cons in Hc as [->|Hc]; [reflexivity|]. inversion Hc. }
    split; [|discriminate].
    intros Hr. vm_compute in Hr.
    repeat (apply elem_of_cons in Hr as [Hr|Hr]; [discriminate|]).
    inversion Hr.
  - destruct (decide (d ∈ reserved_points)) as [Hr|Hr]; [inversion Hc|].
    apply list_elem_of_singleton in Hc as ->. now split.
Qed.

Lemma u_folded_fixed (y : Unicode.str) :
  (forall c, c ∈ y -> (c ∉ reserved_points) /\ c <> Unicode.slash) ->
  folded y = y.
Proof.
  induction y as [|c y IH]; intros H; [reflexivity|].
  unfold folded. rewrite bind_cons. fold (folded y).
  destruct (H c) as [Hr Hs]; [apply list_elem_of_here|].
  unfold fold_point. rewrite decide_False by exact Hs.
  rewrite decide_False by exact Hr. cbn.
  rewrite IH; [reflexivity|]. intros d Hd. apply H.
  now apply list_elem_of_further.
Qed.

Lemma u_lstrip_by_id (p : N -> bool) (s : Unicode.str) :
  (forall c, head s = Some c -> p c = false) -> Unicode.lstrip_by p s = s.
Proof.
  destruct s as [|c s]; [reflexivity|]. intros H. cbn.
  now rewrite (H c eq_refl).
Qed.

Lemma u_rstrip_by_id (p : N -> bool) (s : Unicode.str) :
  (forall c, last s = Some c -> p c = false) -> Unicode.rstrip_by p s = s.
Proof.
  induction s as [|c s IH]; [reflexivity|]. intros H.
  cbn [Unicode.rstrip_by]. destruct s as [|d s].
  - cbn. now rewrite (H c eq_refl).
  - rewrite IH; [reflexivity|]. intros e He. apply H. exact He.
Qed.

Lemma u_elem_of_trimmed (s r : Unicode.str) (c : N) :
  trimmed s r -> c ∈ r -> c ∈ s.
Proof.
  intros [(pre & post & -> & _) _] H.
  apply elem_of_app. right. apply elem_of_app. now left.
Qed.

(** The strings of the embedding, character by character. *)
Lemma points_cons (c : ascii) (s : string) :
  Unicode.points (String c s) = N_of_ascii c :: Unicode.points s.
Proof. reflexivity. Qed.

Lemma points_app (s t : string) :
  Unicode.points (s +:+ t) = Unicode.points s ++ Unicode.points t.
Proof.
  induction s as [|c s IH]; [reflexivity|].
  rewrite app_cons, !points_cons, IH. reflexivity.
Qed.

Lemma points_isspace (c : ascii) :
  Unicode.isspace (N_of_ascii c) = Py.isspace c.
Proof. destruct c as [[] [] [] [] [] [] [] []]; reflexivity. Qed.

Lemma points_disallowed (c : ascii) :
  Unicode.disallowed (N_of_ascii c) = studip_rsync.disallowed c.
Proof. destruct c as [[] [] [] [] [] [] [] []]; reflexivity. Qed.

Lemma points_slash (c : ascii) :
  (N_of_ascii c =? Unicode.slash)%N = Ascii.eqb c "/".
Proof. destruct c as [[] [] [] [] [] [] [] []]; reflexivity. Qed.

Lemma points_replace (s : string) :
  Unicode.points (Py.replace "/" "--" s)
  = Unicode.replace Unicode.slash [Unicode.dash; Unicode.dash]
      (Unicode.points s).
Proof.
  induction s as [|c s IH]; [reflexivity|].
  rewrite points_cons. cbn [Py.replace Unicode.replace].
  rewrite points_slash. destruct (Ascii.eqb c "/").
  - rewrite points_app, IH. reflexivity.
  - now rewrite points_cons, IH.
Qed.

Lemma points_sub_class (s : string) :
  Unicode.points (Py.sub_class studip_rsync.disallowed s)
  = Unicode.sub_class Unicode.disallowed (Unicode.points s).
Proof.
  induction s as [|c s IH]; [reflexivity|].
  rewrite points_cons. cbn [Py.sub_class Unicode.sub_class].
  rewrite points_disallowed. destruct (studip_rsync.disallowed c);
    [exact IH|]. now rewrite points_cons, IH.
Qed.

Lemma points_lstrip_by (s : string) :
  Unicode.points (Py.lstrip_by Py.isspace s)
  = Unicode.lstrip_by Unicode.isspace (Unicode.points s).
Proof.
  induction s as [|c s IH]; [reflexivity|].
  rewrite points_cons. cbn [Py.lstrip_by Unicode.lstrip_by].
  rewrite points_isspace. destruct (Py.isspace c); [exact IH|].
  now rewrite points_cons.
Qed.

Lemma points_rstrip_by (s : string) :
  Unicode.points (Py.rstrip_by Py.isspace s)
  = Unicode.rstrip_by Unicode.isspace (Unicode.points s).
Proof.
  induction s as [|c s IH]; [reflexivity|].
  rewrite points_cons. cbn [Py.rstrip_by Unicode.rstrip_by].
  rewrite <- IH, points_isspace.
  destruct (Py.rstrip_by Py.isspace s) as [|d r].
  - cbn. now destruct (Py.isspace c).
  - now rewrite !points_cons.
Qed.

Lemma points_clean_name (s : string) :
  Unicode.points (studip_rsync.clean_name s)
  = Unicode.clean_name (Unicode.points s).
Proof.
  unfold studip_rsync.clean_name, Unicode.clean_name, Py.strip, Unicode.strip.
  now rewrite points_rstrip_by, points_lstrip_by, points_sub_class,
    points_replace.
Qed.

(** C10. For every name, a sequence of code points of any plane:
    [clean_name] gives the name in which every separator is folded into a
    double dash, every reserved character is stripped and every other
    character is kept in its place, with the white space around it trimmed
    and nothing else taken away; so the cleaned name holds no reserved
    character and no separator and has no white space at its ends, and
    cleaning it again changes nothing. The two copies of the function in
    the source files are the same, and on strings of U+0000..U+00FF the
    embedding the other properties use is this function. *)
Theorem clean_name_safe_idempotent (x : Unicode.str) :
  let clean := Unicode.clean_name in
  trimmed (folded x) (clean x)
  /\ (forall c, c ∈ clean x -> (c ∉ reserved_points) /\ c <> Unicode.slash)
  /\ clean (clean x) = clean x
  /\ (forall s : string,
        Unicode.points (studip_rsync.clean_name s) = clean (Unicode.points s)
        /\ studip_sync.clean_name s = studip_rsync.clean_name s).
Proof.
  intros clean. subst clean.
  assert (Htrim : trimmed (folded x) (Unicode.clean_name x)).
  { unfold Unicode.clean_name. rewrite u_sub_replace_folded.
    apply u_strip_trimmed. }
  assert (Hclear : forall c, c ∈ Unicode.clean_name x ->
                             (c ∉ reserved_points) /\ c <> Unicode.slash).
  { intros c Hc. apply (u_folded_clear x).
    now apply (u_elem_of_trimmed _ _ c Htrim). }
  split; [exact Htrim|]. split; [exact Hclear|]. split.
  - destruct Htrim as (_ & Hhead & Hlast).
    unfold Unicode.clean_name at 1. rewrite u_sub_replace_folded.
    rewrite (u_folded_fixed _ Hclear). unfold Unicode.strip.
    rewrite u_lstrip_by_id by exact Hhead.
    now apply u_rstrip_by_id.
  - intros s. split; [apply points_clean_name|reflexivity].
Qed.

(** The example of the contract. *)
Example clean_name_example :
  Unicode.clean_name (Unicode.points "A/B:C") = Unicode.points "A--BC"
  /\ studip_rsync.clean_name "A/B:C" = "A--BC".
Proof. split; vm_compute; reflexivity. Qed.

(** * Further properties *)

(** ** The cleaned listing *)

Lemma clean_form_name_safe (nfkc : string -> string)
    (d : gmap string value) (v : value) :
  studip_rsync.clean_form_name nfkc d = Ok v ->
  exists s, v = VStr s /\ safe_name studip_rsync.disallowed s.
Proof.
  unfold studip_rsync.clean_form_name.
  destruct (getitem d "name") as [[| | |s]|e]; simpl; try discriminate.
  intros [= <-]. eexists. split; [reflexivity|].
  apply strip_sub_replace_safe.
Qed.

Lemma cleanup_file_shape (nfkc : string -> string) (use_api : bool)
    (d d' : gmap string value) :
  studip_rsync.cleanup_file nfkc use_api d = Ok (Some d') ->
  dom d' = file_keys use_api /\ named_safely d'.
Proof.
  unfold studip_rsync.cleanup_file.
  destruct (contains d "id"); simpl.
  2:{ destruct (studip_rsync.log_name d); simpl; discriminate. }
  destruct (getitem d "id") as [form_id|e]; simpl; [|discriminate].
  destruct (studip_rsync.all_hexdigits form_id) as [[|]|e]; simpl;
    try discriminate.
  destruct (studip_rsync.unsupported d).
  { destruct (studip_rsync.log_name d); simpl; discriminate. }
  destruct (use_api && studip_rsync.not_downloadable d).
  { destruct (studip_rsync.log_name d); simpl; discriminate. }
  destruct (studip_rsync.clean_form_name nfkc d) as [name|e] eqn:Hname; simpl;
    [|discriminate].
  apply clean_form_name_safe in Hname as (s & -> & Hsafe).
  destruct (bind (getitem d "size") int) as [size|e]; simpl; [|discriminate].
  destruct (bind (getitem d "chdate") int) as [chdate|e]; simpl;
    [|discriminate].
  unfold file_keys, named_safely.
  destruct use_api; simpl.
  - intros [= <-]. split.
    + rewrite !dom_insert_L, dom_empty_L. set_solver.
    + exists s. split; [reflexivity|exact Hsafe].
  - destruct (getitem d "download_url") as [url|e]; simpl; [|discriminate].
    intros [= <-]. split.
    + rewrite !dom_insert_L, dom_empty_L. set_solver.
    + exists s. split; [reflexivity|exact Hsafe].
Qed.

Lemma cleanup_folder_shape (nfkc : string -> string)
    (d d' : gmap string value) :
  studip_rsync.cleanup_folder nfkc d = Ok (Some d') ->
  dom d' = folder_keys /\ named_safely d'.
Proof.
  unfold studip_rsync.cleanup_folder.
  destruct (contains d "id"); simpl; [|discriminate].
  destruct (getitem d "id") as [form_id|e]; simpl; [|discriminate].
  destruct (studip_rsync.all_hexdigits form_id) as [[|]|e]; simpl;
    try discriminate.
  destruct (studip_rsync.clean_form_name nfkc d) as [name|e] eqn:Hname; simpl;
    [|discriminate].
  apply clean_form_name_safe in Hname as (s & -> & Hsafe).
  intros [= <-]. split.
  - unfold folder_keys. rewrite !dom_insert_L, dom_empty_L. set_solver.
  - exists s. split; [reflexivity|exact Hsafe].
Qed.

Lemma check_and_cleanup_Forall (nfkc : string -> string) (use_api : bool)
    (P Q : gmap string value -> Prop)
    (files folders files' folders' : list (gmap string value)) :
  (forall d d', studip_rsync.cleanup_file nfkc use_api d = Ok (Some d') ->
                P d') ->
  (forall d d', studip_rsync.cleanup_folder nfkc d = Ok (Some d') -> Q d') ->
  studip_rsync.check_and_cleanup_form_data nfkc files folders use_api
  = Ok (files', folders') ->
  Forall P files' /\ Forall Q folders'.
Proof.
  intros HP HQ. unfold studip_rsync.check_and_cleanup_form_data.
  destruct (studip_rsync.cleanup_loop _ _ files) as [fs'|e] eqn:Hf;
    simpl; [|discriminate].
  destruct (studip_rsync.cleanup_loop _ _ folders) as [fo'|e] eqn:Ho;
    simpl; [|discriminate].
  intros [= <- <-]. split.
  - now apply (cleanup_loop_Forall _ _ P _ _ HP) in Hf.
  - now apply (cleanup_loop_Forall _ _ Q _ _ HQ) in Ho.
Qed.

(** X1. What [check_and_cleanup_form_data] returns. Every file entry has
    exactly the keys [name], [id], [size] and [chdate], and [download_url]
    besides when the listing is not read from the API; every folder entry
    has exactly [name] and [id]. Every name is safe as a path component: no
    separator, none of the removed characters, no white space at either
    end. *)
Theorem cleaned_listing_shape (nfkc : string -> string) (use_api : bool)
    (files folders files' folders' : list (gmap string value)) :
  studip_rsync.check_and_cleanup_form_data nfkc files folders use_api
  = Ok (files', folders') ->
  Forall (fun d => dom d = file_keys use_api /\ named_safely d) files'
  /\ Forall (fun d => dom d = folder_keys /\ named_safely d) folders'.
Proof.
  apply check_and_cleanup_Forall.
  - apply cleanup_file_shape.
  - apply cleanup_folder_shape.
Qed.

Lemma cleaned_listing_shape_witness :
  Forall (fun d => dom d = file_keys false /\ named_safely d)
    [<["download_url" := VStr "https://example.org/slides"]>
       (<["chdate" := VInt 1700000000]> (<["size" := VInt 5]>
          (<["id" := VStr "0a1f"]> (<["name" := VStr "slides.pdf"]> ∅))))]
  /\ Forall (fun d => dom d = folder_keys /\ named_safely d) [].
Proof.
  apply (cleaned_listing_shape (fun s => s) false [Demo.slides] []).
  vm_compute. reflexivity.
Defined.

(** X2. Whatever is wrong with a listing,
    [check_and_cleanup_form_data] fails with a [ParserError] and with no
    other exception. *)
Theorem cleanup_raises_parser_error (nfkc : string -> string)
    (use_api : bool) (files folders : list (gmap string value)) (e : exn) :
  studip_rsync.check_and_cleanup_form_data nfkc files folders use_api
  = Raise e ->
  exists msg, e = ParserError msg.
Proof.
  unfold studip_rsync.check_and_cleanup_form_data.
  destruct (studip_rsync.cleanup_loop _ _ files) as [fs'|e1] eqn:Hf; simpl.
  - destruct (studip_rsync.cleanup_loop _ _ folders) as [fo'|e2] eqn:Ho;
      simpl; [discriminate|].
    intros [= <-]. apply cleanup_loop_raises in Ho. eauto.
  - intros [= <-]. apply cleanup_loop_raises in Hf. eauto.
Qed.

Lemma cleanup_raises_parser_error_witness :
  exists e,
    studip_rsync.check_and_cleanup_form_data (fun s => s) [] [bad_folder] true
    = Raise e
    /\ exists msg, e = ParserError msg.
Proof.
  eexists. split; [vm_compute; reflexivity|].
  apply (cleanup_raises_parser_error (fun s => s) true [] [bad_folder]).
  vm_compute. reflexivity.
Defined.

Lemma cleanup_file_nameless (nfkc : string -> string) (use_api : bool)
    (d : gmap string value) :
  d !! "name" = None ->
  is_ok (studip_rsync.cleanup_file nfkc use_api d) = false.
Proof.
  intros Hname. unfold studip_rsync.cleanup_file.
  assert (Hlog : studip_rsync.log_name d = Raise (KeyError "name")).
  { unfold studip_rsync.log_name, getitem. now rewrite Hname. }
  assert (Hclean : studip_rsync.clean_form_name nfkc d
                   = Raise (KeyError "name")).
  { unfold studip_rsync.clean_form_name, getitem. now rewrite Hname. }
  rewrite Hlog, Hclean.
  destruct (contains d "id"); simpl; [|reflexivity].
  destruct (getitem d "id") as [form_id|e]; simpl; [|reflexivity].
  destruct (studip_rsync.all_hexdigits form_id) as [[|]|e]; simpl;
    try reflexivity.
  destruct (studip_rsync.unsupported d); [reflexivity|].
  now destruct (use_api && studip_rsync.not_downloadable d).
Qed.

Lemma cleanup_folder_nameless (nfkc : string -> string)
    (d : gmap string value) :
  d !! "name" = None -> is_Some (d !! "id") ->
  is_ok (studip_rsync.cleanup_folder nfkc d) = false.
Proof.
  intros Hname [v Hid]. unfold studip_rsync.cleanup_folder.
  assert (Hclean : studip_rsync.clean_form_name nfkc d
                   = Raise (KeyError "name")).
  { unfold studip_rsync.clean_form_name, getitem. now rewrite Hname. }
  rewrite Hclean, (contains_Some _ _ _ Hid), (getitem_lookup _ _ _ Hid). simpl.
  now destruct (studip_rsync.all_hexdigits v) as [[|]|e].
Qed.

(** X3. An entry without a name makes the whole listing fail with a
    [ParserError]: a file entry always, also one that would be skipped for
    its missing identifier, since the message of the skip reads the name; a
    folder entry when it has an identifier. *)
Theorem nameless_entry_fails_listing (nfkc : string -> string)
    (use_api : bool) (files folders : list (gmap string value))
    (d : gmap string value) :
  d !! "name" = None ->
  d ∈ files \/ (d ∈ folders /\ is_Some (d !! "id")) ->
  exists msg,
    studip_rsync.check_and_cleanup_form_data nfkc files folders use_api
    = Raise (ParserError msg).
Proof.
  intros Hname [Hin|[Hin Hid]].
  - apply (check_raise_files _ _ _ _ d Hin).
    now apply cleanup_file_nameless.
  - apply (check_raise_folders _ _ _ _ d Hin).
    now apply cleanup_folder_nameless.
Qed.

Lemma nameless_entry_fails_listing_witness :
  exists msg,
    studip_rsync.check_and_cleanup_form_data (fun s => s)
      [Demo.slides; nameless] [] true
    = Raise (ParserError msg).
Proof.
  apply (nameless_entry_fails_listing (fun s => s) true
           [Demo.slides; nameless] [] nameless).
  - reflexivity.
  - left. apply list_elem_of_further, list_elem_of_here.
Defined.

Lemma is_file_new_stale (fs : gmap string file) (d : gmap string value)
    (p : string) (n t : Z) :
  d !! "size" = Some (VInt n) -> d !! "chdate" = Some (VInt t) ->
  studip_rsync.is_file_new fs d p = Ok (stale fs n t p).
Proof.
  intros Hn Ht. unfold studip_rsync.is_file_new, stale.
  rewrite (getitem_lookup _ _ _ Hn). simpl.
  destruct (n =? 0); simpl; [reflexivity|].
  destruct (fs !! p) as [local_file|]; [|reflexivity].
  rewrite (getitem_lookup _ _ _ Ht). simpl.
  destruct (mtime local_file <? t); [reflexivity|]. simpl.
  now destruct (n =? getsize local_file).
Qed.

Lemma is_file_new_clean_entry (fs : gmap string file)
    (d : gmap string value) (p : string) :
  clean_entry d ->
  exists n t,
    d !! "size" = Some (VInt n) /\ d !! "chdate" = Some (VInt t)
    /\ studip_rsync.is_file_new fs d p = Ok (stale fs n t p).
Proof.
  intros (_ & [n Hn] & [t Ht]). exists n, t.
  split; [exact Hn|]. split; [exact Ht|]. now apply is_file_new_stale.
Qed.

(** X4. On a file entry of a cleaned listing [is_file_new] does not fail,
    whatever the disk holds: the size and the change date are integers, and
    the answer is that the size is not zero and the path is free, or the
    local file is older than the change date, or it has another size. *)
Theorem is_file_new_total_on_cleaned (nfkc : string -> string)
    (use_api : bool) (files folders files' folders' : list (gmap string value))
    (fs : gmap string file) (d : gmap string value) (p : string) :
  studip_rsync.check_and_cleanup_form_data nfkc files folders use_api
  = Ok (files', folders') ->
  d ∈ files' ->
  exists n t,
    d !! "size" = Some (VInt n) /\ d !! "chdate" = Some (VInt t)
    /\ studip_rsync.is_file_new fs d p = Ok (stale fs n t p).
Proof.
  intros Hclean Hin. apply is_file_new_clean_entry.
  apply (check_and_cleanup_Forall nfkc use_api clean_entry (fun _ => True))
    in Hclean as [Hfiles _].
  - rewrite Forall_forall in Hfiles. now apply Hfiles.
  - intros raw d' Hd. now apply cleanup_file_Some in Hd.
  - auto.
Qed.

Lemma is_file_new_total_on_cleaned_witness :
  exists n t,
    slides_cleaned !! "size" = Some (VInt n)
    /\ slides_cleaned !! "chdate" = Some (VInt t)
    /\ studip_rsync.is_file_new disk_10 slides_cleaned "dest/a.pdf"
       = Ok (stale disk_10 n t "dest/a.pdf").
Proof.
  apply (is_file_new_total_on_cleaned (fun s => s) true [Demo.slides] []
           [slides_cleaned] []).
  - vm_compute. reflexivity.
  - apply list_elem_of_here.
Defined.

(** ** The names of the course directories *)

Lemma plain_char_allowed (c : ascii) :
  plain_char c = true ->
  negb (is_sep c) = true /\ negb (studip_rsync.disallowed c) = true.
Proof.
  destruct c as [[] [] [] [] [] [] [] []]; vm_compute; intros H;
    first [discriminate H | split; reflexivity].
Qed.

Lemma sem_name_tokens_plain (s : string) (c0 c1 : re.captures) :
  sem name_tokens s c0 c1 -> all_chars plain_char s = true.
Proof.
  assert (Hup : forall t, all_chars studip_rsync.upper t = true ->
                          all_chars plain_char t = true).
  { intros t. apply all_chars_impl. intros c Hc.
    unfold plain_char, studip_rsync.type_letter.
    rewrite Hc. now rewrite orb_true_r. }
  assert (Hlo : forall t, all_chars studip_rsync.lower t = true ->
                          all_chars plain_char t = true).
  { intros t. apply all_chars_impl. intros c Hc. unfold plain_char.
    rewrite Hc. now rewrite !orb_true_r. }
  assert (Htoken : forall t a b,
             sem (re.Group 4
                    (re.Seq (re.Plus studip_rsync.upper)
                       (re.Seq (re.Star studip_rsync.lower)
                          (re.Opt studip_rsync.blank)))) t a b ->
             all_chars plain_char t = true).
  { intros t a b. cbn [sem].
    intros (c' & (s1 & s2 & cm & -> & [_ (u & s' & -> & Hu & Hs')]
                   & s3 & s4 & cm' & -> & [_ Hs3] & [_ Hs4]) & _).
    rewrite !all_chars_app. cbn [all_chars]. rewrite (Hup _ Hs'), (Hlo _ Hs3).
    assert (Hu' : plain_char u = true).
    { unfold plain_char, studip_rsync.type_letter. rewrite Hu.
      now rewrite orb_true_r. }
    rewrite Hu'. simpl.
    destruct Hs4 as [->|(b' & -> & Hb)]; [reflexivity|].
    simpl. unfold plain_char. rewrite Hb. now rewrite !orb_true_r. }
  unfold name_tokens. cbn [sem].
  intros [H|(t1 & t2 & cm & -> & H1 & H2)].
  - now apply (Htoken s c0 c1).
  - rewrite all_chars_app.
    now rewrite (Htoken t1 c0 cm H1), (Htoken t2 cm c1 H2).
Qed.

Lemma strip_safe (disallowed : ascii -> bool) (s : string) :
  all_chars non_sep s = true ->
  all_chars (fun c => negb (disallowed c)) s = true ->
  safe_name disallowed (strip s).
Proof.
  intros Hsep Hdis. unfold safe_name, strip. repeat split.
  - now apply all_chars_rstrip_by, all_chars_lstrip_by.
  - now apply all_chars_rstrip_by, all_chars_lstrip_by.
  - intros c H. apply first_char_rstrip_by in H.
    now apply first_char_lstrip_by in H.
  - intros c H. now apply last_char_rstrip_by in H.
Qed.

Lemma strip_first (d : ascii) (s : string) :
  isspace d = false -> first_char (strip (String d s)) = Some d.
Proof.
  intros Hd. unfold strip. simpl. rewrite Hd. simpl.
  destruct (rstrip_by isspace s); [now rewrite Hd|reflexivity].
Qed.

Lemma isdecimal_not_space (d : ascii) : isdecimal d = true -> isspace d = false.
Proof.
  destruct d as [[] [] [] [] [] [] [] []]; vm_compute; intros H;
    first [discriminate H | reflexivity].
Qed.

(** What the f-string of a match is made of. *)
Lemma compact_plain (pre : string) (m : re.captures) :
  sem studip_rsync.pattern pre [] m ->
  all_chars plain_char (studip_rsync.compact m) = true
  /\ exists d, first_char (studip_rsync.compact m) = Some d
               /\ isdecimal d = true.
Proof.
  intros Hsem.
  destruct (pattern_groups _ _ Hsem)
    as (number & letter & wordrest & names & filler & digit & line
        & w1 & w2 & _ & [Hnum Hne] & _ & (l & -> & Hl) & _ & _
        & (c0 & c1 & Hnames) & _ & Hdigit & ->).
  assert (Hdig : forall t, all_chars isdecimal t = true ->
                           all_chars plain_char t = true).
  { intros t. apply all_chars_impl. intros c Hc. unfold plain_char.
    now rewrite Hc. }
  split.
  - unfold strip. apply all_chars_rstrip_by, all_chars_lstrip_by.
    rewrite !all_chars_app. rewrite (Hdig _ Hnum).
    rewrite (sem_name_tokens_plain _ _ _ Hnames).
    cbn [all_chars]. unfold plain_char at 2. rewrite Hl.
    rewrite orb_true_r. simpl.
    destruct Hdigit as [->|(c & -> & Hc)]; [reflexivity|].
    simpl. unfold plain_char. now rewrite Hc.
  - destruct number as [|d number]; [congruence|].
    simpl in Hnum. apply andb_true_iff in Hnum as [Hd _].
    exists d. split; [|exact Hd].
    rewrite !app_cons. apply strip_first. now apply isdecimal_not_space.
Qed.

Lemma plain_safe (s : string) :
  all_chars plain_char s = true ->
  all_chars non_sep s = true
  /\ all_chars (fun c => negb (studip_rsync.disallowed c)) s = true.
Proof.
  intros H. split.
  - revert H. apply all_chars_impl. intros c Hc.
    now apply plain_char_allowed in Hc.
  - revert H. apply all_chars_impl. intros c Hc.
    now apply plain_char_allowed in Hc.
Qed.

Lemma strip_ends (s : string) :
  (forall c, first_char (strip s) = Some c -> isspace c = false)
  /\ (forall c, last_char (strip s) = Some c -> isspace c = false).
Proof.
  unfold strip. split.
  - intros c H. apply first_char_rstrip_by in H.
    now apply first_char_lstrip_by in H.
  - intros c H. now apply last_char_rstrip_by in H.
Qed.

Lemma short_course_name_safe_rsync (title : string) :
  safe_name studip_rsync.disallowed (studip_rsync.short_course_name title).
Proof.
  unfold studip_rsync.short_course_name.
  destruct (re.match_ _ _) as [m|] eqn:Hm.
  - destruct (match_sound _ _ _ Hm) as (pre & rest & _ & Hsem).
    destruct (compact_plain _ _ Hsem) as [Hplain _].
    pose proof (plain_safe _ Hplain) as [Hsep Hdis].
    split; [exact Hsep|]. split; [exact Hdis|].
    unfold studip_rsync.compact. apply strip_ends.
  - apply strip_sub_replace_safe.
Qed.

(** X5. The name strategy A gives a course is safe as a path component,
    for every title. Where strategy B finds a name at all, both strategies
    find the same one: it is written in digits, letters of the pattern and
    blanks, and begins with a digit. Otherwise strategy B answers [False]. *)
Theorem short_course_name_safe (title : string) :
  safe_name studip_rsync.disallowed (studip_rsync.short_course_name title)
  /\ (studip_sync.short_course_name title = VBool false
      \/ exists s d,
           studip_sync.short_course_name title = VStr s
           /\ studip_rsync.short_course_name title = s
           /\ all_chars plain_char s = true
           /\ first_char s = Some d /\ isdecimal d = true).
Proof.
  split; [apply short_course_name_safe_rsync|].
  unfold studip_sync.short_course_name, studip_rsync.short_course_name.
  change (studip_sync.clean_name title) with (studip_rsync.clean_name title).
  change studip_sync.pattern with studip_rsync.pattern.
  destruct (re.match_ _ _) as [m|] eqn:Hm; [right|now left].
  destruct (match_sound _ _ _ Hm) as (pre & rest & _ & Hsem).
  destruct (compact_plain _ _ Hsem) as [Hplain (d & Hfirst & Hd)].
  exists (studip_rsync.compact m), d.
  split; [reflexivity|]. split; [reflexivity|]. auto.
Qed.

Lemma last_char_cons (c : ascii) (s : string) :
  exists x, last_char (String c s) = Some x.
Proof.
  revert c. induction s as [|d s IH]; intros c; simpl; [eauto|].
  apply (IH d).
Qed.

Lemma last_char_app (s t : string) :
  last_char (s +:+ t)
  = match last_char t with Some c => Some c | None => last_char s end.
Proof.
  induction s as [|c s IH].
  - change (EmptyString +:+ t) with t. now destruct (last_char t).
  - destruct s as [|e s].
    + change (String c EmptyString +:+ t) with (String c t).
      destruct t as [|d r]; [reflexivity|].
      destruct (last_char_cons d r) as [x Hx].
      cbn [last_char]. cbn [last_char] in Hx. now rewrite Hx.
    + rewrite !app_cons in *. cbn [last_char] in *. rewrite IH.
      reflexivity.
Qed.

Lemma all_chars_last (p : ascii -> bool) (s : string) (c : ascii) :
  all_chars p s = true -> last_char s = Some c -> p c = true.
Proof.
  induction s as [|d s IH]; simpl; [discriminate|].
  intros [Hd Hs]%andb_true_iff. destruct s as [|e s].
  - now intros [= <-].
  - now apply IH.
Qed.

Lemma rstrip_by_snoc (p : ascii -> bool) (s : string) (c d : ascii) :
  last_char s = Some c -> p c = false -> p d = true ->
  rstrip_by p (s +:+ String d EmptyString) = s.
Proof.
  intros Hlast Hc Hd. induction s as [|e s IH]; [discriminate|].
  rewrite app_cons. cbn [rstrip_by]. destruct s as [|f s].
  - simpl in Hlast. injection Hlast as ->.
    change (EmptyString +:+ String d EmptyString) with (String d EmptyString).
    simpl. now rewrite Hd, Hc.
  - rewrite IH by exact Hlast. reflexivity.
Qed.

Lemma semester_dir_last (c : course) :
  exists x, last_char (semester_dir c) = Some x /\ is_sep x = false.
Proof.
  unfold semester_dir. rewrite !last_char_app.
  destruct (last_char (studip_rsync.clean_name (semester c))) as [x|] eqn:Hx.
  - exists x. split; [reflexivity|].
    destruct (strip_sub_replace_safe studip_rsync.disallowed (semester c))
      as [Hsep _].
    apply (all_chars_last _ _ _ Hsep) in Hx. now apply negb_true_iff in Hx.
  - simpl. eauto.
Qed.

Lemma rsplit_sep_snoc (a b : string) :
  all_chars non_sep b = true ->
  rsplit_sep (a +:+ String sep b) = (a +:+ String sep EmptyString, b).
Proof.
  intros Hb. induction a as [|c a IH].
  - change (EmptyString +:+ ?x) with x. cbn [rsplit_sep].
    now rewrite (rsplit_sep_no_sep b Hb).
  - rewrite !app_cons. cbn [rsplit_sep]. rewrite IH.
    destruct (is_sep c); [reflexivity|].
    now destruct a.
Qed.

Lemma all_chars_snoc_false (p : ascii -> bool) (a : string) (x : ascii)
    (t : string) :
  last_char a = Some x -> p x = false -> all_chars p (a +:+ t) = false.
Proof.
  intros Hlast Hx. induction a as [|c a IH]; [discriminate|].
  rewrite app_cons. cbn [all_chars]. destruct a as [|d a].
  - simpl in Hlast. injection Hlast as ->. now rewrite Hx.
  - rewrite IH by exact Hlast. apply andb_false_r.
Qed.

(** Joining a name without separators to a directory that does not end in
    one, and splitting the result. *)
Lemma path_join_split_safe (a b : string) (x : ascii) :
  last_char a = Some x -> is_sep x = false ->
  all_chars non_sep b = true ->
  path_join a b = a +:+ String sep b
  /\ path_split (a +:+ String sep b) = (a, b).
Proof.
  intros Hlast Hx Hb. split.
  - unfold path_join.
    rewrite bool_decide_eq_false_2.
    2:{ destruct b as [|c b]; [discriminate|]. simpl in *.
        intros [= ->]. discriminate. }
    destruct a as [|c a]; [discriminate|]. simpl String.eqb.
    rewrite bool_decide_eq_false_2; [reflexivity|].
    rewrite Hlast. intros [= ->]. discriminate.
  - unfold path_split. rewrite (rsplit_sep_snoc a b Hb).
    rewrite (all_chars_snoc_false is_sep a x _ Hlast Hx).
    now rewrite (rstrip_by_snoc is_sep a x sep Hlast Hx).
Qed.

Lemma dot_names_first (s : string) (d : ascii) :
  s ∈ dot_names -> first_char s = Some d -> isdecimal d = false.
Proof.
  intros Hs. unfold dot_names in Hs.
  repeat (apply elem_of_cons in Hs as [->|Hs];
          [simpl; try discriminate; now intros [= <-]|]).
  inversion Hs.
Qed.

Lemma dot_names_unmatched (s : string) :
  s ∈ dot_names -> re.match_ studip_rsync.pattern s = None.
Proof.
  intros Hs. unfold dot_names in Hs.
  repeat (apply elem_of_cons in Hs as [->|Hs]; [vm_compute; reflexivity|]).
  inversion Hs.
Qed.

(** X6. For a course with a title, [get_course_save_as] returns the short
    name, or with the new file structure the semester directory, a separator
    and the short name. The short name holds no separator, so splitting that
    path gives the two parts back: the short name is its last component. The
    short name is the empty text, a dot or two dots exactly for the titles
    that clean to one of these; for every other title the last component is
    a name of its own. *)
Theorem get_course_save_as_shape (cfg : config) (c : course)
    (title : string) (Htitle : save_as c = VStr title) :
  let short := studip_rsync.short_course_name title in
  safe_name studip_rsync.disallowed short
  /\ studip_rsync.get_course_save_as cfg c
     = Ok (if use_new_file_structure cfg
           then semester_dir c +:+ String sep short
           else short)
  /\ path_split (semester_dir c +:+ String sep short)
     = (semester_dir c, short)
  /\ (short ∈ dot_names <-> studip_rsync.clean_name title ∈ dot_names).
Proof.
  intros short.
  pose proof (short_course_name_safe_rsync title) as Hsafe. fold short in Hsafe.
  split; [exact Hsafe|].
  destruct Hsafe as [Hsep _].
  destruct (semester_dir_last c) as (x & Hlast & Hx).
  destruct (path_join_split_safe _ short x Hlast Hx Hsep) as [Hjoin Hsplit].
  split; [|split; [exact Hsplit|]].
  - unfold studip_rsync.get_course_save_as. rewrite Htitle.
    destruct (use_new_file_structure cfg); [|reflexivity].
    fold (semester_dir c). fold short. now rewrite Hjoin.
  - subst short. unfold studip_rsync.short_course_name. split.
    + destruct (re.match_ _ _) as [m|] eqn:Hm; [|trivial].
      intros Hdot. exfalso.
      destruct (match_sound _ _ _ Hm) as (pre & rest & _ & Hsem).
      destruct (compact_plain _ _ Hsem) as [_ (d & Hfirst & Hd)].
      rewrite (dot_names_first _ d Hdot Hfirst) in Hd. discriminate.
    + intros Hdot. now rewrite (dot_names_unmatched _ Hdot).
Qed.

Lemma get_course_save_as_shape_witness :
  studip_rsync.get_course_save_as
    {| files_destination := Some "dest"; media_destination := None;
       ignore_courses := []; config_semester := None;
       use_new_file_structure := true |} Demo.systems
  = Ok "s24 - WS 2024/101 V Introduction 2".
Proof.
  destruct (get_course_save_as_shape
              {| files_destination := Some "dest"; media_destination := None;
                 ignore_courses := []; config_semester := None;
                 use_new_file_structure := true |} Demo.systems
              "101 V Introduction to Systems 2" eq_refl) as (_ & H & _).
  rewrite H. vm_compute. reflexivity.
Defined.

(** A title of two dots: the course directory is written as the parent of
    the semester directory. *)
Example get_course_save_as_dots :
  studip_rsync.get_course_save_as
    {| files_destination := Some "dest"; media_destination := None;
       ignore_courses := []; config_semester := None;
       use_new_file_structure := true |}
    (set_save_as Demo.systems (VStr ".."))
  = Ok "s24 - WS 2024/..".
Proof. vm_compute. reflexivity. Qed.

(** ** A file that has been placed *)

(** X7. The suffix of a file moved aside, and with it the path the file is
    moved to, are the same at two times exactly when the times agree to the
    second: versions set aside in different seconds never share a path. The
    fields below the year are taken to print in two digits. *)
Theorem aside_differs_across_seconds (p : string) (t1 t2 : datetime)
    (H1 : two_digit_fields t1) (H2 : two_digit_fields t2) :
  (studip_rsync.old_suffix t1 = studip_rsync.old_suffix t2 <->
   same_second t1 t2)
  /\ (moved_aside p t1 = moved_aside p t2 <-> same_second t1 t2).
Proof.
  assert (Hback : same_second t1 t2 -> strftime t1 = strftime t2).
  { intros (Hy & Hmo & Hd & Hh & Hmi & Hs). unfold strftime.
    now rewrite Hy, Hmo, Hd, Hh, Hmi, Hs. }
  split; split.
  - intros H. apply strftime_inj; [exact H1|exact H2|].
    unfold studip_rsync.old_suffix in H. apply String.app_inj in H.
    now apply app_inv_tail_s in H.
  - intros H. unfold studip_rsync.old_suffix. now rewrite (Hback H).
  - intros H. apply strftime_inj; [exact H1|exact H2|].
    now apply (moved_aside_inj p).
  - intros H. unfold moved_aside, studip_rsync.old_suffix.
    now rewrite (Hback H).
Qed.

Lemma aside_differs_across_seconds_witness :
  moved_aside "dest/a.txt" (local (Demo.running_clock 0))
  = moved_aside "dest/a.txt" (local (Demo.running_clock 2))
  <-> same_second (local (Demo.running_clock 0)) (local (Demo.running_clock 2)).
Proof.
  apply (aside_differs_across_seconds "dest/a.txt"
           (local (Demo.running_clock 0)) (local (Demo.running_clock 2))).
  - unfold two_digit_fields. simpl. lia.
  - unfold two_digit_fields. simpl. lia.
Defined.

(** The state [place] leaves when it ends well. *)
Lemma place_ok (E : env) (target p : string) (w w' : world) :
  studip_rsync.place E target p w = (Ok tt, w') ->
  target <> moved_aside p (local (clock E (ticks w))) ->
  exists f k,
    fs w !! target = Some f
    /\ fs w' !! p = Some {| data := data f; mtime := epoch (clock E k) |}.
Proof.
  pose proof (moved_aside_neq p (local (clock E (ticks w)))) as Hne.
  unfold moved_aside in *. unfold studip_rsync.place.
  destruct (path_split p) as [base name].
  set (aside := path_join base _) in *.
  unfold mbind at 1. unfold get_fs at 1.
  destruct (path_exists (fs w) p) eqn:Hex.
  - unfold mbind at 1. unfold mbind at 1. unfold now at 1.
    unfold os_rename, rename. cbn [fs tick].
    destruct (fs w !! p) as [old|] eqn:Hold; [|discriminate].
    unfold mbind at 1. unfold get_fs at 1. cbn [fs set_fs emit tick].
    rewrite path_exists_None.
    2:{ rewrite lookup_insert_ne by exact Hne. apply lookup_delete_eq. }
    unfold shutil_copyfile, copyfile. cbn [fs set_fs emit tick ticks].
    intros H Hta.
    rewrite lookup_insert_ne in H by (intros Heq; apply Hta; symmetry; exact Heq).
    destruct (decide (target = p)) as [->|Htp].
    { rewrite lookup_delete_eq in H. discriminate. }
    rewrite lookup_delete_ne in H by (intros Heq; apply Htp; symmetry; exact Heq).
    destruct (fs w !! target) as [f|] eqn:Hf; [|discriminate].
    apply String.eqb_neq in Htp. rewrite Htp in H.
    injection H as <-. cbn [fs]. exists f, (S (ticks w)).
    split; [reflexivity|]. apply lookup_insert_eq.
  - unfold mbind at 1. unfold os_makedirs, modify.
    unfold mbind at 1. unfold get_fs at 1. cbn [fs emit].
    rewrite Hex. unfold shutil_copyfile, copyfile. cbn [fs emit ticks].
    intros H _.
    destruct (fs w !! target) as [f|] eqn:Hf; [|discriminate].
    destruct (String.eqb target p); [discriminate|].
    injection H as <-. cbn [fs]. exists f, (ticks w).
    split; [reflexivity|]. apply lookup_insert_eq.
Qed.

Lemma mem_char_all (p : ascii -> bool) (s : string) (c : ascii) :
  all_chars p s = true -> p c = false -> mem_char c s = false.
Proof.
  intros Hs Hc. destruct (mem_char c s) eqn:Hm; [|reflexivity].
  rewrite (all_chars_mem p s c Hs Hm) in Hc. discriminate.
Qed.

Lemma mem_char_app (c : ascii) (s t : string) :
  mem_char c (s +:+ t) = mem_char c s || mem_char c t.
Proof.
  induction s as [|d s IH]; [reflexivity|].
  rewrite app_cons. simpl. rewrite IH. apply orb_assoc.
Qed.

Lemma hex_non_sep (s : string) :
  all_chars hex_char s = true -> all_chars non_sep s = true.
Proof.
  apply all_chars_impl. intros c Hc. unfold non_sep, is_sep.
  destruct (Ascii.eqb c sep) eqn:Heq; [|reflexivity].
  apply Ascii.eqb_eq in Heq as ->. discriminate.
Qed.

(** A download with a hexadecimal name is never the path a file is moved
    aside to: that one has an underscore in its last component. *)
Lemma target_not_aside (dir i p : string) (t : datetime) :
  all_chars hex_char i = true -> path_join dir i <> moved_aside p t.
Proof.
  intros Hhex Heq.
  apply (f_equal (fun q => mem_char "_" (snd (rsplit_sep q)))) in Heq.
  rewrite moved_aside_tail in Heq.
  rewrite (rsplit_sep_join dir i (hex_non_sep i Hhex)) in Heq.
  rewrite (mem_char_all hex_char i "_" Hhex eq_refl) in Heq.
  rewrite mem_char_app in Heq. unfold studip_rsync.old_suffix in Heq.
  rewrite mem_char_app in Heq. simpl in Heq.
  rewrite orb_true_r in Heq. discriminate.
Qed.

(** X8. Right after the body of the file loop of [download_recursive] has
    ended well for a file entry with a download link, [is_file_new] answers
    [False] for that entry at its path, whether the body fetched the file or
    found it up to date. The entry has a hexadecimal identifier and integer
    size and change date, as the cleanup leaves it; its name is an entry of
    its own, not the empty name, a dot or two dots; and the clock is never
    behind the change date. *)
Theorem synced_file_is_not_new (E : env) (self : studip_rsync.CourseRSync)
    (rel : string) (d : gmap string value) (w w' : world)
    (i name : string) (n t : Z) (url : value)
    (Hid : d !! "id" = Some (VStr i) /\ all_chars hex_char i = true)
    (Hsize : d !! "size" = Some (VInt n))
    (Hchdate : d !! "chdate" = Some (VInt t))
    (Hname : d !! "name" = Some (VStr name) /\ name ∉ dot_names)
    (Hurl : d !! "download_url" = Some url /\ url <> VNone)
    (Hclock : forall k, t <= epoch (clock E k))
    (Hrun : studip_rsync.sync_file E self rel d w = (Ok tt, w')) :
  studip_rsync.is_file_new (fs w') d (file_path_of self rel name) = Ok false.
Proof.
  destruct Hid as [Hid Hhex]. destruct Hurl as [Hurl Hnone].
  destruct Hname as [Hname _].
  rewrite (is_file_new_stale _ d _ n t Hsize Hchdate).
  unfold studip_rsync.sync_file, mbind, lift, get_fs, ret, raise in Hrun.
  rewrite (getitem_lookup _ _ _ Hurl) in Hrun.
  rewrite bool_decide_eq_false_2 in Hrun by exact Hnone.
  rewrite (getitem_lookup _ _ _ Hname) in Hrun.
  cbn [path_join_value] in Hrun.
  fold (file_path_of self rel name) in Hrun.
  set (p := file_path_of self rel name) in *.
  rewrite (is_file_new_stale _ d p n t Hsize Hchdate) in Hrun.
  destruct (stale (fs w) n t p) eqn:Hstale.
  2:{ injection Hrun as <-. now rewrite Hstale. }
  rewrite (getitem_lookup _ _ _ Hid) in Hrun. cbn [path_join_value] in Hrun.
  set (target := path_join (workdir E) i) in *.
  match type of Hrun with
  | context [if negb (studip_rsync.self_use_api self) then ?a else ?b] =>
      destruct (if negb (studip_rsync.self_use_api self) then a else b)
        as [content|e]; [|discriminate]
  end.
  unfold write_download in Hrun. rewrite (getitem_lookup _ _ _ Hsize) in Hrun.
  cbn [bind int fs set_fs emit tick] in Hrun.
  rewrite lookup_insert_eq in Hrun.
  destruct (getsize _ =? n) eqn:Hn; cbn [negb] in Hrun; [|discriminate].
  match type of Hrun with
  | context [studip_rsync.place E target p ?w1] =>
      destruct (studip_rsync.place E target p w1) as [[[]|e] w2] eqn:Hplace;
        [|discriminate]
  end.
  unfold plugins_hook, modify in Hrun. injection Hrun as <-. cbn [fs emit].
  apply place_ok in Hplace as (f & k & Hf & Hp);
    [|now apply target_not_aside].
  cbn [fs set_fs emit tick] in Hf. rewrite lookup_insert_eq in Hf.
  injection Hf as <-.
  unfold stale. rewrite Hp. cbn [mtime data].
  unfold getsize in *. cbn [data] in *.
  apply Z.eqb_eq in Hn. rewrite Hn, Z.eqb_refl.
  specialize (Hclock k). apply Z.ltb_ge in Hclock. rewrite Hclock.
  simpl. now rewrite andb_false_r.
Qed.

Lemma synced_file_is_not_new_witness :
  exists w',
    studip_rsync.sync_file Demo.one_course systems_walk "" slides_scraped
      Demo.fresh
    = (Ok tt, w')
    /\ data <$> fs w' !! "dest/101 V Introduction 2/slides.pdf" = Some "12345"
    /\ studip_rsync.is_file_new (fs w') slides_scraped
         "dest/101 V Introduction 2/slides.pdf"
       = Ok false.
Proof.
  eexists. split; [vm_compute; reflexivity|].
  split; [vm_compute; reflexivity|].
  apply (synced_file_is_not_new Demo.one_course systems_walk ""
           slides_scraped Demo.fresh _ "0a1f" "slides.pdf" 5 1700000000
           (VStr "https://example.org/slides")).
  - split; reflexivity.
  - reflexivity.
  - reflexivity.
  - split; [reflexivity|].
    unfold dot_names. intros H.
    repeat (apply elem_of_cons in H as [H|H]; [discriminate|]).
    inversion H.
  - split; [reflexivity|discriminate].
  - intros k. simpl. lia.
  - vm_compute. reflexivity.
Defined.

(** ** The exit status of a run *)

Lemma select_semester_result (E : env) (w : world) :
  exists evs,
    select_semester E w
    = (Ok (negb (semester_unknown E)),
       {| fs := fs w; staging := staging w; last_sync := last_sync w;
          ticks := ticks w; events := events w ++ evs |})
    /\ (semester_unknown E = true -> evs = [])
    /\ forallb quiet evs = true.
Proof.
  unfold select_semester, semester_unknown, set_semester, modify, mbind, ret,
    emit.
  destruct w as [fs0 st0 ls0 tk0 ev0]. cbn [fs staging last_sync ticks events].
  destruct (config_semester (CONFIG E)) as [sem|].
  - destruct (bool_decide (sem ∈ known_selectors)); simpl.
    + eexists. split; [reflexivity|]. split; [discriminate|reflexivity].
    + destruct (get_semester_id (the_session E) sem) as [id|] eqn:Hid.
      * rewrite bool_decide_eq_true_2 by eauto. simpl.
        eexists. split; [reflexivity|]. split; [discriminate|reflexivity].
      * rewrite bool_decide_eq_false_2 by (intros [? [=]]). simpl.
        exists []. now rewrite app_nil_r.
  - destruct (use_new_file_structure (CONFIG E)); simpl.
    + eexists. split; [reflexivity|]. split; [discriminate|reflexivity].
    + exists []. now rewrite app_nil_r.
Qed.

Lemma rsync_sync_course_no_media (E : env) (sync_fully use_api : bool)
    (depth : nat) (c : course) (status st : Z) (w w' : world) :
  configured (media_destination (CONFIG E)) = false ->
  studip_rsync.sync_course E sync_fully use_api depth c status w
  = (Ok st, w') ->
  st = status.
Proof.
  intros Hmedia. unfold studip_rsync.sync_course, mbind, lift, ret.
  rewrite Hmedia.
  destruct (ignored E c) as [[|]|e]; try congruence.
  destruct (studip_rsync.get_course_save_as _ c) as [save|e];
    [|discriminate].
  destruct (configured (files_destination (CONFIG E))); [|congruence].
  unfold studip_rsync.sync_files.
  destruct (studip_rsync.download _ _ _ _) as [[[]|e] w3]; [congruence|].
  destruct e; congruence.
Qed.

Lemma rsync_sync_courses_status (E : env) (sync_fully use_api : bool)
    (depth : nat) (courses : list course) :
  forall status st w w',
    studip_rsync.sync_courses E sync_fully use_api depth courses status w
    = (Ok st, w') ->
    (st = status \/ st = 2)
    /\ (configured (media_destination (CONFIG E)) = false -> st = status).
Proof.
  induction courses as [|c rest IH]; intros status st w w'; simpl.
  - unfold ret. intros [= <- _]. auto.
  - unfold mbind.
    destruct (studip_rsync.sync_course _ _ _ _ c status w)
      as [[st1|e] w1] eqn:Hc; [|discriminate].
    intros Hrest. apply IH in Hrest as [Hst Hno]. split.
    + apply rsync_sync_course_status in Hc. lia.
    + intros Hmedia.
      apply (rsync_sync_course_no_media _ _ _ _ _ _ _ _ _ Hmedia) in Hc.
      rewrite (Hno Hmedia). exact Hc.
Qed.

Lemma sync_sync_courses_status (E : env) (sync_fully : bool)
    (courses : list course) :
  forall status st w w',
    studip_sync.sync_courses E sync_fully courses status w = (Ok st, w') ->
    st = status \/ st = 2.
Proof.
  induction courses as [|c rest IH]; intros status st w w'; simpl.
  - unfold ret. intros [= <- _]. auto.
  - unfold mbind.
    destruct (studip_sync.sync_course _ _ c status w)
      as [[st1|e] w1] eqn:Hc; [|discriminate].
    intros Hrest. apply IH in Hrest.
    apply sync_sync_course_status in Hc. lia.
Qed.

(** X9. A run of strategy A that returns, returns 0, 1 or 2. It returns 1
    exactly when the login is refused, the configured semester is unknown,
    or the course list is refused; then no file has been touched, and
    nothing but plugin hooks and changes of the semester filter has
    happened. It returns 2 only with a media destination configured. *)
Theorem rsync_exit_status (E : env) (sync_fully sync_recent use_api : bool)
    (depth : nat) (w w' : world) (st : Z)
    (Hrun : studip_rsync.sync E sync_fully sync_recent use_api depth w
            = (Ok st, w')) :
  (st = 0 \/ st = 1 \/ st = 2)
  /\ (st = 1 <-> stops_early E sync_recent = true)
  /\ (st = 1 -> fs w' = fs w /\ forallb quiet (added w w') = true)
  /\ (st = 2 -> configured (media_destination (CONFIG E)) = true).
Proof.
  unfold studip_rsync.sync in Hrun. unfold mbind at 1 in Hrun.
  unfold plugins_hook, modify in Hrun. unfold stops_early, added.
  assert (Hadd : forall evs,
             drop (length (events w))
               ((events w ++ [EvHook "hook_start" []]) ++ evs)
             = EvHook "hook_start" [] :: evs).
  { intros evs. now rewrite <- app_assoc, drop_app_length. }
  destruct (login (the_session E)) as [[]|e].
  2:{ destruct e; unfold ret, raise in Hrun; try discriminate;
        injection Hrun as <- <-; cbn [refused is_ok orb andb fs events emit];
        rewrite <- (app_nil_r (events w ++ _)), Hadd;
        (split; [auto|]); (split; [tauto|]); (split; [auto|]); discriminate. }
  cbn [refused is_ok orb andb].
  unfold mbind at 1 in Hrun.
  destruct (select_semester_result E (emit (EvHook "hook_start" []) w))
    as (evs & Hsel & Hevs & Hquiet).
  rewrite Hsel in Hrun. clear Hsel. cbn [fs events emit] in Hrun.
  destruct (semester_unknown E); cbn [negb orb] in *.
  { unfold ret in Hrun. injection Hrun as <- <-.
    rewrite (Hevs eq_refl). cbn [fs events]. rewrite Hadd.
    split; [auto|]. split; [tauto|]. split; [auto|]. discriminate. }
  clear Hevs.
  destruct (get_courses (the_session E) sync_recent) as [courses|e].
  2:{ destruct e; unfold ret, raise in Hrun; try discriminate;
        injection Hrun as <- <-; cbn [refused fs events]; rewrite Hadd;
        (split; [auto|]); (split; [tauto|]); (split; [auto|]); discriminate. }
  cbn [refused].
  unfold mbind at 1 in Hrun.
  destruct (studip_rsync.sync_courses _ _ _ _ courses 0 _)
    as [[st1|e] w3] eqn:Hloop; [|discriminate].
  apply rsync_sync_courses_status in Hloop as [Hst Hno].
  assert (Hst1 : st = st1).
  { unfold mbind, set_semester, modify, ret, now in Hrun.
    destruct (configured (files_destination (CONFIG E)) && (st1 =? 0));
      now injection Hrun as <-. }
  subst st1. clear Hrun.
  split; [lia|]. split; [split; [lia|discriminate]|]. split; [lia|].
  intros ->. destruct (configured (media_destination (CONFIG E)));
    [reflexivity|]. specialize (Hno eq_refl). discriminate.
Qed.

Lemma rsync_exit_status_witness :
  exists w',
    studip_rsync.sync summer_unknown false false false 3 Demo.fresh
    = (Ok 1, w')
    /\ stops_early summer_unknown false = true
    /\ fs w' = fs Demo.fresh.
Proof.
  eexists. split; [vm_compute; reflexivity|].
  destruct (rsync_exit_status summer_unknown false false false 3 Demo.fresh
              _ 1 eq_refl) as (_ & Hearly & Hfs & _).
  split; [now apply Hearly|]. now apply Hfs.
Defined.

(** ** Strategy B writes to the staging area only *)

Section Respects.

Variable R : world -> world -> Prop.
Hypothesis R_refl : forall w, R w w.
Hypothesis R_trans : forall a b c, R a b -> R b c -> R a c.

Lemma respects_ret {A} (a : A) : respects R (ret a).
Proof. intros w. apply R_refl. Qed.

Lemma respects_raise {A} (e : exn) : respects R (@raise A e).
Proof. intros w. apply R_refl. Qed.

Lemma respects_lift {A} (r : result A) : respects R (lift r).
Proof. intros w. apply R_refl. Qed.

Lemma respects_get_fs : respects R get_fs.
Proof. intros w. apply R_refl. Qed.

Lemma respects_bind {A B} (m : M A) (k : A -> M B) :
  respects R m -> (forall a, respects R (k a)) -> respects R (mbind m k).
Proof.
  intros Hm Hk w. unfold mbind. specialize (Hm w).
  destruct (m w) as [[a|e] w1]; simpl in *; [|exact Hm].
  apply (R_trans _ w1); [exact Hm|apply Hk].
Qed.

Lemma respects_if {A} (b : bool) (m1 m2 : M A) :
  respects R m1 -> respects R m2 -> respects R (if b then m1 else m2).
Proof. now destruct b. Qed.

Lemma respects_for_each {A} (l : list A) (f : A -> M unit) :
  (forall x, x ∈ l -> respects R (f x)) -> respects R (for_each l f).
Proof.
  induction l as [|x l IH]; intros Hf; simpl; [apply respects_ret|].
  apply respects_bind; [apply Hf, list_elem_of_here|]. intros _.
  apply IH. intros y Hy. apply Hf. now apply list_elem_of_further.
Qed.

End Respects.

Lemma same_but_staging_refl (w : world) : same_but_staging w w.
Proof. now repeat split. Qed.

Lemma same_but_staging_trans (a b c : world) :
  same_but_staging a b -> same_but_staging b c -> same_but_staging a c.
Proof.
  intros (H1 & H2 & H3 & H4) (G1 & G2 & G3 & G4).
  repeat split; congruence.
Qed.

Lemma same_but_staging_set (w : world) (st : list (string * node)) :
  same_but_staging w (set_staging w st).
Proof. now repeat split. Qed.

Lemma respects_bad_zip_file_handler {A} (R : world -> world -> Prop)
    (m : M A) :
  respects R m -> respects R (studip_sync.bad_zip_file_handler m).
Proof.
  intros H w. specialize (H w). unfold studip_sync.bad_zip_file_handler.
  now destruct (m w) as [[a|[]] w'].
Qed.

(** An archive that opens and then proves damaged while it is unpacked
    fails as one that does not open: with an [ExtractionError], which the
    course loop answers with status 2. *)
Lemma extract_bad_zip_file (E : env) (basedir archive name : string)
    (cleanup : bool) (w : world) :
  is_zipfile E archive = true ->
  extractall E archive
    (studip_sync.entries_of (lookup_entry name (staging w)))
  = Raise BadZipFile ->
  studip_sync.extract E basedir archive (VStr name) cleanup w
  = (Raise (ExtractionError "Cannot extract file"), w).
Proof.
  intros Hopen Hbad.
  unfold studip_sync.extract, studip_sync.bad_zip_file_handler.
  rewrite Hopen. cbn [negb]. unfold mbind, lift. cbn [path_join_value].
  now rewrite Hbad.
Qed.

Lemma extract_stages (E : env) (basedir archive : string) (dest : value)
    (cleanup : bool) :
  respects same_but_staging
    (studip_sync.extract E basedir archive dest cleanup).
Proof.
  unfold studip_sync.extract. apply respects_bad_zip_file_handler.
  destruct (negb (is_zipfile E archive));
    [apply respects_raise, same_but_staging_refl|].
  apply respects_bind;
    [apply same_but_staging_trans
    |apply respects_lift, same_but_staging_refl|].
  intros path.
  destruct dest as [| | |name];
    try apply respects_raise, same_but_staging_refl.
  intros w. destruct (extractall E archive _) as [extracted|e];
    [|apply same_but_staging_refl].
  destruct cleanup; [|apply same_but_staging_set].
  destruct extracted as [es|]; [|apply same_but_staging_set].
  destruct (studip_sync.cleanup_extracted E es) as [[[]|e] es'];
    apply same_but_staging_set.
Qed.

Lemma sync_files_stages (E : env) (sync_fully : bool) (c : course)
    (status : Z) :
  respects same_but_staging (studip_sync.sync_files E sync_fully c status).
Proof.
  intros w. unfold studip_sync.sync_files.
  match goal with
  | |- context [mbind ?m ?k w] =>
      assert (H : respects same_but_staging (mbind m k));
      [|specialize (H w); destruct (mbind m k w) as [[[]|e] w']]
  end.
  - apply respects_bind; [apply same_but_staging_trans| |].
    { apply respects_if;
        [apply respects_ret|apply respects_lift]; apply same_but_staging_refl. }
    intros changed.
    apply respects_if; [|apply respects_ret, same_but_staging_refl].
    apply respects_bind;
      [apply same_but_staging_trans
      |apply respects_lift, same_but_staging_refl|].
    intros zip_location.
    apply respects_bind;
      [apply same_but_staging_trans|apply extract_stages|].
    intros _. apply respects_ret, same_but_staging_refl.
  - exact H.
  - now destruct e.
Qed.

Lemma sync_media_stages (E : env) (c : course) (status : Z) :
  respects same_but_staging (studip_sync.sync_media E c status).
Proof.
  intros w. unfold studip_sync.sync_media.
  destruct (path_join_value _ _) as [dir|e]; [|apply same_but_staging_refl].
  destruct (download_media _ _ _ _) as [[]|e]; [apply same_but_staging_refl|].
  destruct e; try apply same_but_staging_refl.
  destruct (negb (status =? 0)); apply same_but_staging_refl.
Qed.

Lemma sync_course_stages (E : env) (sync_fully : bool) (c : course)
    (status : Z) :
  respects same_but_staging (studip_sync.sync_course E sync_fully c status).
Proof.
  unfold studip_sync.sync_course.
  apply respects_bind;
    [apply same_but_staging_trans
    |apply respects_lift, same_but_staging_refl|].
  intros c'.
  apply respects_bind;
    [apply same_but_staging_trans
    |apply respects_lift, same_but_staging_refl|].
  intros skip.
  apply respects_if; [apply respects_ret, same_but_staging_refl|].
  apply respects_bind; [apply same_but_staging_trans| |].
  { apply respects_if;
      [apply sync_files_stages|apply respects_ret, same_but_staging_refl]. }
  intros st.
  apply respects_if;
    [apply sync_media_stages|apply respects_ret, same_but_staging_refl].
Qed.

Lemma sync_courses_stages (E : env) (sync_fully : bool)
    (courses : list course) :
  forall status,
    respects same_but_staging
      (studip_sync.sync_courses E sync_fully courses status).
Proof.
  induction courses as [|c rest IH]; intros status; simpl.
  - apply respects_ret, same_but_staging_refl.
  - apply respects_bind;
      [apply same_but_staging_trans|apply sync_course_stages|].
    intros st. apply IH.
Qed.

(** X10. A run of strategy B that returns, returns 0, 1 or 2, and 1 in the
    same cases as strategy A, with the staging area untouched. Otherwise,
    with a files destination, the run ends with the semester filter set
    back to [current], then one call of rsync from the staging directory to
    the destination, with [--recursive --checksum --backup -v] and the
    suffix of the time the run began, also after a status of 2, and last the
    update of the time of the last sync when the status is 0. Before these,
    only plugin hooks and changes of the semester filter are recorded. *)
Theorem sync_exit_status (E : env) (sync_fully sync_recent : bool)
    (w w' : world) (st : Z)
    (Hrun : studip_sync.sync E sync_fully sync_recent w = (Ok st, w')) :
  (st = 0 \/ st = 1 \/ st = 2)
  /\ (st = 1 <-> stops_early E sync_recent = true)
  /\ (st = 1 -> staging w' = staging w /\ forallb quiet (added w w') = true)
  /\ (st <> 1 -> configured (files_destination (CONFIG E)) = true ->
      exists before,
        forallb quiet before = true
        /\ added w w'
           = before
             ++ [EvSetSemester (Some "current");
                 EvSubprocess
                   ["rsync"; "--recursive"; "--checksum"; "--backup"; "-v";
                    "--suffix="
                    +:+ studip_rsync.old_suffix (local (clock E (ticks w)));
                    path_join (workdir E) "extracted" +:+ "/";
                    dir_of (files_destination (CONFIG E))]]
             ++ (if st =? 0 then [EvUpdateLastSync (last_sync w')] else [])).
Proof.
  unfold studip_sync.sync in Hrun. unfold mbind at 1 in Hrun.
  unfold plugins_hook, modify in Hrun.
  rewrite mbind_RsyncWrapper_init in Hrun.
  unfold stops_early, added.
  assert (Hadd : forall evs,
             drop (length (events w))
               ((events w ++ [EvHook "hook_start" []]) ++ evs)
             = EvHook "hook_start" [] :: evs).
  { intros evs. now rewrite <- app_assoc, drop_app_length. }
  destruct (login (the_session E)) as [[]|e].
  2:{ destruct e; unfold ret, raise in Hrun; try discriminate;
        injection Hrun as <- <-;
        cbn [refused is_ok orb andb staging fs events emit tick];
        rewrite <- (app_nil_r (events w ++ _)), Hadd;
        (split; [auto|]); (split; [tauto|]); (split; [auto|]); congruence. }
  cbn [refused is_ok orb andb].
  unfold mbind at 1 in Hrun.
  destruct (select_semester_result E (tick (emit (EvHook "hook_start" []) w)))
    as (evs & Hsel & Hevs & Hquiet).
  rewrite Hsel in Hrun. clear Hsel. cbn [fs staging events emit tick] in Hrun.
  destruct (semester_unknown E); cbn [negb orb] in *.
  { unfold ret in Hrun. injection Hrun as <- <-.
    rewrite (Hevs eq_refl). cbn [staging events]. rewrite Hadd.
    split; [auto|]. split; [tauto|]. split; [auto|]. congruence. }
  clear Hevs.
  destruct (get_courses (the_session E) sync_recent) as [courses|e].
  2:{ destruct e; unfold ret, raise in Hrun; try discriminate;
        injection Hrun as <- <-; cbn [refused staging events]; rewrite Hadd;
        (split; [auto|]); (split; [tauto|]); (split; [auto|]); congruence. }
  cbn [refused].
  unfold mbind at 1 in Hrun.
  match type of Hrun with
  | context [studip_sync.sync_courses E sync_fully courses 0 ?w2] =>
      pose proof (sync_courses_stages E sync_fully courses 0 w2)
        as (_ & _ & Hticks & Hevents);
      destruct (studip_sync.sync_courses E sync_fully courses 0 w2)
        as [[st1|e] w3] eqn:Hloop; [|discriminate]
  end.
  cbn [snd ticks events] in Hticks, Hevents.
  apply sync_sync_courses_status in Hloop.
  unfold mbind, set_semester, studip_sync.RsyncWrapper_sync, modify, ret, now,
    studip_sync.rsync_argv in Hrun.
  cbn [studip_sync.suffix] in Hrun.
  destruct (configured (files_destination (CONFIG E))).
  - destruct (st1 =? 0) eqn:Hzero; injection Hrun as <- <-;
      (split; [lia|]); (split; [split; [lia|discriminate]|]);
      (split; [lia|]); intros _ _;
      exists (EvHook "hook_start" [] :: evs);
      (split; [exact Hquiet|]);
      unfold update_last_sync, emit, tick; cbn [events last_sync];
      rewrite Hevents.
    + rewrite <- !app_assoc, drop_app_length, Hzero. reflexivity.
    + rewrite <- !app_assoc, drop_app_length, Hzero. reflexivity.
  - injection Hrun as <- <-.
    split; [lia|]. split; [split; [lia|discriminate]|]. split; [lia|].
    discriminate.
Qed.

Lemma sync_exit_status_witness :
  exists w' before,
    studip_sync.sync Demo.first_fails true false Demo.fresh = (Ok 2, w')
    /\ added Demo.fresh w'
       = before
         ++ [EvSetSemester (Some "current");
             EvSubprocess
               ["rsync"; "--recursive"; "--checksum"; "--backup"; "-v";
                "--suffix=_2024-03-09_12+00+00.old";
                "work/extracted/"; "dest"]]
         ++ [].
Proof.
  assert (Hrun : exists w',
             studip_sync.sync Demo.first_fails true false Demo.fresh
             = (Ok 2, w')).
  { eexists. vm_compute. reflexivity. }
  destruct Hrun as [w' Hrun]. exists w'.
  destruct (sync_exit_status Demo.first_fails true false Demo.fresh w' 2 Hrun)
    as (_ & _ & _ & H).
  destruct H as (before & _ & H); [discriminate|reflexivity|].
  exists before. split; [exact Hrun|]. exact H.
Defined.

(** ** What the walk over empty directories leaves *)

Lemma node_induction (P : node -> Prop) :
  (forall c, P (File c)) ->
  (forall es, Forall (fun e => P (snd e)) es -> P (Dir es)) ->
  forall n, P n.
Proof.
  intros Hfile Hdir. fix IH 1. intros [c|es]; [apply Hfile|].
  apply Hdir. induction es as [|[name x] es IHes]; constructor.
  - apply IH.
  - exact IHes.
Qed.

Lemma walk_go (l : list (string * node)) :
  (fix go (es : list (string * node)) : list (string * node) :=
     match es with
     | [] => []
     | (name, x) :: es' =>
         match studip_sync.walk_rmdir x with
         | Some x' => (name, x') :: go es'
         | None => go es'
         end
     end) l
  = walk_entries l.
Proof.
  induction l as [|[name x] es IH]; [reflexivity|].
  unfold walk_entries. cbn [flat_map fst snd].
  rewrite IH. now destruct (studip_sync.walk_rmdir x).
Qed.

Lemma walk_rmdir_Dir (e : string * node) (es : list (string * node)) :
  studip_sync.walk_rmdir (Dir (e :: es))
  = Some (Dir (walk_entries (e :: es))).
Proof. rewrite <- walk_go. reflexivity. Qed.

Lemma map_below_below {A} (a : string) (l : list (list string * A)) :
  List.map fst (List.map (below a) l) = List.map (cons a) (List.map fst l).
Proof. rewrite !List.map_map. reflexivity. Qed.

Lemma filter_map_below (a : string) (l : list (list string * bool)) :
  List.filter (fun d => negb (snd d)) (List.map (below a) l)
  = List.map (below a) (List.filter (fun d => negb (snd d)) l).
Proof.
  induction l as [|d l IH]; [reflexivity|]. simpl.
  destruct (negb (snd d)); simpl; now rewrite IH.
Qed.

(** What a walk leaves of a tree. *)
Lemma walk_rmdir_leaves (n : node) :
  files_left (studip_sync.walk_rmdir n) = files_of n
  /\ dirs_left (studip_sync.walk_rmdir n) = inhabited_dirs n.
Proof.
  induction n as [c|es IH] using node_induction; [split; reflexivity|].
  destruct es as [|e es]; [split; reflexivity|].
  rewrite walk_rmdir_Dir.
  unfold files_left, dirs_left, inhabited_dirs.
  change (dirs_of (Dir (e :: es)))
    with (([], false)
          :: flat_map (fun e => List.map (below (fst e)) (dirs_of (snd e)))
               (e :: es)).
  cbn [files_of dirs_of List.filter snd negb List.map fst].
  revert IH. generalize (e :: es) as l. clear e es. intros l IH.
  induction IH as [|[name x] l [Hfiles Hdirs] _ [IHfiles IHdirs]];
    [split; reflexivity|].
  cbn [fst snd] in Hfiles, Hdirs.
  unfold walk_entries in *. cbn [flat_map fst snd].
  rewrite !flat_map_app, List.filter_app, !List.map_app.
  injection IHdirs as IHdirs. rewrite IHfiles, IHdirs.
  rewrite filter_map_below, map_below_below.
  fold (inhabited_dirs x). rewrite <- Hfiles, <- Hdirs.
  destruct (studip_sync.walk_rmdir x) as [x'|];
    cbn [flat_map fst snd files_left dirs_left].
  - rewrite !app_nil_r, map_below_below. split; reflexivity.
  - split; reflexivity.
Qed.

(** X11. [remove_empty_dirs] removes no file: the files left are the files
    of the tree, under the same paths. The directories left are the ones
    that held something at the start, also those that hold nothing once
    their empty subdirectories are gone. The top directory itself goes
    exactly when it was empty. *)
Theorem remove_empty_dirs_keeps_files (es : list (string * node)) :
  let left := Dir <$> studip_sync.remove_empty_dirs es in
  files_left left = files_of (Dir es)
  /\ dirs_left left = inhabited_dirs (Dir es)
  /\ (studip_sync.remove_empty_dirs es = None <-> es = []).
Proof.
  intros left. subst left.
  destruct (walk_rmdir_leaves (Dir es)) as [Hfiles Hdirs].
  unfold studip_sync.remove_empty_dirs.
  destruct es as [|e es]; [repeat split; discriminate|].
  rewrite walk_rmdir_Dir in *. cbn [fmap option_fmap option_map].
  split; [exact Hfiles|]. split; [exact Hdirs|].
  split; discriminate.
Qed.

(** ** Entries of a directory *)

Lemma lookup_entry_None (n : string) (es : list (string * node)) :
  lookup_entry n es = None <-> n ∉ names es.
Proof.
  induction es as [|[m x] es IH]; simpl.
  - split; [intros _ H; inversion H|reflexivity].
  - destruct (String.eqb m n) eqn:Hmn.
    + apply String.eqb_eq in Hmn as ->. split; [discriminate|].
      intros H. exfalso. apply H. apply list_elem_of_here.
    + apply String.eqb_neq in Hmn. rewrite IH, not_elem_of_cons.
      split; [auto|tauto].
Qed.

Lemma lookup_entry_elem (n : string) (x : node) (es : list (string * node)) :
  NoDup (names es) -> (n, x) ∈ es -> lookup_entry n es = Some x.
Proof.
  induction es as [|[m y] es IH]; simpl; intros Hnd Hin;
    [inversion Hin|].
  apply NoDup_cons in Hnd as [Hm Hnd].
  apply elem_of_cons in Hin as [[= <- <-]|Hin].
  - now rewrite String.eqb_refl.
  - destruct (String.eqb m n) eqn:Hmn; [|now apply IH].
    apply String.eqb_eq in Hmn as ->. exfalso. apply Hm.
    unfold names. apply list_elem_of_In, in_map_iff.
    exists (n, x). split; [reflexivity|]. now apply list_elem_of_In.
Qed.

Lemma lookup_entry_app (n : string) (a b : list (string * node)) :
  lookup_entry n (a ++ b)
  = match lookup_entry n a with
    | Some x => Some x
    | None => lookup_entry n b
    end.
Proof.
  induction a as [|[m x] a IH]; simpl; [reflexivity|].
  now destruct (String.eqb m n).
Qed.

Lemma lookup_set_entry (w n : string) (x : node) (es : list (string * node)) :
  is_Some (lookup_entry w es) ->
  lookup_entry n (set_entry w x es)
  = if String.eqb w n then Some x else lookup_entry n es.
Proof.
  induction es as [|[m y] es IH]; simpl; intros [z Hz]; [discriminate|].
  destruct (String.eqb m w) eqn:Hmw; simpl.
  - apply String.eqb_eq in Hmw as ->. now destruct (String.eqb w n).
  - destruct (String.eqb m n) eqn:Hmn.
    + apply String.eqb_eq in Hmn as ->.
      rewrite String.eqb_sym in Hmw. now rewrite Hmw.
    + apply IH. eauto.
Qed.

Lemma names_set_entry (w : string) (x : node) (es : list (string * node)) :
  is_Some (lookup_entry w es) -> names (set_entry w x es) = names es.
Proof.
  induction es as [|[m y] es IH]; simpl; intros [z Hz]; [discriminate|].
  destruct (String.eqb m w) eqn:Hmw; simpl; [reflexivity|].
  f_equal. apply IH. eauto.
Qed.

Lemma set_entry_app (w : string) (x : node) (a b : list (string * node)) :
  is_Some (lookup_entry w a) ->
  set_entry w x (a ++ b) = set_entry w x a ++ b.
Proof.
  induction a as [|[m y] a IH]; simpl; intros [z Hz]; [discriminate|].
  destruct (String.eqb m w); [reflexivity|].
  simpl. f_equal. apply IH. eauto.
Qed.

Lemma set_entry_twice (w : string) (x y : node) (es : list (string * node)) :
  set_entry w x (set_entry w y es) = set_entry w x es.
Proof.
  induction es as [|[m z] es IH]; simpl.
  - now rewrite String.eqb_refl.
  - destruct (String.eqb m w) eqn:Hmw; simpl; rewrite Hmw; [reflexivity|].
    now rewrite IH.
Qed.

Lemma set_entry_same (w : string) (x : node) (es : list (string * node)) :
  lookup_entry w es = Some x -> set_entry w x es = es.
Proof.
  induction es as [|[m z] es IH]; simpl; [discriminate|].
  destruct (String.eqb m w) eqn:Hmw.
  - now intros [= ->].
  - intros H. now rewrite IH.
Qed.

Lemma remove_entry_fresh (n : string) (es : list (string * node)) :
  n ∉ names es -> remove_entry n es = es.
Proof.
  induction es as [|[m x] es IH]; simpl; [reflexivity|].
  intros [Hn Hes]%not_elem_of_cons.
  destruct (String.eqb m n) eqn:Hmn.
  - apply String.eqb_eq in Hmn. congruence.
  - now rewrite IH.
Qed.

Lemma remove_entry_app (n : string) (a b : list (string * node)) :
  remove_entry n (a ++ b) = remove_entry n a ++ remove_entry n b.
Proof.
  induction a as [|[m x] a IH]; simpl; [reflexivity|].
  destruct (String.eqb m n); [exact IH|]. simpl. now rewrite IH.
Qed.

Lemma remove_set_entry (w : string) (x : node) (es : list (string * node)) :
  is_Some (lookup_entry w es) ->
  remove_entry w (set_entry w x es) = remove_entry w es.
Proof.
  induction es as [|[m y] es IH]; simpl; intros [z Hz]; [discriminate|].
  destruct (String.eqb m w) eqn:Hmw; simpl; rewrite Hmw; [reflexivity|].
  f_equal. apply IH. eauto.
Qed.

Lemma names_app (a b : list (string * node)) :
  names (a ++ b) = names a ++ names b.
Proof. apply List.map_app. Qed.

(** Taking the entry out of the middle of a directory without duplicates. *)
Lemma remove_entry_middle (n : string) (x : node)
    (a b : list (string * node)) :
  NoDup (names (a ++ (n, x) :: b)) ->
  remove_entry n (a ++ (n, x) :: b) = a ++ b
  /\ lookup_entry n (a ++ (n, x) :: b) = Some x.
Proof.
  intros Hnd. rewrite names_app in Hnd. cbn [names List.map fst] in Hnd.
  apply NoDup_app in Hnd as (Ha & Hab & Hb).
  apply NoDup_cons in Hb as [Hnb Hb].
  assert (Hna : n ∉ names a).
  { intros Hin. apply (Hab n Hin). apply list_elem_of_here. }
  split.
  - rewrite remove_entry_app. cbn [remove_entry]. rewrite String.eqb_refl.
    now rewrite !remove_entry_fresh.
  - rewrite lookup_entry_app. apply lookup_entry_None in Hna. rewrite Hna.
    simpl. now rewrite String.eqb_refl.
Qed.

Lemma hidden_visible_nil (es : list (string * node)) :
  hidden_entries es = [] -> visible_entries es = es.
Proof.
  unfold hidden_entries, visible_entries.
  induction es as [|[n x] es IH]; simpl; [reflexivity|].
  destruct (studip_sync.hidden n); simpl; [discriminate|].
  intros H. now rewrite IH.
Qed.

(** The names [glob] lists in a directory. *)
Lemma visible_names (es : list (string * node)) :
  filter (fun n => negb (studip_sync.hidden n)) (List.map fst es)
  = names (visible_entries es).
Proof.
  unfold visible_entries, names.
  induction es as [|[n x] es IH]; [reflexivity|].
  cbn [List.map fst List.filter]. rewrite filter_cons.
  destruct (decide _) as [H|H]; destruct (studip_sync.hidden n);
    cbn [negb Is_true] in *; try contradiction.
  - cbn [List.map fst]. now rewrite IH.
  - exact IH.
Qed.

(** The loop of moves, when no listed entry meets its own name at the top:
    the listed entries of the wrapper end up behind the entries of the top,
    the others stay in the wrapper. *)
Lemma move_up_all (wrapper : string) (rem : list (string * node)) :
  forall (kept top : list (string * node)),
    lookup_entry wrapper top = Some (Dir (kept ++ rem)) ->
    NoDup (names (kept ++ rem)) ->
    (forall n x, (n, x) ∈ rem -> studip_sync.hidden n = false ->
                 lookup_entry n top = None) ->
    studip_sync.move_up (names (visible_entries rem)) wrapper top
    = (Ok tt,
       set_entry wrapper (Dir (kept ++ hidden_entries rem)) top
       ++ visible_entries rem).
Proof.
  induction rem as [|[n x] rem IH]; intros kept top Hw Hnd Hfresh.
  - cbn [visible_entries hidden_entries List.filter names List.map
         studip_sync.move_up].
    rewrite !app_nil_r in *. now rewrite set_entry_same.
  - unfold visible_entries, hidden_entries. cbn [List.filter fst].
    destruct (studip_sync.hidden n) eqn:Hn; cbn [negb].
    + fold (visible_entries rem). fold (hidden_entries rem).
      rewrite (IH (kept ++ [(n, x)]) top).
      * now rewrite <- app_assoc.
      * now rewrite <- app_assoc.
      * now rewrite <- app_assoc.
      * intros m y Hin. apply (Hfresh m y). now apply list_elem_of_further.
    + fold (visible_entries rem). fold (hidden_entries rem).
      cbn [names List.map fst studip_sync.move_up]. rewrite Hw.
      destruct (remove_entry_middle n x kept rem Hnd) as [Hrm Hlk].
      rewrite Hlk, Hrm.
      rewrite (Hfresh n x (list_elem_of_here _ _) Hn).
      rewrite bool_decide_eq_false_2 by (intros [? [=]]).
      fold (names (visible_entries rem)).
      assert (Hsome : is_Some (lookup_entry wrapper top)) by eauto.
      rewrite (IH kept).
      * rewrite set_entry_app
          by (rewrite lookup_set_entry, String.eqb_refl; eauto).
        rewrite set_entry_twice. now rewrite <- app_assoc.
      * rewrite lookup_entry_app, lookup_set_entry by exact Hsome.
        now rewrite String.eqb_refl.
      * rewrite names_app in *. cbn [names List.map fst] in Hnd.
        apply NoDup_app in Hnd as (Ha & Hab & Hb).
        apply NoDup_cons in Hb as [Hnb Hb].
        apply NoDup_app. split; [exact Ha|]. split; [|exact Hb].
        intros m Hm Hm'. apply (Hab m Hm). now apply list_elem_of_further.
      * intros m y Hin Hm.
        assert (Hmtop : lookup_entry m top = None).
        { apply (Hfresh m y); [now apply list_elem_of_further|exact Hm]. }
        rewrite lookup_entry_app, lookup_set_entry by exact Hsome.
        destruct (String.eqb wrapper m) eqn:Hwm.
        { apply String.eqb_eq in Hwm as <-. rewrite Hw in Hmtop.
          discriminate. }
        rewrite Hmtop. simpl.
        destruct (String.eqb n m) eqn:Hnm; [|reflexivity].
        apply String.eqb_eq in Hnm as <-. exfalso.
        rewrite names_app in Hnd. cbn [names List.map fst] in Hnd.
        apply NoDup_app in Hnd as (_ & _ & Hb).
        apply NoDup_cons in Hb as [Hnb _]. apply Hnb.
        unfold names. apply list_elem_of_In, in_map_iff.
        exists (n, y). split; [reflexivity|]. now apply list_elem_of_In.
Qed.

(** ** Removing the wrapper directory *)

Lemma wrapped_lookup (es : list (string * node)) (wrapper : string)
    (children : list (string * node)) :
  wrapped es wrapper children ->
  lookup_entry wrapper es = Some (Dir children).
Proof.
  intros (Hone & Hnd & _). apply lookup_entry_elem; [exact Hnd|].
  assert (Hin : (wrapper, Dir children)
                ∈ filter (fun e => is_dir (snd e)) es).
  { rewrite Hone. apply list_elem_of_here. }
  now apply list_elem_of_filter in Hin as [_ Hin].
Qed.

(** With a wrapper whose name is no pattern, and no listed entry of it
    meeting its own name at the top: the listed entries are moved up, and
    then the wrapper is to be removed. *)
Lemma remove_intermediary_dir_moves (E : env) (es : list (string * node))
    (wrapper : string) (children : list (string * node)) :
  wrapped es wrapper children ->
  studip_sync.has_magic wrapper = false ->
  (forall n x, (n, x) ∈ children -> studip_sync.hidden n = false ->
               lookup_entry n es = None) ->
  studip_sync.remove_intermediary_dir E es
  = studip_sync.rmdir wrapper
      (set_entry wrapper (Dir (hidden_entries children)) es
       ++ visible_entries children).
Proof.
  intros Hwrapped Hplain Hfresh.
  pose proof (wrapped_lookup _ _ _ Hwrapped) as Hw.
  destruct Hwrapped as (Hone & Hnd & Hch).
  unfold studip_sync.remove_intermediary_dir. rewrite Hone.
  unfold studip_sync.glob_children. rewrite Hplain. cbn [andb].
  rewrite visible_names.
  now rewrite (move_up_all wrapper children [] es Hw Hch Hfresh).
Qed.

Lemma visible_fresh (wrapper : string) (es vis : list (string * node)) :
  is_Some (lookup_entry wrapper es) ->
  (forall n x, (n, x) ∈ vis -> lookup_entry n es = None) ->
  wrapper ∉ names vis.
Proof.
  intros [d Hd] Hfresh Hin.
  unfold names in Hin. apply list_elem_of_In, in_map_iff in Hin
    as ([n x] & Hn & Hin). simpl in Hn. subst n.
  apply list_elem_of_In in Hin. rewrite (Hfresh _ _ Hin) in Hd. discriminate.
Qed.

Lemma visible_entries_elem (n : string) (x : node)
    (es : list (string * node)) :
  (n, x) ∈ visible_entries es <->
  (n, x) ∈ es /\ studip_sync.hidden n = false.
Proof.
  unfold visible_entries. rewrite !list_elem_of_In, filter_In. simpl.
  now rewrite negb_true_iff.
Qed.

(** X12. When the extracted tree has exactly one directory, whose name
    has no character of a glob pattern, whose entries are all listed by the
    glob and collide with no name at the top, [remove_intermediary_dir]
    ends well: the top holds its other entries, followed by the entries of
    the wrapper in their order, and the wrapper is gone. *)
Theorem remove_intermediary_dir_unwraps (E : env)
    (es : list (string * node)) (wrapper : string)
    (children : list (string * node))
    (Hwrapped : wrapped es wrapper children)
    (Hplain : studip_sync.has_magic wrapper = false)
    (Hvisible : hidden_entries children = [])
    (Hfresh : forall n x, (n, x) ∈ children -> lookup_entry n es = None) :
  studip_sync.remove_intermediary_dir E es
  = (Ok tt, remove_entry wrapper es ++ children).
Proof.
  pose proof (wrapped_lookup _ _ _ Hwrapped) as Hw.
  rewrite (remove_intermediary_dir_moves E es wrapper children Hwrapped Hplain)
    by (intros n x Hin _; now apply (Hfresh n x)).
  rewrite Hvisible, (hidden_visible_nil _ Hvisible).
  assert (Hsome : is_Some (lookup_entry wrapper es)) by eauto.
  unfold studip_sync.rmdir.
  rewrite lookup_entry_app, lookup_set_entry, String.eqb_refl by exact Hsome.
  rewrite remove_entry_app, remove_set_entry by exact Hsome.
  rewrite (remove_entry_fresh wrapper children); [reflexivity|].
  now apply (visible_fresh wrapper es).
Qed.

Lemma remove_intermediary_dir_unwraps_witness :
  studip_sync.remove_intermediary_dir Demo.one_course
    [("Course files", Dir [("notes.txt", File "notes");
                           ("week1", Dir [("slides.pdf", File "slides")])])]
  = (Ok tt, [("notes.txt", File "notes");
             ("week1", Dir [("slides.pdf", File "slides")])]).
Proof.
  apply (remove_intermediary_dir_unwraps Demo.one_course
           [("Course files", Dir [("notes.txt", File "notes");
                                  ("week1",
                                   Dir [("slides.pdf", File "slides")])])]
           "Course files").
  - split; [reflexivity|]. split.
    + apply NoDup_singleton.
    + apply NoDup_cons. split; [|apply NoDup_singleton].
      intros Hin. apply list_elem_of_singleton in Hin. discriminate.
  - reflexivity.
  - reflexivity.
  - intros n x Hin.
    apply elem_of_cons in Hin as [[= -> _]|Hin]; [reflexivity|].
    apply list_elem_of_singleton in Hin as [= -> _]. reflexivity.
Defined.

(** X13. When the wrapper holds an entry whose name begins with a dot, the
    glob passes over it: the other entries, which collide with no name at
    the top, are moved up, the hidden ones stay in the wrapper, and removing
    the wrapper fails with an [OSError]. *)
Theorem remove_intermediary_dir_hidden (E : env)
    (es : list (string * node)) (wrapper : string)
    (children : list (string * node))
    (Hwrapped : wrapped es wrapper children)
    (Hplain : studip_sync.has_magic wrapper = false)
    (Hhidden : hidden_entries children <> [])
    (Hfresh : forall n x, (n, x) ∈ children -> studip_sync.hidden n = false ->
                          lookup_entry n es = None) :
  studip_sync.remove_intermediary_dir E es
  = (Raise OSError,
     set_entry wrapper (Dir (hidden_entries children)) es
     ++ visible_entries children).
Proof.
  pose proof (wrapped_lookup _ _ _ Hwrapped) as Hw.
  rewrite (remove_intermediary_dir_moves E es wrapper children Hwrapped Hplain
             Hfresh).
  assert (Hsome : is_Some (lookup_entry wrapper es)) by eauto.
  unfold studip_sync.rmdir.
  rewrite lookup_entry_app, lookup_set_entry, String.eqb_refl by exact Hsome.
  now destruct (hidden_entries children).
Qed.

Lemma remove_intermediary_dir_hidden_witness :
  studip_sync.remove_intermediary_dir Demo.one_course archive_with_hidden
  = (Raise OSError,
     [("Course files", Dir [(".DS_Store", File "meta")]);
      ("notes.txt", File "notes")]).
Proof.
  apply (remove_intermediary_dir_hidden Demo.one_course archive_with_hidden
           "Course files"
           [("notes.txt", File "notes"); (".DS_Store", File "meta")]).
  - split; [reflexivity|]. split.
    + apply NoDup_singleton.
    + apply NoDup_cons. split; [|apply NoDup_singleton].
      intros Hin. apply list_elem_of_singleton in Hin. discriminate.
  - reflexivity.
  - discriminate.
  - intros n x Hin Hn.
    apply elem_of_cons in Hin as [[= -> _]|Hin]; [reflexivity|].
    apply list_elem_of_singleton in Hin as [= -> _]. discriminate.
Defined.

Lemma move_up_clash (wrapper : string) (rem : list (string * node)) :
  forall (kept top : list (string * node)),
    lookup_entry wrapper top = Some (Dir (kept ++ rem)) ->
    NoDup (names (kept ++ rem)) ->
    (exists n x, (n, x) ∈ rem /\ studip_sync.hidden n = false
                 /\ is_Some (lookup_entry n top)) ->
    fst (studip_sync.move_up (names (visible_entries rem)) wrapper top)
    = Raise ShutilError.
Proof.
  induction rem as [|[m y] rem IH]; intros kept top Hw Hnd (n & x & Hin & Hn & Hc).
  - inversion Hin.
  - unfold visible_entries. cbn [List.filter fst].
    destruct (studip_sync.hidden m) eqn:Hm; cbn [negb].
    + fold (visible_entries rem).
      apply (IH (kept ++ [(m, y)]) top).
      * now rewrite <- app_assoc.
      * now rewrite <- app_assoc.
      * exists n, x. split; [|auto].
        apply elem_of_cons in Hin as [[= -> ->]|Hin]; [congruence|exact Hin].
    + fold (visible_entries rem).
      cbn [names List.map fst studip_sync.move_up]. rewrite Hw.
      destruct (remove_entry_middle m y kept rem Hnd) as [Hrm Hlk].
      rewrite Hlk, Hrm.
      destruct (bool_decide (is_Some (lookup_entry m top))) eqn:Hmtop;
        [reflexivity|].
      apply bool_decide_eq_false in Hmtop.
      fold (names (visible_entries rem)).
      assert (Hsome : is_Some (lookup_entry wrapper top)) by eauto.
      apply (IH kept).
      * rewrite lookup_entry_app, lookup_set_entry by exact Hsome.
        now rewrite String.eqb_refl.
      * rewrite names_app in *. cbn [names List.map fst] in Hnd.
        apply NoDup_app in Hnd as (Ha & Hab & Hb).
        apply NoDup_cons in Hb as [Hnb Hb].
        apply NoDup_app. split; [exact Ha|]. split; [|exact Hb].
        intros k Hk Hk'. apply (Hab k Hk). now apply list_elem_of_further.
      * exists n, x.
        apply elem_of_cons in Hin as [[= -> ->]|Hin]; [contradiction|].
        split; [exact Hin|]. split; [exact Hn|].
        rewrite lookup_entry_app, lookup_set_entry by exact Hsome.
        destruct (String.eqb wrapper n); [eauto|].
        destruct Hc as [z ->]. eauto.
Qed.

(** X14. When an entry of the wrapper that the glob lists has the name of
    an entry at the top, the wrapper itself included,
    [remove_intermediary_dir] fails with the error of [shutil.move]. *)
Theorem remove_intermediary_dir_clash (E : env)
    (es : list (string * node)) (wrapper : string)
    (children : list (string * node)) (n : string) (x : node)
    (Hwrapped : wrapped es wrapper children)
    (Hplain : studip_sync.has_magic wrapper = false)
    (Hchild : (n, x) ∈ children /\ studip_sync.hidden n = false)
    (Hclash : is_Some (lookup_entry n es)) :
  fst (studip_sync.remove_intermediary_dir E es) = Raise ShutilError.
Proof.
  pose proof (wrapped_lookup _ _ _ Hwrapped) as Hw.
  destruct Hwrapped as (Hone & Hnd & Hch). destruct Hchild as [Hin Hn].
  unfold studip_sync.remove_intermediary_dir. rewrite Hone.
  unfold studip_sync.glob_children. rewrite Hplain. cbn [andb].
  rewrite visible_names.
  pose proof (move_up_clash wrapper children [] es Hw Hch) as Hmove.
  destruct (studip_sync.move_up _ wrapper es) as [[[]|e] es'];
    cbn [fst] in *.
  - discriminate Hmove. eauto.
  - apply Hmove. eauto.
Qed.

Lemma remove_intermediary_dir_clash_witness :
  fst (studip_sync.remove_intermediary_dir Demo.one_course
         archive_with_namesake)
  = Raise ShutilError.
Proof.
  apply (remove_intermediary_dir_clash Demo.one_course archive_with_namesake
           "Course files"
           [("notes.txt", File "notes"); ("Course files", File "index")]
           "Course files" (File "index")).
  - split; [reflexivity|]. split.
    + apply NoDup_singleton.
    + apply NoDup_cons. split; [|apply NoDup_singleton].
      intros Hin. apply list_elem_of_singleton in Hin. discriminate.
  - reflexivity.
  - split; [|reflexivity].
    apply list_elem_of_further, list_elem_of_here.
  - simpl. eauto.
Defined.

(** ** The contents of the files *)

Lemma contents_in_cons (n : string) (x : node) (es : list (string * node)) :
  contents_in ((n, x) :: es) = contents x ++ contents_in es.
Proof.
  unfold contents_in, contents. cbn [files_of flat_map fst snd].
  rewrite List.map_app, List.map_map. reflexivity.
Qed.

Lemma contents_in_app (a b : list (string * node)) :
  contents_in (a ++ b) = contents_in a ++ contents_in b.
Proof.
  induction a as [|[n x] a IH]; [reflexivity|].
  cbn [app]. rewrite !contents_in_cons, IH. apply app_assoc.
Qed.

Lemma names_remove_entry (n : string) (es : list (string * node)) :
  NoDup (names es) -> NoDup (names (remove_entry n es)).
Proof.
  induction es as [|[m x] es IH]; simpl; [auto|].
  intros [Hm Hes]%NoDup_cons.
  destruct (String.eqb m n); [now apply IH|].
  cbn [names List.map fst]. apply NoDup_cons. split; [|now apply IH].
  intros Hin. apply Hm. clear -Hin.
  induction es as [|[k y] es IH]; simpl in *; [exact Hin|].
  destruct (String.eqb k n).
  - apply list_elem_of_further. now apply IH.
  - cbn [names List.map fst] in Hin.
    apply elem_of_cons in Hin as [->|Hin]; [apply list_elem_of_here|].
    apply list_elem_of_further. now apply IH.
Qed.

(** The contents of a directory, one entry taken out. *)
Lemma contents_split (w : string) (y : node) (es : list (string * node)) :
  NoDup (names es) -> lookup_entry w es = Some y ->
  contents_in es ≡ₚ contents y ++ contents_in (remove_entry w es).
Proof.
  induction es as [|[m z] es IH]; simpl; [discriminate|].
  intros [Hm Hes]%NoDup_cons.
  destruct (String.eqb m w) eqn:Hmw.
  - apply String.eqb_eq in Hmw as ->. intros [= ->].
    rewrite contents_in_cons. now rewrite remove_entry_fresh.
  - intros Hy. rewrite !contents_in_cons, (IH Hes Hy).
    apply Permutation_app_swap_app.
Qed.

Lemma contents_set_entry (w : string) (y : node) (es : list (string * node)) :
  NoDup (names es) -> is_Some (lookup_entry w es) ->
  contents_in (set_entry w y es)
  ≡ₚ contents y ++ contents_in (remove_entry w es).
Proof.
  intros Hnd Hsome.
  rewrite (contents_split w y (set_entry w y es)).
  - now rewrite remove_set_entry.
  - now rewrite names_set_entry.
  - rewrite lookup_set_entry by exact Hsome. now rewrite String.eqb_refl.
Qed.

Lemma move_up_contents (wrapper : string) (ns : list string) :
  forall top,
    movable wrapper top ->
    movable wrapper (snd (studip_sync.move_up ns wrapper top))
    /\ contents_in (snd (studip_sync.move_up ns wrapper top))
       ≡ₚ contents_in top.
Proof.
  induction ns as [|n ns IH]; intros top Hmovable;
    cbn [studip_sync.move_up].
  - split; [exact Hmovable|reflexivity].
  - assert (Hsame : movable wrapper top
                    /\ contents_in top ≡ₚ contents_in top)
      by (split; [exact Hmovable|reflexivity]).
    destruct Hmovable as [Hnd Hch].
    destruct (lookup_entry wrapper top) as [[c|ch]|] eqn:Hw;
      try exact Hsame.
    destruct (lookup_entry n ch) as [x|] eqn:Hn; [|exact Hsame].
    destruct (bool_decide (is_Some (lookup_entry n top))) eqn:Hfree;
      [exact Hsame|].
    clear Hsame. apply bool_decide_eq_false in Hfree.
    assert (Hnone : lookup_entry n top = None).
    { destruct (lookup_entry n top); [exfalso; eauto|reflexivity]. }
    assert (Hsome : is_Some (lookup_entry wrapper top)) by eauto.
    specialize (Hch ch eq_refl).
    set (top1 := set_entry wrapper (Dir (remove_entry n ch)) top ++ [(n, x)]).
    assert (Hmov : movable wrapper top1).
    { split.
      - unfold top1. rewrite names_app, names_set_entry by exact Hsome.
        apply NoDup_app. split; [exact Hnd|]. split; [|apply NoDup_singleton].
        intros k Hk Hk'. apply list_elem_of_singleton in Hk'. subst k.
        now apply lookup_entry_None in Hnone.
      - intros ch'. unfold top1.
        rewrite lookup_entry_app, lookup_set_entry by exact Hsome.
        rewrite String.eqb_refl. intros [= <-].
        now apply names_remove_entry. }
    destruct (IH top1 Hmov) as [Hmov' Hperm].
    split; [exact Hmov'|]. rewrite Hperm. unfold top1.
    rewrite contents_in_app, contents_in_cons.
    rewrite (contents_set_entry wrapper _ top Hnd Hsome).
    rewrite (contents_split wrapper (Dir ch) top Hnd Hw).
    change (contents_in []) with (@nil string). rewrite app_nil_r.
    change (contents (Dir ch)) with (contents_in ch).
    change (contents (Dir (remove_entry n ch)))
      with (contents_in (remove_entry n ch)).
    rewrite (contents_split n x ch Hch Hn).
    rewrite <- !app_assoc.
    rewrite (Permutation_app_comm (contents x) (_ ++ _)).
    now rewrite <- app_assoc.
Qed.

Lemma lookup_entry_Some (n : string) (x : node) (es : list (string * node)) :
  lookup_entry n es = Some x -> (n, x) ∈ es.
Proof.
  induction es as [|[m y] es IH]; simpl; [discriminate|].
  destruct (String.eqb m n) eqn:Hmn.
  - apply String.eqb_eq in Hmn as ->. intros [= ->]. apply list_elem_of_here.
  - intros H. apply list_elem_of_further. now apply IH.
Qed.

Lemma elem_remove_entry (n : string) (e : string * node)
    (es : list (string * node)) :
  e ∈ remove_entry n es -> e ∈ es.
Proof.
  induction es as [|[m y] es IH]; simpl; [auto|].
  destruct (String.eqb m n).
  - intros H. apply list_elem_of_further. now apply IH.
  - intros [->|H]%elem_of_cons; [apply list_elem_of_here|].
    apply list_elem_of_further. now apply IH.
Qed.

Lemma distinct_names_movable (wrapper : string) (es : list (string * node)) :
  distinct_names es -> movable wrapper es.
Proof.
  intros [Hnd Hinner]. split; [exact Hnd|].
  intros ch Hw. apply (Hinner wrapper). now apply lookup_entry_Some.
Qed.

Lemma rmdir_contents (wrapper : string) (es : list (string * node)) :
  NoDup (names es) ->
  contents_in (snd (studip_sync.rmdir wrapper es)) ≡ₚ contents_in es.
Proof.
  intros Hnd. unfold studip_sync.rmdir.
  destruct (lookup_entry wrapper es) as [[c|[|e ch]]|] eqn:Hw;
    try reflexivity.
  cbn [snd]. now rewrite (contents_split wrapper (Dir []) es Hnd Hw).
Qed.

(** Whatever the removal of the wrapper does and however it ends, the
    contents of the files are the ones from before. *)
Lemma remove_intermediary_dir_contents (E : env) (es : list (string * node)) :
  distinct_names es ->
  contents_in (snd (studip_sync.remove_intermediary_dir E es))
  ≡ₚ contents_in es.
Proof.
  intros Hdistinct. unfold studip_sync.remove_intermediary_dir.
  destruct (filter _ es) as [|[wrapper [c|children]] [|e subdirs]];
    try reflexivity.
  pose proof (distinct_names_movable wrapper es Hdistinct) as Hmov.
  destruct (move_up_contents wrapper
              (studip_sync.glob_children E wrapper children) es Hmov)
    as [[Hnd _] Hperm].
  destruct (studip_sync.move_up _ wrapper es) as [[[]|e] es'];
    cbn [snd] in *; [|exact Hperm].
  now rewrite (rmdir_contents wrapper es' Hnd).
Qed.

Lemma remove_empty_dirs_contents (es : list (string * node)) :
  contents_left (studip_sync.remove_empty_dirs es) = contents_in es.
Proof.
  destruct (walk_rmdir_leaves (Dir es)) as [Hfiles _].
  unfold studip_sync.remove_empty_dirs, contents_left, contents_in, contents.
  destruct es as [|e es]; [reflexivity|].
  rewrite walk_rmdir_Dir in *. cbn [files_left] in Hfiles.
  unfold contents_in, contents. now rewrite Hfiles.
Qed.

Lemma remove_filelist_distinct (es : list (string * node)) :
  distinct_names es -> distinct_names (studip_sync.remove_filelist es).
Proof.
  intros [Hnd Hinner]. unfold studip_sync.remove_filelist.
  destruct (lookup_entry studip_sync.filelist es) as [[c|ch]|];
    try (now split).
  split; [now apply names_remove_entry|].
  intros n ch Hin. apply (Hinner n). now apply elem_remove_entry in Hin.
Qed.

(** X15. The cleanup after an extraction loses no file content, however it
    ends. With no two entries of one name in the top directory or in a
    directory right below it, the contents of the files left are, up to
    their order, the contents of the files extracted, less the manifest if
    there was one. *)
Theorem cleanup_keeps_contents (E : env) (es : list (string * node))
    (Hdistinct : distinct_names es) :
  let left := contents_left (snd (studip_sync.cleanup_extracted E es)) in
  match lookup_entry studip_sync.filelist es with
  | Some (File manifest) => manifest :: left ≡ₚ contents_in es
  | _ => left ≡ₚ contents_in es
  end.
Proof.
  intros left.
  assert (Hleft : left ≡ₚ contents_in (studip_sync.remove_filelist es)).
  { subst left. unfold studip_sync.cleanup_extracted.
    pose proof (remove_intermediary_dir_contents E _
                  (remove_filelist_distinct es Hdistinct)) as Hperm.
    destruct (studip_sync.remove_intermediary_dir E _) as [[[]|e] es'];
      cbn [snd contents_left] in *; [|exact Hperm].
    now rewrite remove_empty_dirs_contents. }
  destruct Hdistinct as [Hnd _].
  unfold studip_sync.remove_filelist in Hleft.
  destruct (lookup_entry studip_sync.filelist es) as [[c|ch]|] eqn:Hlist;
    try exact Hleft.
  rewrite Hleft. now rewrite (contents_split _ (File c) es Hnd Hlist).
Qed.

Lemma cleanup_keeps_contents_witness :
  "name;size"
  :: contents_left (snd (studip_sync.cleanup_extracted Demo.one_course
                           archive_with_note))
  ≡ₚ ["name;size"; "read me"; "notes"; "slides"].
Proof.
  apply (cleanup_keeps_contents Demo.one_course archive_with_note).
  split.
  - unfold archive_with_note. cbn [names List.map fst].
    repeat (apply NoDup_cons; split;
            [intros Hin; repeat (apply elem_of_cons in Hin as [Hin|Hin];
                                 [discriminate|]); inversion Hin|]).
    apply NoDup_nil_2.
  - intros n ch Hin. unfold archive_with_note in Hin.
    repeat (apply elem_of_cons in Hin as [Hin|Hin]; [try discriminate|]).
    + injection Hin as -> ->. cbn [names List.map fst].
      repeat (apply NoDup_cons; split;
              [intros Hin; repeat (apply elem_of_cons in Hin as [Hin|Hin];
                                   [discriminate|]); inversion Hin|]).
      apply NoDup_nil_2.
    + inversion Hin.
Defined.

(** ** Where the walk of a course writes *)

Lemma relative_first (b : string) :
  relative b -> bool_decide (first_char b = Some sep) = false.
Proof. intros H. now apply bool_decide_eq_false. Qed.

Lemma non_sep_relative (b : string) :
  all_chars non_sep b = true -> relative b.
Proof.
  unfold relative. destruct b as [|c b]; [discriminate|].
  simpl. intros [Hc _]%andb_true_iff [= ->]. discriminate.
Qed.

Lemma path_join_relative (a b : string) :
  relative a -> relative b -> relative (path_join a b).
Proof.
  intros Ha Hb. unfold path_join. rewrite (relative_first b Hb).
  destruct a as [|c a]; [exact Hb|].
  unfold relative in *.
  destruct (_ || _); rewrite app_cons; exact Ha.
Qed.

Lemma rsplit_sep_app (p : string) :
  fst (rsplit_sep p) +:+ snd (rsplit_sep p) = p.
Proof.
  induction p as [|c p IH]; [reflexivity|]. simpl.
  destruct (rsplit_sep p) as [h t]. simpl in IH.
  destruct (is_sep c); simpl.
  - rewrite app_cons. now rewrite IH.
  - destruct h as [|d h]; simpl.
    + change (EmptyString +:+ t) with t in IH. now rewrite IH.
    + rewrite app_cons. now rewrite IH.
Qed.

Lemma rstrip_by_rest (p : ascii -> bool) (s : string) :
  exists r, s = rstrip_by p s +:+ r /\ all_chars p r = true.
Proof.
  induction s as [|c s (r & Hr & Hall)]; [now exists EmptyString|].
  cbn [rstrip_by]. destruct (rstrip_by p s) as [|d t].
  - change (EmptyString +:+ r) with r in Hr. subst r.
    destruct (p c) eqn:Hc.
    + exists (String c s). split; [reflexivity|]. simpl. now rewrite Hc.
    + exists s. split; [reflexivity|exact Hall].
  - exists r. split; [|exact Hall]. rewrite app_cons. now rewrite <- Hr.
Qed.

Lemma app_empty_r (s : string) : s +:+ EmptyString = s.
Proof.
  induction s as [|c s IH]; [reflexivity|]. rewrite app_cons. now rewrite IH.
Qed.

Lemma comps_nonempty (p : string) : comps p <> [].
Proof.
  destruct p as [|c p]; [discriminate|]. simpl.
  destruct (is_sep c); [discriminate|]. now destruct (comps p).
Qed.

Lemma comps_app_sep (a b : string) :
  comps (a +:+ String sep b) = comps a ++ comps b.
Proof.
  induction a as [|c a IH]; [reflexivity|].
  rewrite app_cons. cbn [comps]. rewrite IH.
  destruct (is_sep c); [reflexivity|].
  pose proof (comps_nonempty a) as Hne.
  now destruct (comps a).
Qed.

Lemma comps_non_sep (b : string) :
  all_chars non_sep b = true -> comps b = [b].
Proof.
  induction b as [|c b IH]; [reflexivity|]. simpl.
  intros [Hc Hb]%andb_true_iff. unfold non_sep in Hc.
  apply negb_true_iff in Hc. rewrite Hc. now rewrite (IH Hb).
Qed.

Lemma step_empty (st : list string) : step st EmptyString = st.
Proof. reflexivity. Qed.

(** Without two dots among the components the way leads down only. *)
Lemma fold_step_climb (cs : list string) :
  ".." ∉ cs -> forall st, st `suffix_of` fold_left step cs st.
Proof.
  induction cs as [|c cs IH]; intros Hcs st; [reflexivity|].
  cbn [fold_left].
  assert (Hc : c <> "..") by (intros ->; apply Hcs, list_elem_of_here).
  assert (Hrest : ".." ∉ cs)
    by (intros H; apply Hcs; now apply list_elem_of_further).
  etransitivity; [|apply (IH Hrest)].
  unfold step. destruct (_ || _); [reflexivity|].
  apply String.eqb_neq in Hc. rewrite Hc. now apply suffix_cons_r.
Qed.

Lemma absolute_app (a b : string) :
  a <> EmptyString -> absolute (a +:+ b) = absolute a.
Proof. intros Ha. unfold absolute. now destruct a. Qed.

Lemma locate_app_sep (cwd : list string) (a b : string) :
  a <> EmptyString ->
  locate cwd (a +:+ String sep b) = fold_left step (comps b) (locate cwd a).
Proof.
  intros Ha. unfold locate. rewrite comps_app_sep, fold_left_app.
  now rewrite (absolute_app a _ Ha).
Qed.

Lemma locate_after_sep (cwd : list string) (a b : string) :
  locate cwd ((a +:+ String sep EmptyString) +:+ b)
  = fold_left step (comps b) (locate cwd (a +:+ String sep EmptyString)).
Proof.
  rewrite app_assoc_s. change (String sep EmptyString +:+ b) with (String sep b).
  unfold locate. rewrite !comps_app_sep, !fold_left_app.
  cbn [comps fold_left]. rewrite step_empty.
  destruct a as [|c a]; [reflexivity|].
  now rewrite !(absolute_app (String c a)) by discriminate.
Qed.

Lemma locate_snoc_sep (cwd : list string) (a : string) :
  a <> EmptyString ->
  locate cwd (a +:+ String sep EmptyString) = locate cwd a.
Proof. intros Ha. now rewrite locate_app_sep. Qed.

Lemma locate_app_seps (cwd : list string) (s : string) :
  all_chars is_sep s = true ->
  forall r, r <> EmptyString -> locate cwd (r +:+ s) = locate cwd r.
Proof.
  induction s as [|c s IH]; intros Hs r Hr; [now rewrite app_empty_r|].
  simpl in Hs. apply andb_true_iff in Hs as [Hc Hs].
  unfold is_sep in Hc. apply Ascii.eqb_eq in Hc as ->.
  change (String sep s) with (String sep EmptyString +:+ s).
  rewrite <- app_assoc_s. rewrite (IH Hs).
  - now apply locate_snoc_sep.
  - now destruct r.
Qed.

Lemma path_join_cases (a b : string) :
  relative b ->
  (a = EmptyString /\ path_join a b = b)
  \/ (exists a', a = a' +:+ String sep EmptyString
                 /\ path_join a b = a +:+ b)
  \/ (a <> EmptyString /\ path_join a b = a +:+ String sep b).
Proof.
  intros Hb. unfold path_join. rewrite (relative_first b Hb).
  destruct a as [|c a]; [now left|right]. simpl String.eqb. cbn [orb].
  destruct (bool_decide (last_char (String c a) = Some sep)) eqn:Hl.
  - left. apply bool_decide_eq_true in Hl.
    apply last_char_sep in Hl as [a' Ha']. exists a'. now split.
  - right. split; [discriminate|reflexivity].
Qed.

(** A relative path joined to a directory leads on from the directory. *)
Lemma locate_join (cwd : list string) (a b : string) :
  relative b ->
  locate cwd (path_join a b) = fold_left step (comps b) (locate cwd a).
Proof.
  intros Hb.
  destruct (path_join_cases a b Hb)
    as [[-> ->]|[(a' & -> & ->)|[Ha ->]]].
  - unfold locate. unfold absolute at 1.
    now rewrite (relative_first b Hb).
  - apply locate_after_sep.
  - now apply locate_app_sep.
Qed.

Lemma within_refl (cwd : list string) (d : string) : within cwd d d.
Proof. unfold within. reflexivity. Qed.

Lemma within_trans (cwd : list string) (a b c : string) :
  within cwd a b -> within cwd b c -> within cwd a c.
Proof. unfold within. intros H1 H2. now transitivity (locate cwd b). Qed.

Lemma within_join (cwd : list string) (a b : string) :
  tame b -> within cwd a (path_join a b).
Proof.
  intros [Hrel Hdots]. unfold within. rewrite (locate_join cwd a b Hrel).
  now apply fold_step_climb.
Qed.

Lemma tame_empty : tame EmptyString.
Proof.
  split; [discriminate|]. simpl. intros H.
  apply list_elem_of_singleton in H. discriminate.
Qed.

Lemma tame_name (n : string) :
  all_chars non_sep n = true -> n <> ".." -> tame n.
Proof.
  intros Hn Hdots. split; [now apply non_sep_relative|].
  rewrite (comps_non_sep n Hn). intros H.
  apply list_elem_of_singleton in H. congruence.
Qed.

Lemma tame_join (a b : string) : tame a -> tame b -> tame (path_join a b).
Proof.
  intros [Hra Hda] [Hrb Hdb]. split; [now apply path_join_relative|].
  destruct (path_join_cases a b Hrb)
    as [[-> ->]|[(a' & -> & ->)|[Ha ->]]]; [exact Hdb| |].
  - rewrite app_assoc_s.
    change (String sep EmptyString +:+ b) with (String sep b).
    rewrite comps_app_sep in *. intros H. apply elem_of_app in H as [H|H].
    + apply Hda. apply elem_of_app. now left.
    + now apply Hdb.
  - rewrite comps_app_sep. intros H. apply elem_of_app in H as [H|H];
      [now apply Hda|now apply Hdb].
Qed.

(** The head of a split is empty or ends with a separator. *)
Lemma rsplit_sep_head_sep (p : string) :
  fst (rsplit_sep p) = EmptyString
  \/ exists h, fst (rsplit_sep p) = h +:+ String sep EmptyString.
Proof.
  induction p as [|c p IH]; [now left|]. simpl.
  destruct (rsplit_sep p) as [h t]. simpl in IH.
  destruct (is_sep c) eqn:Hc.
  - right. unfold is_sep in Hc. apply Ascii.eqb_eq in Hc as ->.
    destruct IH as [->|[h' ->]]; [now exists EmptyString|].
    exists (String sep h'). reflexivity.
  - destruct h as [|d h]; [now left|right].
    destruct IH as [IH|[h' IH]]; [discriminate|].
    exists (String c h'). rewrite app_cons. now rewrite <- IH.
Qed.

(** What [os.path.split] gives as the head leads where the head of the
    plain split leads. *)
Lemma locate_split_head (cwd : list string) (h : string) :
  locate cwd (if all_chars is_sep h then h else rstrip_by is_sep h)
  = locate cwd h.
Proof.
  destruct (all_chars is_sep h) eqn:Hall; [reflexivity|].
  destruct (rstrip_by_rest is_sep h) as (r & Hh & Hr).
  rewrite Hh at 2. symmetry. apply (locate_app_seps cwd r Hr).
  intros Hempty. rewrite Hempty in Hh.
  change (EmptyString +:+ r) with r in Hh. subst r. congruence.
Qed.

(** A path leads one component on from the head of its split. *)
Lemma locate_split (cwd : list string) (p : string) :
  locate cwd p
  = step (locate cwd (fst (path_split p))) (snd (path_split p)).
Proof.
  unfold path_split.
  pose proof (rsplit_sep_app p) as Happ.
  pose proof (rsplit_sep_tail p) as Htail.
  pose proof (rsplit_sep_head_sep p) as Hhead.
  destruct (rsplit_sep p) as [h t]. cbn [fst snd] in *.
  rewrite locate_split_head. subst p.
  destruct Hhead as [->|[h' ->]].
  - change (EmptyString +:+ t) with t. unfold locate.
    rewrite (comps_non_sep t Htail). cbn [fold_left comps].
    rewrite step_empty. unfold absolute.
    rewrite (relative_first t (non_sep_relative t Htail)).
    reflexivity.
  - rewrite locate_after_sep. now rewrite (comps_non_sep t Htail).
Qed.

Lemma step_name (st : list string) (n : string) :
  n <> EmptyString -> n <> "." -> n <> ".." -> step st n = n :: st.
Proof.
  intros H0 H1 H2. unfold step.
  apply String.eqb_neq in H0, H1, H2. now rewrite H0, H1, H2.
Qed.

Lemma step_inj (a b : list string) (n : string) :
  n <> ".." -> step a n = step b n -> a = b.
Proof.
  intros Hn. unfold step. destruct (_ || _); [trivial|].
  apply String.eqb_neq in Hn. rewrite Hn. now intros [= ->].
Qed.

Lemma old_suffix_name (n : string) (t : datetime) :
  let aside := n +:+ studip_rsync.old_suffix t in
  aside <> EmptyString /\ aside <> "." /\ aside <> "..".
Proof.
  intros aside.
  assert (Hmem : mem_char "_" aside = true).
  { subst aside. rewrite mem_char_app. unfold studip_rsync.old_suffix.
    simpl. apply orb_true_r. }
  repeat split; intros H; rewrite H in Hmem; discriminate.
Qed.

(** The path a file of a folder is moved aside to leads into the folder. *)
Lemma locate_aside (cwd : list string) (folder name : string) (t : datetime) :
  all_chars non_sep name = true -> name <> ".." ->
  locate cwd (moved_aside (path_join folder name) t)
  = (name +:+ studip_rsync.old_suffix t) :: locate cwd folder.
Proof.
  intros Hname Hdots. set (p := path_join folder name).
  assert (Hrel : relative name) by now apply non_sep_relative.
  assert (Hbase : locate cwd (fst (path_split p)) = locate cwd folder).
  { apply (step_inj _ _ name Hdots).
    assert (Hsnd : snd (path_split p) = name)
      by (rewrite path_split_snd; now apply rsplit_sep_join).
    rewrite <- Hsnd at 1. rewrite <- locate_split. unfold p.
    rewrite (locate_join cwd folder name Hrel).
    now rewrite (comps_non_sep name Hname). }
  unfold moved_aside.
  assert (Hsnd : snd (path_split p) = name)
    by (rewrite path_split_snd; now apply rsplit_sep_join).
  destruct (path_split p) as [base tail]. cbn [fst snd] in *. subst tail.
  assert (Hns : all_chars non_sep (name +:+ studip_rsync.old_suffix t) = true).
  { rewrite all_chars_app, Hname. apply old_suffix_non_sep. }
  rewrite locate_join by now apply non_sep_relative.
  rewrite (comps_non_sep _ Hns). cbn [fold_left]. rewrite Hbase.
  destruct (old_suffix_name name t) as (H0 & H1 & H2).
  now apply step_name.
Qed.

Lemma same_outside_refl (P : string -> Prop) (w : world) : same_outside P w w.
Proof. now intros p. Qed.

Lemma same_outside_trans (P : string -> Prop) (a b c : world) :
  same_outside P a b -> same_outside P b c -> same_outside P a c.
Proof. intros H1 H2 p Hp. rewrite (H2 p Hp). now apply H1. Qed.

Lemma same_outside_fs (P : string -> Prop) (w w' : world) :
  fs w' = fs w -> same_outside P w w'.
Proof. intros H p _. now rewrite H. Qed.

Lemma respects_bind_lift {A B} (R : world -> world -> Prop)
    (r : result A) (k : A -> M B) :
  (forall w, R w w) ->
  (forall a, r = Ok a -> respects R (k a)) ->
  respects R (mbind (lift r) k).
Proof.
  intros Hrefl Hk w. unfold mbind, lift.
  destruct r as [a|e]; [now apply Hk|apply Hrefl].
Qed.

Section Frame.

Variable P : string -> Prop.

Lemma frame_write_download (E : env) (target content : string) :
  P target -> respects (same_outside P) (write_download E target content).
Proof.
  intros Ht w p Hp. unfold write_download. cbn [snd fs emit tick set_fs].
  apply lookup_insert_ne. intros ->. contradiction.
Qed.

Lemma frame_os_rename (src dst : string) :
  P src -> P dst -> respects (same_outside P) (os_rename src dst).
Proof.
  intros Hs Hd w p Hp. unfold os_rename, rename.
  destruct (fs w !! src) as [f|]; [|reflexivity].
  cbn [snd fs emit set_fs].
  rewrite lookup_insert_ne by (intros ->; contradiction).
  apply lookup_delete_ne. intros ->. contradiction.
Qed.

Lemma frame_shutil_copyfile (E : env) (src dst : string) :
  P dst -> respects (same_outside P) (shutil_copyfile E src dst).
Proof.
  intros Hd w p Hp. unfold shutil_copyfile, copyfile.
  destruct (fs w !! src) as [f|]; [|reflexivity].
  destruct (String.eqb src dst); [reflexivity|].
  cbn [snd fs emit tick set_fs].
  apply lookup_insert_ne. intros ->. contradiction.
Qed.

Lemma frame_place (E : env) (target p : string) :
  P p -> (forall t, P (moved_aside p t)) ->
  respects (same_outside P) (studip_rsync.place E target p).
Proof.
  intros Hp Haside. unfold moved_aside in Haside. unfold studip_rsync.place.
  destruct (path_split p) as [base name].
  apply respects_bind;
    [apply same_outside_trans
    |apply respects_get_fs, same_outside_refl|].
  intros fs0.
  apply respects_bind; [apply same_outside_trans| |].
  { apply respects_if.
    - apply respects_bind; [apply same_outside_trans| |].
      + intros w. now apply same_outside_fs.
      + intros t. apply frame_os_rename; [exact Hp|apply Haside].
    - intros w. now apply same_outside_fs. }
  intros _.
  apply respects_bind;
    [apply same_outside_trans
    |apply respects_get_fs, same_outside_refl|].
  intros fs1.
  apply respects_if; [apply respects_raise, same_outside_refl|].
  now apply frame_shutil_copyfile.
Qed.

End Frame.

Lemma hex_not_dots (i : string) :
  all_chars hex_char i = true -> i <> "..".
Proof. intros H ->. discriminate. Qed.

Lemma sync_file_frame (E : env) (self : studip_rsync.CourseRSync)
    (cwd : list string) (rel : string) (d : gmap string value) :
  tame rel -> named_safely d -> hex_id d ->
  d !! "name" <> Some (VStr "..") ->
  respects (same_outside (reach E self cwd))
    (studip_rsync.sync_file E self rel d).
Proof.
  intros Hrel (name & Hname & Hsafe & _) (i & Hid & Hhex) Hdots.
  assert (Hproper : name <> "..") by congruence.
  set (R := same_outside (reach E self cwd)).
  assert (Hrefl : forall w, R w w) by apply same_outside_refl.
  assert (Htrans : forall a b c, R a b -> R b c -> R a c)
    by apply same_outside_trans.
  unfold studip_rsync.sync_file.
  rewrite (getitem_lookup _ _ _ Hname), (getitem_lookup _ _ _ Hid).
  apply respects_bind_lift; [exact Hrefl|]. intros url _.
  apply respects_if; [now apply respects_lift|].
  apply respects_bind_lift; [exact Hrefl|]. intros ? [= <-].
  cbn [path_join_value].
  apply respects_bind_lift; [exact Hrefl|]. intros ? [= <-].
  apply respects_bind; [exact Htrans|now apply respects_get_fs|].
  intros fs0.
  apply respects_bind_lift; [exact Hrefl|]. intros new _.
  apply respects_if; [|now apply respects_ret].
  apply respects_bind_lift; [exact Hrefl|]. intros ? [= <-].
  apply respects_bind_lift; [exact Hrefl|]. intros ? [= <-].
  apply respects_bind_lift; [exact Hrefl|]. intros content _.
  set (folder := path_join (studip_rsync.self_root_folder self) rel).
  assert (Hfolder : within cwd (studip_rsync.self_root_folder self) folder)
    by now apply within_join.
  assert (Htarget : reach E self cwd (path_join (workdir E) i)).
  { right. apply within_join, tame_name.
    - now apply hex_non_sep.
    - now apply hex_not_dots. }
  assert (Hpath : reach E self cwd (path_join folder name)).
  { left. apply (within_trans cwd _ folder); [exact Hfolder|].
    now apply within_join, tame_name. }
  apply respects_bind;
    [exact Htrans|now apply frame_write_download|].
  intros _.
  apply respects_bind_lift; [exact Hrefl|]. intros file_size _.
  apply respects_bind; [exact Htrans|now apply respects_get_fs|].
  intros fs1.
  destruct (fs1 !! path_join (workdir E) i) as [downloaded|];
    [|now apply respects_raise].
  apply respects_if; [now apply respects_raise|].
  apply respects_bind; [exact Htrans| |].
  - apply frame_place; [exact Hpath|].
    intros t. left. unfold within.
    rewrite (locate_aside cwd folder name t Hsafe Hproper).
    now apply suffix_cons_r.
  - intros _ w. now apply same_outside_fs.
Qed.

Lemma cleaned_entries_walkable (nfkc : string -> string) (use_api : bool)
    (files folders files' folders' : list (gmap string value)) :
  studip_rsync.check_and_cleanup_form_data nfkc files folders use_api
  = Ok (files', folders') ->
  Forall (fun d => named_safely d /\ hex_id d) files'
  /\ Forall (fun d => named_safely d /\ hex_id d) folders'.
Proof.
  apply check_and_cleanup_Forall.
  - intros d d' Hd. split.
    + now apply cleanup_file_shape in Hd.
    + apply cleanup_file_Some in Hd as [(Hhex & _) _]. exact Hhex.
  - intros d d' Hd. split.
    + now apply cleanup_folder_shape in Hd.
    + now apply cleanup_folder_Some in Hd.
Qed.

Lemma download_recursive_frame (E : env) (self : studip_rsync.CourseRSync)
    (cwd : list string) (depth : nat) :
  no_parent_names E self ->
  forall folder_id rel,
    tame rel ->
    respects (same_outside (reach E self cwd))
      (studip_rsync.download_recursive E self depth folder_id rel).
Proof.
  intros Hnames.
  set (R := same_outside (reach E self cwd)).
  assert (Hrefl : forall w, R w w) by apply same_outside_refl.
  assert (Htrans : forall a b c, R a b -> R b c -> R a c)
    by apply same_outside_trans.
  induction depth as [|depth IH]; intros folder_id rel Hrel; simpl.
  - now apply respects_raise.
  - intros w. specialize (Hnames folder_id).
    destruct (if studip_rsync.self_use_api self then _ else _)
      as [[files folders]|e].
    2:{ destruct e; apply Hrefl. }
    specialize (Hnames files folders).
    revert w. apply respects_bind_lift; [exact Hrefl|].
    intros [files' folders'] Hclean.
    specialize (Hnames files' folders' eq_refl Hclean).
    apply cleaned_entries_walkable in Hclean as [Hfiles Hfolders].
    rewrite Forall_forall in Hfiles, Hfolders. cbn [fst snd].
    apply respects_bind; [exact Htrans| |].
    + apply respects_for_each; [exact Hrefl|exact Htrans|].
      intros d Hd. destruct (Hfiles d Hd) as [Hname Hhex].
      apply sync_file_frame; try assumption.
      apply Hnames, elem_of_app. now left.
    + intros _. apply respects_for_each; [exact Hrefl|exact Htrans|].
      intros d Hd. destruct (Hfolders d Hd) as [(s & Hs & Hsafe & _) _].
      assert (Hdots : s <> "..").
      { intros ->. apply (Hnames d); [|exact Hs].
        apply elem_of_app. now right. }
      rewrite (getitem_lookup _ _ _ Hs).
      apply respects_bind_lift; [exact Hrefl|]. intros ? [= <-].
      cbn [path_join_value].
      apply respects_bind_lift; [exact Hrefl|]. intros ? [= <-].
      apply respects_bind_lift; [exact Hrefl|]. intros id _.
      apply IH. apply tame_join; [exact Hrel|]. now apply tame_name.
Qed.

(** X16. The walk of a course in strategy A, however it ends, changes no
    file outside the root folder of the course and the work directory, as
    long as no entry of a cleaned listing is named with two dots: a path
    that leads neither into the root folder nor into the work directory,
    whatever the directory the process runs in, holds after the walk what it
    held before. Where a path leads is read off its components, a dot
    staying and two dots going up, with no link followed. *)
Theorem download_writes_inside (E : env) (self : studip_rsync.CourseRSync)
    (cwd : list string) (depth : nat) (w : world) (p : string)
    (Hnames : no_parent_names E self)
    (Houtside : ~ reach E self cwd p) :
  fs (snd (studip_rsync.download E self depth w)) !! p = fs w !! p.
Proof.
  revert p Houtside.
  fold (same_outside (reach E self cwd) w
          (snd (studip_rsync.download E self depth w))).
  unfold studip_rsync.download.
  destruct (studip_rsync.course_has_new_files E self w) as [[|]|e];
    try apply same_outside_refl.
  apply (download_recursive_frame E self cwd depth Hnames VNone EmptyString).
  apply tame_empty.
Qed.

Lemma one_course_no_parent_names :
  no_parent_names Demo.one_course systems_walk.
Proof.
  intros folder_id files folders files' folders' Hlist Hclean d Hd.
  cbn in Hlist. unfold Demo.listing in Hlist.
  destruct (bool_decide (folder_id = VNone)); injection Hlist as <- <-;
    vm_compute in Hclean; injection Hclean as <- <-.
  - apply list_elem_of_singleton in Hd as ->. discriminate.
  - inversion Hd.
Qed.

Lemma download_writes_inside_witness :
  fs (snd (studip_rsync.download Demo.one_course systems_walk 3
             with_notes)) !! "home/notes.txt"
  = Some {| data := "my notes"; mtime := 1600000000 |}.
Proof.
  rewrite (download_writes_inside Demo.one_course systems_walk ["u"; "home"]
             3 with_notes "home/notes.txt" one_course_no_parent_names);
    [reflexivity|].
  intros [H|H]; unfold within in H; apply (bool_decide_pack _) in H;
    vm_compute in H; contradiction.
Defined.

(** The condition on the names is needed: the cleanup lets a folder named
    with two dots through, and the walk then copies a file of that folder
    to a path that leads out of the root folder of the course. *)
Example download_climbs_out :
  studip_rsync.clean_name ".." = ".."
  /\ exists w',
       studip_rsync.download climbing systems_walk 3 Demo.fresh = (Ok tt, w')
       /\ EvCopyfile "work/0c3d" "dest/101 V Introduction 2/../notes.txt"
          ∈ events w'
       /\ locate [] "dest/101 V Introduction 2/../notes.txt"
          = ["notes.txt"; "dest"]
       /\ locate [] (studip_rsync.self_root_folder systems_walk)
          = ["101 V Introduction 2"; "dest"].
Proof.
  split; [vm_compute; reflexivity|].
  eexists. split; [vm_compute; reflexivity|].
  split; [|split; vm_compute; reflexivity].
  cbn [events]. do 2 apply list_elem_of_further. apply list_elem_of_here.
Qed.

(** ** Courses the loop passes over *)

Lemma rsync_listed_course_skipped (E : env) (sync_fully use_api : bool)
    (depth : nat) (c : course) (status : Z) (w : world) :
  course_id c ∈ ignore_courses (CONFIG E) ->
  studip_rsync.sync_course E sync_fully use_api depth c status w
  = (Ok status, w).
Proof.
  intros Hlisted. unfold studip_rsync.sync_course.
  unfold mbind at 1. unfold lift at 1. unfold ignored.
  now rewrite bool_decide_eq_true_2 by exact Hlisted.
Qed.

Lemma sync_listed_course_skipped (E : env) (sync_fully : bool) (c : course)
    (title : string) (status : Z) (w : world) :
  course_id c ∈ ignore_courses (CONFIG E) -> save_as c = VStr title ->
  studip_sync.sync_course E sync_fully c status w = (Ok status, w).
Proof.
  intros Hlisted Htitle. unfold studip_sync.sync_course.
  unfold mbind at 1. unfold lift at 1.
  unfold studip_sync.shorten. rewrite Htitle.
  unfold mbind at 1. unfold lift at 1. unfold ignored.
  cbn [course_id set_save_as].
  now rewrite bool_decide_eq_true_2 by exact Hlisted.
Qed.

(** X17. A course the ignore list names by its identifier is passed over
    entirely: the course loop of strategy A runs as it does on the list
    without these courses, whatever else is wrong with them, and so does
    the loop of strategy B as long as every course has a title. *)
Theorem listed_courses_are_passed_over (E : env)
    (sync_fully use_api : bool) (depth : nat) (courses : list course)
    (status : Z) (w : world) :
  studip_rsync.sync_courses E sync_fully use_api depth courses status w
  = studip_rsync.sync_courses E sync_fully use_api depth
      (not_listed E courses) status w
  /\ (Forall (fun c => exists title, save_as c = VStr title) courses ->
      studip_sync.sync_courses E sync_fully courses status w
      = studip_sync.sync_courses E sync_fully (not_listed E courses)
          status w).
Proof.
  unfold not_listed. split.
  - revert status w. induction courses as [|c rest IH]; intros status w;
      [reflexivity|].
    destruct (decide (course_id c ∈ ignore_courses (CONFIG E)))
      as [Hlisted|Hfree].
    + rewrite filter_cons_False by (intros Hn; now apply Hn).
      rewrite <- IH. cbn [studip_rsync.sync_courses]. unfold mbind at 1.
      now rewrite rsync_listed_course_skipped.
    + rewrite filter_cons_True by exact Hfree.
      cbn [studip_rsync.sync_courses]. unfold mbind.
      destruct (studip_rsync.sync_course E sync_fully use_api depth c
                  status w) as [[st|e] w1]; [apply IH|reflexivity].
  - intros Hall. revert status w.
    induction Hall as [|c rest [title Htitle] _ IH]; intros status w;
      [reflexivity|].
    destruct (decide (course_id c ∈ ignore_courses (CONFIG E)))
      as [Hlisted|Hfree].
    + rewrite filter_cons_False by (intros Hn; now apply Hn).
      rewrite <- IH. cbn [studip_sync.sync_courses]. unfold mbind at 1.
      now rewrite (sync_listed_course_skipped E sync_fully c title).
    + rewrite filter_cons_True by exact Hfree.
      cbn [studip_sync.sync_courses]. unfold mbind.
      destruct (studip_sync.sync_course E sync_fully c status w)
        as [[st|e] w1]; [apply IH|reflexivity].
Qed.

(** X18. Without a full sync and without a media destination, a course
    loop over courses for which the session reports nothing new changes
    nothing and keeps the status: no listing is read, no archive is
    fetched. The ignore list must be readable against the names. *)
Theorem unchanged_courses_are_not_walked (E : env) (use_api : bool)
    (depth : nat) (courses : list course) (status : Z) (w : world)
    (Hmedia : configured (media_destination (CONFIG E)) = false) :
  (Forall (fun c => unchanged E w c /\ passes E c
                    /\ exists title, save_as c = VStr title) courses ->
   studip_rsync.sync_courses E false use_api depth courses status w
   = (Ok status, w))
  /\ (Forall (fun c => unchanged E w c
                       /\ exists c', studip_sync.shorten c = Ok c'
                                     /\ passes E c') courses ->
      studip_sync.sync_courses E false courses status w = (Ok status, w)).
Proof.
  split; intros Hall.
  - induction Hall as [|c rest (Hsame & [skip Hskip] & [title Htitle]) _ IH];
      [reflexivity|].
    cbn [studip_rsync.sync_courses]. unfold mbind at 1.
    unfold studip_rsync.sync_course. unfold mbind at 1. unfold lift at 1.
    rewrite Hskip. destruct skip; [exact IH|].
    unfold mbind at 1. unfold lift at 1.
    unfold studip_rsync.get_course_save_as. rewrite Htitle.
    rewrite Hmedia.
    assert (Hfiles : forall save,
               studip_rsync.sync_files E false use_api depth c save status w
               = (Ok status, w)).
    { intros save. unfold studip_rsync.sync_files, studip_rsync.download,
        studip_rsync.course_has_new_files.
      cbn [studip_rsync.self_sync_fully studip_rsync.self_course_id].
      unfold unchanged in Hsame. now rewrite Hsame. }
    destruct (use_new_file_structure (CONFIG E));
      (destruct (configured (files_destination (CONFIG E)));
       [unfold mbind at 1; rewrite Hfiles; exact IH|exact IH]).
  - induction Hall as [|c rest (Hsame & c' & Hshort & [skip Hskip]) _ IH];
      [reflexivity|].
    cbn [studip_sync.sync_courses]. unfold mbind at 1.
    unfold studip_sync.sync_course. unfold mbind at 1. unfold lift at 1.
    rewrite Hshort. unfold mbind at 1. unfold lift at 1.
    rewrite Hskip. destruct skip; [exact IH|].
    rewrite Hmedia.
    assert (Hid : course_id c' = course_id c).
    { unfold studip_sync.shorten in Hshort.
      destruct (save_as c); try discriminate. now injection Hshort as <-. }
    destruct (configured (files_destination (CONFIG E))); [|exact IH].
    unfold mbind at 1. unfold studip_sync.sync_files.
    unfold mbind at 1. unfold lift at 1. rewrite Hid.
    unfold unchanged in Hsame. rewrite Hsame. exact IH.
Qed.

Lemma unchanged_courses_are_not_walked_witness :
  studip_rsync.sync_courses quiet_remote false false 3
    [Demo.systems; Demo.algebra] 0 Demo.fresh
  = (Ok 0, Demo.fresh).
Proof.
  apply (unchanged_courses_are_not_walked quiet_remote false 3
           [Demo.systems; Demo.algebra] 0 Demo.fresh eq_refl).
  repeat constructor; try reflexivity; unfold passes; eauto.
Defined.
